(** * The twilio-voice webhook: a shallow embedding and its specification

    This development embeds the Deno edge function [twilio-voice]
    (the [serve(async (req) => ...)] handler and its helper [debugTwiML])
    and checks the properties the repository's specification states about
    it: body normalisation, action classification, the per-action
    handlers, the markup they build and the top-level error handler.

    Conventions of the embedding.
    - JavaScript values are the inductive [JsVal]; an object used as a
      dictionary ([requestData], [callbackData]) is a [gmap string JsVal].
    - An exception is a value of [Result]; [try { .. } catch] is
      [try_catch].  Calls to the telephony provider are recorded in a log
      threaded by the monad [Eff].
    - What the platform and the provider library do (decoding a body,
      answering an API call, printing markup) lies outside the repository:
      the request carries the outcome of each body reader, the provider is
      a record of answer functions, and the documented behaviour of
      [URLSearchParams], [String.prototype] methods, string conversion
      and the TwiML builder is written out.
    - A text is held as the bytes of its UTF-8 encoding (a lone surrogate,
      which a JavaScript string may hold, as the three bytes of its
      generalised encoding); [Str.code_units] gives the UTF-16 code units
      JavaScript indexes it by.
    - A template literal converts the values it interpolates to strings,
      and the conversion of an object can throw.  The handler logs many
      such texts: each log line that interpolates a request value is kept
      as [log_template], for the exception it may raise; log lines that
      print constants, strings or numbers have no effect and are left
      out. *)

From stdpp Require Import gmap strings list pretty.
From Stdlib Require Import ZArith Lia Ascii.

#[local] Set Warnings "-register-all".

(** ** Strings *)

Module Str.

(** The one-character string holding a double quote. *)
Definition dquote : string := String (Ascii.ascii_of_nat 34) EmptyString.

Definition is_empty (s : string) : bool :=
  match s with EmptyString => true | String _ _ => false end.

(** [s.startsWith(p)]. *)
Definition startsWith (s p : string) : bool := String.prefix p s.

(** [s.includes(sub)]. *)
Fixpoint includes (s sub : string) : bool :=
  String.prefix sub s ||
  match s with
  | EmptyString => false
  | String _ s' => includes s' sub
  end.

Definition is_digit (c : Ascii.ascii) : bool :=
  let n := Ascii.nat_of_ascii c in (48 <=? n)%nat && (n <=? 57)%nat.

(** [s.replace(/\D/g, '')]: every character that is not a decimal digit
    is removed. *)
Fixpoint strip_non_digits (s : string) : string :=
  match s with
  | EmptyString => EmptyString
  | String c s' =>
      if is_digit c then String c (strip_non_digits s')
      else strip_non_digits s'
  end.

(** White space and line terminators of ECMAScript, read on the UTF-8
    encoding of the text: the ASCII ones, then U+00A0, U+1680,
    U+2000..U+200A, U+2028, U+2029, U+202F, U+205F, U+3000 and U+FEFF. *)
Definition ascii_space (n : nat) : bool :=
  ((9 <=? n)%nat && (n <=? 13)%nat) || (n =? 32)%nat.

Definition space3 (a b c : nat) : bool :=
  match a, b with
  | 225, 154 => (c =? 128)%nat
  | 226, 128 =>
      ((128 <=? c)%nat && (c <=? 138)%nat)
      || (c =? 168)%nat || (c =? 169)%nat || (c =? 175)%nat
  | 226, 129 => (c =? 159)%nat
  | 227, 128 => (c =? 128)%nat
  | 239, 187 => (c =? 191)%nat
  | _, _ => false
  end.

(** [!s.trim()]: the text holds white space only. *)
Fixpoint blank_codes (fuel : nat) (l : list nat) : bool :=
  match fuel with
  | O => match l with [] => true | _ => false end
  | S fuel' =>
      match l with
      | [] => true
      | a :: l1 =>
          if ascii_space a then blank_codes fuel' l1
          else
            match l1 with
            | b :: l2 =>
                if (a =? 194)%nat && (b =? 160)%nat then blank_codes fuel' l2
                else
                  match l2 with
                  | c :: l3 =>
                      if space3 a b c then blank_codes fuel' l3 else false
                  | [] => false
                  end
            | [] => false
            end
      end
  end.

Definition codes (s : string) : list nat :=
  map Ascii.nat_of_ascii (String.list_ascii_of_string s).

Definition trim_is_empty (s : string) : bool :=
  blank_codes (String.length s) (codes s).

(** [s.split(c)] for a one-character separator. *)
Fixpoint split_on (c : Ascii.ascii) (s : string) : list string :=
  match s with
  | EmptyString => [EmptyString]
  | String d s' =>
      if Ascii.eqb c d then EmptyString :: split_on c s'
      else
        match split_on c s' with
        | [] => [String d EmptyString]
        | w :: ws => String d w :: ws
        end
  end.

(** The text before and after the first [c], when there is one. *)
Fixpoint cut_at (c : Ascii.ascii) (s : string) : option (string * string) :=
  match s with
  | EmptyString => None
  | String d s' =>
      if Ascii.eqb c d then Some (EmptyString, s')
      else
        match cut_at c s' with
        | Some (a, b) => Some (String d a, b)
        | None => None
        end
  end.

(** *** UTF-16 code units *)

Definition bytes (s : string) : list Z :=
  map (fun c => Z.of_nat (Ascii.nat_of_ascii c)) (String.list_ascii_of_string s).

Definition continuation (b : Z) : bool := (128 <=? b)%Z && (b <? 192)%Z.

(** The code points a byte sequence encodes (surrogates included, for
    the generalised encoding); a byte that belongs to no sequence counts
    as U+FFFD. *)
Fixpoint code_points (l : list Z) : list Z :=
  match l with
  | [] => []
  | a :: l1 =>
      if (a <? 128)%Z then a :: code_points l1
      else
        match l1 with
        | b :: l2 =>
            if (192 <=? a)%Z && (a <? 224)%Z && continuation b then
              ((a - 192) * 64 + (b - 128))%Z :: code_points l2
            else
              match l2 with
              | c :: l3 =>
                  if (224 <=? a)%Z && (a <? 240)%Z && continuation b && continuation c then
                    ((a - 224) * 4096 + (b - 128) * 64 + (c - 128))%Z :: code_points l3
                  else
                    match l3 with
                    | d :: l4 =>
                        if (240 <=? a)%Z && (a <? 248)%Z
                           && continuation b && continuation c && continuation d then
                          ((a - 240) * 262144 + (b - 128) * 4096 + (c - 128) * 64 + (d - 128))%Z
                            :: code_points l4
                        else 65533%Z :: code_points l1
                    | [] => 65533%Z :: code_points l1
                    end
              | [] => 65533%Z :: code_points l1
              end
        | [] => [65533%Z]
        end
  end.

(** A code point above U+FFFF is a pair of surrogates. *)
Definition units_of (cp : Z) : list Z :=
  if (cp <? 65536)%Z then [cp]
  else [ (55296 + (cp - 65536) / 1024)%Z; (56320 + (cp - 65536) mod 1024)%Z ].

Definition code_units (s : string) : list Z :=
  flat_map units_of (code_points (bytes s)).

Definition byte (n : Z) : Ascii.ascii := Ascii.ascii_of_nat (Z.to_nat n).

(** The one-unit text [s[i]] that holds the code unit [u]. *)
Definition of_code_unit (u : Z) : string :=
  if (u <? 128)%Z then String (byte u) EmptyString
  else if (u <? 2048)%Z then
    String (byte (192 + u / 64)) (String (byte (128 + u mod 64)) EmptyString)
  else
    String (byte (224 + u / 4096))
      (String (byte (128 + (u / 64) mod 64))
         (String (byte (128 + u mod 64)) EmptyString)).

End Str.

(** ** Numbers

    [Number.prototype.toString] on an integral Number: the shortest
    decimal digits that denote the Number, written in full up to 21
    digits and in exponent form beyond. *)

Module Num.

(** The Number nearest to a non-negative integer: 53 significant bits,
    a tie going to the even neighbour. *)
Definition round (n : Z) : Z :=
  let bits := (Z.log2 n + 1)%Z in
  if (bits <=? 53)%Z then n
  else
    let shift := (bits - 53)%Z in
    let q := Z.shiftr n shift in
    let r := (n - Z.shiftl q shift)%Z in
    let half := Z.shiftl 1 (shift - 1) in
    let q' := if (half <? r)%Z || ((r =? half)%Z && Z.odd q) then (q + 1)%Z else q in
    Z.shiftl q' shift.

(** The multiple of the greatest power of ten (at most [10^m]) that
    denotes the Number [x]; of two such multiples, the nearer one. *)
Fixpoint shortest (m : nat) (x : Z) : Z :=
  let p := (10 ^ Z.of_nat m)%Z in
  let lo := (x / p * p)%Z in
  let hi := (lo + p)%Z in
  let lo_ok := (0 <? lo)%Z && (round lo =? x)%Z in
  let hi_ok := (round hi =? x)%Z in
  if lo_ok && hi_ok then
    if (x - lo <? hi - x)%Z then lo
    else if (hi - x <? x - lo)%Z then hi
    else if Z.even (lo / p) then lo else hi
  else if lo_ok then lo
  else if hi_ok then hi
  else
    match m with
    | O => x
    | S m' => shortest m' x
    end.

Fixpoint strip_trailing_zeros (s : string) : string :=
  match s with
  | EmptyString => EmptyString
  | String c s' =>
      match strip_trailing_zeros s' with
      | EmptyString => if Ascii.eqb c "0"%char then EmptyString else String c EmptyString
      | kept => String c kept
      end
  end.

(** The digits [d1 d2 .. dk] of a Number with [n] > 21 integral digits:
    [d1.d2..dk e+(n-1)]. *)
Definition exponent_form (digits : string) : string :=
  let exponent := "e+" +:+ pretty (String.length digits - 1)%nat in
  match strip_trailing_zeros digits with
  | EmptyString => digits
  | String d EmptyString => String d exponent
  | String d more => String d ("." +:+ more +:+ exponent)
  end.

Definition to_string (n : Z) : string :=
  if (n =? 0)%Z then "0"
  else
    let x := round (Z.abs n) in
    let sign := if (n <? 0)%Z then "-" else EmptyString in
    if (2 ^ 1024 <=? x)%Z then sign +:+ "Infinity"
    else
      let digits := pretty (shortest (String.length (pretty x)) x) in
      sign +:+ (if (String.length digits <=? 21)%nat then digits else exponent_form digits).

End Num.

(** ** JavaScript values *)

Inductive JsVal : Type :=
| VUndef
| VNull
| VBool (b : bool)
| VNum (z : Z)                       (* the Number nearest to an integer *)
| VStr (s : string)
| VArr (l : list JsVal)
| VObj (o : gmap string JsVal)       (* a plain object, as JSON.parse or a literal builds it *)
| VFile (name : string).             (* a File entry of a multipart form *)

(** Truthiness, as [if (v)], [!v], [a && b] and [a || b] test it. *)
Definition truthy (v : JsVal) : bool :=
  match v with
  | VUndef | VNull => false
  | VBool b => b
  | VNum z => negb (z =? 0)%Z
  | VStr s => negb (Str.is_empty s)
  | VArr _ | VObj _ | VFile _ => true
  end.

(** [a && b] and [a || b] on operands that are already evaluated. *)
Definition js_and (a b : JsVal) : JsVal := if truthy a then b else a.
Definition js_or (a b : JsVal) : JsVal := if truthy a then a else b.

(** [v === 'lit']. *)
Definition strict_eq_str (v : JsVal) (lit : string) : bool :=
  match v with
  | VStr s => String.eqb s lit
  | _ => false
  end.

(** The own enumerable properties an object spread [{...v}] copies; a
    string is spread by code unit. *)
Fixpoint indexed (i : nat) (l : list JsVal) : gmap string JsVal :=
  match l with
  | [] => ∅
  | x :: l' => <[pretty i := x]> (indexed (S i) l')
  end.

Definition chars (s : string) : list JsVal :=
  map (fun u => VStr (Str.of_code_unit u)) (Str.code_units s).

Definition own_props (v : JsVal) : gmap string JsVal :=
  match v with
  | VObj o => o
  | VArr l => indexed 0 l
  | VStr s => indexed 0 (chars s)
  | _ => ∅
  end.

(** An object literal of spreads [{ ...a, ...b }]: the properties of each
    part are copied in turn onto a fresh object, so that a later part
    overwrites an earlier one. *)
Definition object_spread (parts : list (gmap string JsVal)) : gmap string JsVal :=
  fold_left (fun obj part => part ∪ obj) parts ∅.

(** ** Exceptions *)

(** A thrown [Error]: the handler only ever reads its [message].  The
    kinds of error differ in name only. *)
Record JsError : Type := mkError { message : string }.

Abbreviation TypeError := mkError (only parsing).
Abbreviation SyntaxError := mkError (only parsing).
Abbreviation RestException := mkError (only parsing).

Inductive Result (A : Type) : Type :=
| Ok (a : A)
| Throw (e : JsError).
Arguments Ok {A} a.
Arguments Throw {A} e.

#[global] Instance Result_ret : MRet Result := @Ok.
#[global] Instance Result_bind : MBind Result := λ A B f m,
  match m with
  | Ok a => f a
  | Throw e => Throw e
  end.

(** [try { body } catch (e) { handler e }]. *)
Definition try_catch {A} (body : Result A) (handler : JsError → Result A) : Result A :=
  match body with
  | Ok a => Ok a
  | Throw e => handler e
  end.

(** [obj.key].  Reading a property of [null] or [undefined] throws; the
    keys the handler reads (action, phoneNumber, CallSid, ...) name no
    built-in property, so on anything but a plain object the read is
    [undefined]. *)
Definition get_prop (obj : JsVal) (key : string) : Result JsVal :=
  match obj with
  | VUndef =>
      Throw (TypeError ("Cannot read properties of undefined (reading '" +:+ key +:+ "')"))
  | VNull =>
      Throw (TypeError ("Cannot read properties of null (reading '" +:+ key +:+ "')"))
  | VObj o => Ok (default VUndef (o !! key))
  | _ => Ok VUndef
  end.

(** [recv.startsWith(p)]: only strings have the method. *)
Definition call_startsWith (expr : string) (recv : JsVal) (p : string) : Result bool :=
  match recv with
  | VStr s => Ok (Str.startsWith s p)
  | VUndef =>
      Throw (TypeError "Cannot read properties of undefined (reading 'startsWith')")
  | VNull =>
      Throw (TypeError "Cannot read properties of null (reading 'startsWith')")
  | _ => Throw (TypeError (expr +:+ ".startsWith is not a function"))
  end.

(** [recv.includes(x)]: strings (substring) and arrays (membership) have it. *)
Definition call_includes (expr : string) (recv : JsVal) (x : string) : Result bool :=
  match recv with
  | VStr s => Ok (Str.includes s x)
  | VArr l => Ok (existsb (fun e => strict_eq_str e x) l)
  | VUndef =>
      Throw (TypeError "Cannot read properties of undefined (reading 'includes')")
  | VNull =>
      Throw (TypeError "Cannot read properties of null (reading 'includes')")
  | _ => Throw (TypeError (expr +:+ ".includes is not a function"))
  end.

(** [recv?.includes(x)]: [undefined] when the receiver is nullish. *)
Definition call_includes_opt (expr : string) (recv : JsVal) (x : string) : Result JsVal :=
  match recv with
  | VUndef | VNull => Ok VUndef
  | _ => b ← call_includes expr recv x; Ok (VBool b)
  end.

(** String conversion, as a template literal [`${v}`] performs it.  An
    array joins the conversions of its elements.  A plain object answers
    [[object Object]] through the inherited [toString]; when it has an
    own property [toString] (which, read from JSON, is never a function)
    neither that nor the inherited [valueOf] yields a primitive, and the
    conversion throws. *)
Fixpoint to_string (v : JsVal) : Result string :=
  match v with
  | VUndef => Ok "undefined"
  | VNull => Ok "null"
  | VBool true => Ok "true"
  | VBool false => Ok "false"
  | VNum z => Ok (Num.to_string z)
  | VStr s => Ok s
  | VArr l =>
      parts ←
        (fix join (l : list JsVal) : Result (list string) :=
           match l with
           | [] => Ok []
           | x :: l' =>
               s ← match x with
                   | VUndef | VNull => Ok EmptyString
                   | _ => to_string x
                   end;
               rest ← join l';
               Ok (s :: rest)
           end) l;
      Ok (String.concat "," parts)
  | VObj o =>
      match o !! "toString" with
      | Some _ => Throw (TypeError "Cannot convert object to primitive value")
      | None => Ok "[object Object]"
      end
  | VFile _ => Ok "[object File]"
  end.

(** The conversions of a template literal, left to right. *)
Fixpoint to_strings (values : list JsVal) : Result (list string) :=
  match values with
  | [] => Ok []
  | v :: rest => s ← to_string v; ss ← to_strings rest; Ok (s :: ss)
  end.

(** [console.log(`..${a}..${b}..`)]: nothing but the conversions of the
    interpolated values can be observed. *)
Definition log_template (values : list JsVal) : Result unit :=
  _ ← to_strings values; Ok ().

(** ** The platform: URL parameters and the request *)

Module URLSearchParams.

Definition hex_val (c : Ascii.ascii) : option nat :=
  let n := Ascii.nat_of_ascii c in
  if (48 <=? n)%nat && (n <=? 57)%nat then Some (n - 48)%nat
  else if (65 <=? n)%nat && (n <=? 70)%nat then Some (n - 55)%nat
  else if (97 <=? n)%nat && (n <=? 102)%nat then Some (n - 87)%nat
  else None.

Fixpoint plus_to_space (s : string) : string :=
  match s with
  | EmptyString => EmptyString
  | String c s' =>
      String (if Ascii.eqb c "+"%char then " "%char else c) (plus_to_space s')
  end.

(** Percent-decoding: [%XY] with two hexadecimal digits is one byte,
    anything else stands for itself. *)
Fixpoint percent_decode (s : string) : string :=
  match s with
  | EmptyString => EmptyString
  | String c s' =>
      if Ascii.eqb c "%"%char then
        match s' with
        | String h (String l s'') =>
            match hex_val h, hex_val l with
            | Some a, Some b =>
                String (Ascii.ascii_of_nat (16 * a + b)) (percent_decode s'')
            | _, _ => String c (percent_decode s')
            end
        | _ => String c (percent_decode s')
        end
      else String c (percent_decode s')
  end.

(** U+FFFD, the replacement character. *)
Definition replacement : string :=
  String (Ascii.ascii_of_nat 239)
    (String (Ascii.ascii_of_nat 191) (String (Ascii.ascii_of_nat 189) EmptyString)).

(** UTF-8 decoding of the decoded bytes: a byte that continues or
    completes no sequence becomes U+FFFD and decoding resumes at that
    byte.  [needed] bytes are awaited, the next one between [lower] and
    [upper]; [pending] holds the bytes of the sequence read so far. *)
Fixpoint utf8_decode (needed lower upper : nat) (pending : string) (s : string) : string :=
  match s with
  | EmptyString => match needed with O => EmptyString | S _ => replacement end
  | String c rest =>
      let b := Ascii.nat_of_ascii c in
      let start :=
        if (b <? 128)%nat then String c (utf8_decode 0 128 191 EmptyString rest)
        else if (194 <=? b)%nat && (b <=? 223)%nat then
          utf8_decode 1 128 191 (String c EmptyString) rest
        else if (224 <=? b)%nat && (b <=? 239)%nat then
          utf8_decode 2 (if (b =? 224)%nat then 160 else 128)
            (if (b =? 237)%nat then 159 else 191) (String c EmptyString) rest
        else if (240 <=? b)%nat && (b <=? 244)%nat then
          utf8_decode 3 (if (b =? 240)%nat then 144 else 128)
            (if (b =? 244)%nat then 143 else 191) (String c EmptyString) rest
        else replacement +:+ utf8_decode 0 128 191 EmptyString rest in
      match needed with
      | O => start
      | S awaited =>
          if (lower <=? b)%nat && (b <=? upper)%nat then
            match awaited with
            | O => pending +:+ String c (utf8_decode 0 128 191 EmptyString rest)
            | S _ => utf8_decode awaited 128 191 (pending +:+ String c EmptyString) rest
            end
          else replacement +:+ start
      end
  end.

Definition decode (s : string) : string :=
  utf8_decode 0 128 191 EmptyString (percent_decode (plus_to_space s)).

Definition parse_pair (piece : string) : string * string :=
  match Str.cut_at "="%char piece with
  | Some (name, value) => (decode name, decode value)
  | None => (decode piece, EmptyString)
  end.

(** The entries of an application/x-www-form-urlencoded text, in order. *)
Definition urlencoded (text : string) : list (string * string) :=
  map parse_pair
    (filter (fun piece => Str.is_empty piece = false) (Str.split_on "&"%char text)).

(** [new URLSearchParams(text)]: a leading [?] is dropped.  The
    constructor never throws. *)
Definition parse (text : string) : list (string * string) :=
  urlencoded
    match text with
    | String c rest => if Ascii.eqb c "?"%char then rest else text
    | EmptyString => text
    end.

(** [params.get(name)]: the first value under [name], else [null]. *)
Fixpoint get (params : list (string * string)) (name : string) : JsVal :=
  match params with
  | [] => VNull
  | (k, v) :: rest => if String.eqb k name then VStr v else get rest name
  end.

End URLSearchParams.

(** [params.forEach((value, key) => { obj[key] = value })]: the entries
    are assigned in order, a later one overwriting an earlier one. *)
Definition assign_all (entries : list (string * JsVal)) (obj : gmap string JsVal)
  : gmap string JsVal :=
  fold_left (fun acc kv => <[kv.1 := kv.2]> acc) entries obj.

Definition as_values (entries : list (string * string)) : list (string * JsVal) :=
  map (fun kv => (kv.1, VStr kv.2)) entries.

(** An inbound request, as the handler observes it.  The body is a stream
    the platform decodes; the record holds what each reader the handler
    calls returns on this request's body. *)
Record Request : Type := {
  method : string;                                  (* req.method *)
  searchParams : list (string * string);            (* new URL(req.url).searchParams *)
  content_type : option string;                     (* req.headers.get('content-type') *)
  body_text : Result string;                        (* await reqClone.text(), as the first read *)
  body_JSON : Result JsVal;                         (* JSON.parse of that text *)
  body_formData : Result (list (string * JsVal));   (* await reqClone.formData(): its entries *)
  body_text_again : Result string                   (* await reqClone.text() once formData() has rejected *)
}.

(** [await reqClone.json()]: the body is read as text and parsed. *)
Definition clone_json (req : Request) : Result JsVal :=
  _ ← body_text req; body_JSON req.

(** ** Request normalisation (the body-parsing block of [serve]) *)

Definition parse_body (req : Request) : Result JsVal :=
  let requestData := VObj ∅ in
  let contentType := default EmptyString (content_type req) in
  if Str.includes contentType "application/json" then
    try_catch (clone_json req) (fun e => Ok requestData)
  else if Str.includes contentType "application/x-www-form-urlencoded"
          || Str.includes contentType "multipart/form-data" then
    try_catch
      (formData ← body_formData req;
       let formParams := assign_all formData ∅ in
       Ok (VObj formParams))
      (fun e =>
         try_catch
           (text ← body_text_again req;
            let urlParams := URLSearchParams.parse text in
            Ok (VObj (assign_all (as_values urlParams) ∅)))
           (fun textError => Ok requestData))
  else
    try_catch
      (text ← body_text req;
       if negb (Str.trim_is_empty text) then
         try_catch
           (body_JSON req)
           (fun e =>
              let params := URLSearchParams.parse text in
              Ok (VObj (assign_all (as_values params) ∅)))
       else Ok requestData)
      (fun e => Ok requestData).

(** ** Voice markup (the provider library's TwiML builder)

    The builder keeps the document as a tree and validates every text
    and attribute value as it is added: a character that XML 1.0
    forbids makes the call throw. *)

Module TwiML.

Inductive Node : Type :=
| Characters (text : string)         (* twiml.dial(attrs, n): text content *)
| Number (phoneNumber : string).     (* dial.number(n): a <Number> child *)

Inductive Verb : Type :=
| Say (text : string)
| Dial (attributes : list (string * string)) (children : list Node)
| Pause (attributes : list (string * string))
| Hangup.

(** [new twilio.twiml.VoiceResponse()] is the empty list; each builder
    call appends one verb. *)
Definition VoiceResponse : Type := list Verb.

Fixpoint escape_text (s : string) : string :=
  match s with
  | EmptyString => EmptyString
  | String c s' =>
      (if Ascii.eqb c "&"%char then "&amp;"
       else if Ascii.eqb c "<"%char then "&lt;"
       else if Ascii.eqb c ">"%char then "&gt;"
       else if (Ascii.nat_of_ascii c =? 13)%nat then "&#xD;"
       else String c EmptyString) +:+ escape_text s'
  end.

Fixpoint escape_attribute (s : string) : string :=
  match s with
  | EmptyString => EmptyString
  | String c s' =>
      (if Ascii.eqb c "&"%char then "&amp;"
       else if Ascii.eqb c "<"%char then "&lt;"
       else if (Ascii.nat_of_ascii c =? 34)%nat then "&quot;"
       else if (Ascii.nat_of_ascii c =? 9)%nat then "&#x9;"
       else if (Ascii.nat_of_ascii c =? 10)%nat then "&#xA;"
       else if (Ascii.nat_of_ascii c =? 13)%nat then "&#xD;"
       else String c EmptyString) +:+ escape_attribute s'
  end.

(** *** Validation

    The code units XML 1.0 forbids: the C0 controls other than tab, line
    feed and carriage return, U+FFFE, U+FFFF, and a surrogate that is not
    part of a pair. *)
Definition is_high (u : Z) : bool := (55296 <=? u)%Z && (u <=? 56319)%Z.
Definition is_low (u : Z) : bool := (56320 <=? u)%Z && (u <=? 57343)%Z.

Definition forbidden (u : Z) : bool :=
  (u <=? 8)%Z || (u =? 11)%Z || (u =? 12)%Z || ((14 <=? u)%Z && (u <=? 31)%Z)
  || (u =? 65534)%Z || (u =? 65535)%Z.

(** Where the builder's pattern first matches: at a forbidden unit, at a
    high surrogate that no low one follows, at a unit other than a high
    surrogate that a low one follows, or at a low surrogate that opens
    the text. *)
Fixpoint illegal_index (i : nat) (opening : bool) (units : list Z) : option nat :=
  match units with
  | [] => None
  | u :: rest =>
      let low_follows := match rest with next :: _ => is_low next | [] => false end in
      if forbidden u
         || (is_high u && negb low_follows)
         || (negb (is_high u) && low_follows)
         || (opening && is_low u)
      then Some i
      else illegal_index (S i) false rest
  end.

Definition legal (str : string) : bool :=
  match illegal_index 0 true (Str.code_units str) with
  | None => true
  | Some _ => false
  end.

Definition assertLegalChar (str : string) : Result string :=
  match illegal_index 0 true (Str.code_units str) with
  | None => Ok str
  | Some i =>
      Throw (mkError ("Invalid character in string: " +:+ str +:+ " at index " +:+ pretty i))
  end.

(** The text of an element and the value of an attribute are escaped,
    then checked. *)
Definition text (val : string) : Result string := assertLegalChar (escape_text val).
Definition attValue (val : string) : Result string := assertLegalChar (escape_attribute val).

Fixpoint attributes (attrs : list (string * string)) : Result unit :=
  match attrs with
  | [] => Ok ()
  | kv :: rest => _ ← attValue kv.2; attributes rest
  end.

(** *** The builder calls *)

(** [twiml.say(message)]. *)
Definition say (twiml : VoiceResponse) (message : string) : Result VoiceResponse :=
  _ ← text message; Ok (twiml ++ [Say message]).

(** [twiml.dial(attrs)] and [twiml.dial(attrs, number)]: the new element
    is returned with the document, as its position in it. *)
Definition dial (twiml : VoiceResponse) (attrs : list (string * string))
  (number : option string) : Result (VoiceResponse * nat) :=
  _ ← attributes attrs;
  children ← match number with
             | Some n => _ ← text n; Ok [Characters n]
             | None => Ok []
             end;
  Ok (twiml ++ [Dial attrs children], length twiml).

Definition add_child (child : Node) (v : Verb) : Verb :=
  match v with
  | Dial attrs children => Dial attrs (children ++ [child])
  | _ => v
  end.

(** [dial.number(phoneNumber)], for the element [dial] of [twiml]. *)
Definition number (twiml : VoiceResponse) (dial : nat) (phoneNumber : string)
  : Result VoiceResponse :=
  _ ← text phoneNumber; Ok (alter (add_child (Number phoneNumber)) dial twiml).

(** [twiml.pause(attrs)] and [twiml.hangup()]. *)
Definition pause (twiml : VoiceResponse) (attrs : list (string * string))
  : Result VoiceResponse :=
  _ ← attributes attrs; Ok (twiml ++ [Pause attrs]).

Definition hangup (twiml : VoiceResponse) : Result VoiceResponse :=
  Ok (twiml ++ [Hangup]).

(** *** Printing *)

Definition print_attribute (kv : string * string) : string :=
  " " +:+ kv.1 +:+ "=" +:+ Str.dquote +:+ escape_attribute kv.2 +:+ Str.dquote.

Definition print_attributes (attrs : list (string * string)) : string :=
  String.concat EmptyString (map print_attribute attrs).

Definition print_node (n : Node) : string :=
  match n with
  | Characters t => escape_text t
  | Number n => "<Number>" +:+ escape_text n +:+ "</Number>"
  end.

Definition print_verb (v : Verb) : string :=
  match v with
  | Say text => "<Say>" +:+ escape_text text +:+ "</Say>"
  | Dial attrs [] => "<Dial" +:+ print_attributes attrs +:+ "/>"
  | Dial attrs children =>
      "<Dial" +:+ print_attributes attrs +:+ ">"
        +:+ String.concat EmptyString (map print_node children) +:+ "</Dial>"
  | Pause attrs => "<Pause" +:+ print_attributes attrs +:+ "/>"
  | Hangup => "<Hangup/>"
  end.

Definition prolog : string :=
  "<?xml version=" +:+ Str.dquote +:+ "1.0" +:+ Str.dquote
    +:+ " encoding=" +:+ Str.dquote +:+ "UTF-8" +:+ Str.dquote +:+ "?>".

(** [twiml.toString()]. *)
Definition toString (twiml : VoiceResponse) : string :=
  prolog +:+
  match twiml with
  | [] => "<Response/>"
  | _ => "<Response>" +:+ String.concat EmptyString (map print_verb twiml) +:+ "</Response>"
  end.

End TwiML.

(** ** A checker for well-formed markup documents

    The fragment of XML that voice markup uses: an optional XML
    declaration, then exactly one root element; elements are properly
    nested, attribute values are quoted, and [<] and a bare [&] appear
    neither in character data nor in attribute values. *)

Module Xml.

Definition is_name_char (c : Ascii.ascii) : bool :=
  let n := Ascii.nat_of_ascii c in
  ((48 <=? n)%nat && (n <=? 57)%nat)
  || ((65 <=? n)%nat && (n <=? 90)%nat)
  || ((97 <=? n)%nat && (n <=? 122)%nat).

Definition name_ok (s : string) : bool :=
  negb (Str.is_empty s) && forallb is_name_char (String.list_ascii_of_string s).

Definition entity_ok (name : string) : bool :=
  negb (Str.is_empty name)
  && forallb (fun c => is_name_char c || Ascii.eqb c "#"%char)
       (String.list_ascii_of_string name).

(** Character data or an attribute value: no [<], and every [&] opens
    an entity reference that a [;] closes. *)
Fixpoint data_ok (s : string) : bool :=
  match s with
  | EmptyString => true
  | String c s' =>
      negb (Ascii.eqb c "<"%char)
      && (if Ascii.eqb c "&"%char then
            match Str.cut_at ";"%char s' with
            | Some (name, _) => entity_ok name
            | None => false
            end
          else true)
      && data_ok s'
  end.

Fixpoint attributes_ok (fuel : nat) (s : string) : bool :=
  match fuel with
  | O => false
  | S fuel' =>
      match s with
      | EmptyString => true
      | String c s1 =>
          Ascii.eqb c " "%char &&
          match Str.cut_at "="%char s1 with
          | Some (k, String q s2) =>
              (Ascii.nat_of_ascii q =? 34)%nat && name_ok k &&
              match Str.cut_at (Ascii.ascii_of_nat 34) s2 with
              | Some (v, rest) => data_ok v && attributes_ok fuel' rest
              | None => false
              end
          | _ => false
          end
      end
  end.

(** The tag's name and attributes are well formed; returns the name. *)
Definition tag_ok (t : string) : option string :=
  let (name, attrs) :=
    match Str.cut_at " "%char t with
    | Some (n, a) => (n, String " "%char a)
    | None => (t, EmptyString)
    end in
  if name_ok name && attributes_ok (S (String.length attrs)) attrs
  then Some name else None.

Fixpoint drop_last_slash (t : string) : option string :=
  match t with
  | EmptyString => None
  | String c EmptyString => if Ascii.eqb c "/"%char then Some EmptyString else None
  | String c t' =>
      match drop_last_slash t' with
      | Some r => Some (String c r)
      | None => None
      end
  end.

(** [stack]: the elements still open; [roots]: root elements seen. *)
Fixpoint elements_ok (fuel : nat) (stack : list string) (roots : nat) (s : string) : bool :=
  match fuel with
  | O => false
  | S fuel' =>
      match s with
      | EmptyString =>
          match stack with [] => (roots =? 1)%nat | _ => false end
      | String c s1 =>
          if Ascii.eqb c "<"%char then
            match Str.cut_at ">"%char s1 with
            | None => false
            | Some (String slash name, rest) =>
                if Ascii.eqb slash "/"%char then
                  match stack with
                  | top :: stack' =>
                      String.eqb top name && elements_ok fuel' stack' roots rest
                  | [] => false
                  end
                else
                  let t := String slash name in
                  let roots' := match stack with [] => S roots | _ => roots end in
                  match drop_last_slash t with
                  | Some t' =>
                      match tag_ok t' with
                      | Some _ => elements_ok fuel' stack roots' rest
                      | None => false
                      end
                  | None =>
                      match tag_ok t with
                      | Some n => elements_ok fuel' (n :: stack) roots' rest
                      | None => false
                      end
                  end
            | Some (EmptyString, _) => false
            end
          else
            match stack with
            | [] => false
            | _ =>
                (if Ascii.eqb c "&"%char then
                   match Str.cut_at ";"%char s1 with
                   | Some (name, _) => entity_ok name
                   | None => false
                   end
                 else true)
                && elements_ok fuel' stack roots s1
            end
      end
  end.

Definition strip_prolog (s : string) : string :=
  if String.prefix "<?xml " s then
    match Str.cut_at ">"%char s with
    | Some (_, rest) => rest
    | None => s
    end
  else s.

Definition well_formed (doc : string) : bool :=
  let s := strip_prolog doc in
  elements_ok (S (String.length s)) [] 0 s.

End Xml.

(** ** The telephony provider and the effect monad *)

Module Call.
(** A call resource, as the provider library returns it. *)
Record Instance : Type := { sid : string; status : string }.
End Call.

Record CreateOptions : Type := {
  twiml : string;
  to : string;
  from : string;
  statusCallback : string
}.

(** One request issued to the provider's call-control API. *)
Inductive ProviderCall : Type :=
| CallsCreate (opts : CreateOptions)   (* client.calls.create(opts) *)
| CallsFetch (callSid : JsVal)         (* client.calls(callSid).fetch() *)
| CallsUpdate (callSid : JsVal)        (* client.calls(callSid).update({ status: 'completed' }) *)
| CallsList.                           (* client.calls.list({ status: 'in-progress' }) *)

Definition Log : Type := list ProviderCall.

(** The provider, as the handler observes it: how it answers each request,
    given the requests issued before.  An update's answer comes with the
    time at which its promise settles. *)
Record Provider : Type := {
  twilio_init : string → string → Result unit;     (* twilio(accountSid, authToken) *)
  create_answer : Log → CreateOptions → Result Call.Instance;
  fetch_answer : Log → JsVal → Result Call.Instance;
  update_answer : Log → JsVal → nat * Result unit;
  list_answer : Log → Result (list Call.Instance)
}.

(** Computations that may throw and that issue provider requests. *)
Definition Eff (A : Type) : Type := Log → Result A * Log.

#[global] Instance Eff_ret : MRet Eff := λ A a log, (Ok a, log).
#[global] Instance Eff_bind : MBind Eff := λ A B f m log,
  match m log with
  | (Ok a, log') => f a log'
  | (Throw e, log') => (Throw e, log')
  end.

Definition lift {A} (r : Result A) : Eff A := λ log, (r, log).

Definition try_catch_eff {A} (body : Eff A) (handler : JsError → Eff A) : Eff A :=
  λ log,
    match body log with
    | (Ok a, log') => (Ok a, log')
    | (Throw e, log') => handler e log'
    end.

Section Client.
Context (client : Provider).

Definition calls_create (opts : CreateOptions) : Eff Call.Instance :=
  λ log, (create_answer client log opts, log ++ [CallsCreate opts]).

Definition calls_fetch (callSid : JsVal) : Eff Call.Instance :=
  λ log, (fetch_answer client log callSid, log ++ [CallsFetch callSid]).

(** Issuing an update returns its promise: the settle time and outcome. *)
Definition calls_update (callSid : JsVal) : Eff (nat * Result unit) :=
  λ log, (Ok (update_answer client log callSid), log ++ [CallsUpdate callSid]).

Definition calls_list : Eff (list Call.Instance) :=
  λ log, (list_answer client log, log ++ [CallsList]).

End Client.

(** [await promise]. *)
Definition await {A} (promise : nat * Result A) : Eff A := lift promise.2.

(** [list.map(f)] for an [f] that issues a request per element. *)
Fixpoint map_eff {A B} (f : A → Eff B) (l : list A) : Eff (list B) :=
  match l with
  | [] => mret []
  | x :: l' => y ← f x; ys ← map_eff f l'; mret (y :: ys)
  end.

(** The rejection that settles first; among equal times, the earlier
    promise of the list. *)
Fixpoint first_rejection {A} (promises : list (nat * Result A)) : option (nat * JsError) :=
  match promises with
  | [] => None
  | (t, Ok _) :: rest => first_rejection rest
  | (t, Throw e) :: rest =>
      match first_rejection rest with
      | Some (t', e') => if (t' <? t)%nat then Some (t', e') else Some (t, e)
      | None => Some (t, e)
      end
  end.

Fixpoint fulfilled {A} (promises : list (nat * Result A)) : list A :=
  match promises with
  | [] => []
  | (_, Ok a) :: rest => a :: fulfilled rest
  | (_, Throw _) :: rest => fulfilled rest
  end.

(** [await Promise.all(promises)]: rejects with the first rejection to
    settle, else fulfils with all the values. *)
Definition Promise_all {A} (promises : list (nat * Result A)) : Eff (list A) :=
  match first_rejection promises with
  | Some (_, e) => lift (Throw e)
  | None => mret (fulfilled promises)
  end.

(** ** Responses *)

Inductive Body : Type :=
| NoBody                                        (* new Response(null, ..) *)
| Text (s : string)                             (* a markup string *)
| JsonText (payload : list (string * JsVal)).   (* JSON.stringify of an object literal *)

Record ResponseInit : Type := {
  init_status : option Z;
  init_headers : list (string * string)
}.

Record Response : Type := {
  status : Z;
  headers : list (string * string);
  body : Body
}.

(** [new Response(body, init)]: the status is 200 unless [init] sets it. *)
Definition Response_new (b : Body) (init : ResponseInit) : Response :=
  {| status := default 200%Z (init_status init);
     headers := init_headers init;
     body := b |}.

(** [JSON.stringify({ k: v, ... })]: a property whose value is
    [undefined] is left out. *)
Definition is_undefined (v : JsVal) : bool :=
  match v with VUndef => true | _ => false end.

Definition JSON_stringify (fields : list (string * JsVal)) : Body :=
  JsonText (filter (fun kv => is_undefined kv.2 = false) fields).

Definition corsHeaders : list (string * string) :=
  [ ("Access-Control-Allow-Origin", "*");
    ("Access-Control-Allow-Headers", "authorization, x-client-info, apikey, content-type");
    ("Access-Control-Allow-Methods", "OPTIONS, POST, GET");
    ("Access-Control-Max-Age", "86400") ].

(** [{ headers: { ...corsHeaders, 'Content-Type': ct } }]. *)
Definition with_content_type (ct : string) : ResponseInit :=
  {| init_status := None; init_headers := corsHeaders ++ [("Content-Type", ct)] |}.

Definition xml_response (markup : string) : Response :=
  Response_new (Text markup) (with_content_type "text/xml").

Definition json_response (fields : list (string * JsVal)) : Response :=
  Response_new (JSON_stringify fields) (with_content_type "application/json").

Definition content_type_of (r : Response) : option string :=
  (λ found, found.2.2) <$> list_find (fun kv => kv.1 = "Content-Type") (headers r).

(** ** Configuration *)

Record Env : Type := {
  TWILIO_ACCOUNT_SID : option string;
  TWILIO_AUTH_TOKEN : option string;
  TWILIO_PHONE_NUMBER : option string
}.

(** A value of [Deno.env.get]: a string, or [undefined]. *)
Definition env_value (v : option string) : JsVal :=
  match v with Some s => VStr s | None => VUndef end.

Definition CONFERENCE_ROOM_PREFIX : string := "Conference_Room_".
Definition DEFAULT_TIMEOUT : Z := 20.

(** [debugTwiML(twiml)]: the markup text; a failure of the printer is
    rethrown. *)
Definition debugTwiML (twiml : TwiML.VoiceResponse) : Result string :=
  try_catch
    (let twimlString := TwiML.toString twiml in Ok twimlString)
    (fun err => Throw err).

(** ** Action classification (the heuristics cascade of [serve]) *)

Record Classified : Type := {
  action : JsVal;
  isClientInitiatedCall : JsVal
}.

(** The log lines of a detected status callback that carries a
    CallStatus: the identifier and the status are interpolated, then the
    identifier once more for the statuses no-answer, busy and failed. *)
Definition log_detailed_status (CallSid CallStatus : JsVal) : Result unit :=
  _ ← log_template [CallSid; CallStatus];
  if strict_eq_str CallStatus "no-answer" then log_template [CallSid]
  else if strict_eq_str CallStatus "busy" then log_template [CallSid]
  else if strict_eq_str CallStatus "failed" then log_template [CallSid]
  else Ok ().

Definition classify (url_searchParams : list (string * string)) (requestData : JsVal)
  : Result Classified :=
  let action := URLSearchParams.get url_searchParams "action" in
  (* Once one property of requestData has been read, no later read of it
     can throw: the operands of && and || are read where they are used
     first, except for the two method calls, which stay guarded. *)
  (* If no action in URL, try to get it from the request body *)
  requestData_action ← get_prop requestData "action";
  let action :=
    if negb (truthy action) && truthy requestData_action then requestData_action
    else action in
  (* Special handling for browser client call request *)
  phoneNumber ← get_prop requestData "phoneNumber";
  let action :=
    if negb (truthy action) && truthy phoneNumber then VStr "incomingCall"
    else action in
  (* Check for Twilio status callback *)
  CallSid ← get_prop requestData "CallSid";
  CallStatus ← get_prop requestData "CallStatus";
  CallbackSource ← get_prop requestData "CallbackSource";
  requestData_statusCallback ← get_prop requestData "statusCallback";
  let isStatusCallback :=
    js_and CallSid
      (js_or CallStatus
         (js_or (VBool (strict_eq_str CallbackSource "call-progress-events"))
            (js_or (URLSearchParams.get url_searchParams "statusCallback")
               requestData_statusCallback))) in
  let action := if truthy isStatusCallback then VStr "statusCallback" else action in
  _ ← (if truthy isStatusCallback && truthy CallStatus
       then log_detailed_status CallSid CallStatus
       else Ok ());
  (* Check for conference status callback *)
  ConferenceSid ← get_prop requestData "ConferenceSid";
  StatusCallbackEvent ← get_prop requestData "StatusCallbackEvent";
  isConferenceCallback ←
    (let seen := js_or ConferenceSid (VBool (strict_eq_str action "conferenceStatus")) in
     if truthy seen then Ok seen
     else call_includes_opt "requestData.StatusCallbackEvent?" StatusCallbackEvent "conference");
  let action := if truthy isConferenceCallback then VStr "conferenceStatus" else action in
  (* Check if this is a direct call from browser with no action specified *)
  From ← get_prop requestData "From";
  isClientInitiatedCall ←
    (if truthy From then
       startsWithClient ← call_startsWith "requestData.From" From "client:";
       Ok (js_and (VBool startsWithClient) phoneNumber)
     else Ok From);
  let action := if truthy isClientInitiatedCall then VStr "clientCall" else action in
  Ok {| action := action; isClientInitiatedCall := isClientInitiatedCall |}.

(** ** The handlers *)

(** The phone-number formatting block, written three times in [serve]:
    a number that neither starts with [+] nor holds [client:] becomes
    [+] followed by its digits. *)
Definition formattedPhoneNumber (phoneNumber : JsVal) : Result string :=
  startsWithPlus ← call_startsWith "phoneNumber" phoneNumber "+";
  includesClient ←
    (if startsWithPlus then Ok false
     else call_includes "phoneNumber" phoneNumber "client:");
  match phoneNumber with
  | VStr s =>
      if negb startsWithPlus && negb includesClient
      then Ok ("+" +:+ Str.strip_non_digits s)
      else Ok s
  | _ => Throw (TypeError "phoneNumber.replace is not a function")
  end.

Definition dialStatus_url (leadId : string) : string :=
  "https://imrmboyczebjlbnkgjns.supabase.co/functions/v1/twilio-voice?action=dialStatus&leadId="
    +:+ leadId.

Definition dialer_webhook_url (leadId : string) : string :=
  "https://imrmboyczebjlbnkgjns.supabase.co/functions/v1/dialer-webhook?callId="
    +:+ leadId.

(** [action === 'clientCall' || isClientInitiatedCall]. *)
Definition handle_clientCall (TWILIO_PHONE_NUMBER : string) (requestData : JsVal)
  : Result Response :=
  phoneNumber ← get_prop requestData "phoneNumber";
  requestData_leadId ← get_prop requestData "leadId";
  let leadId := js_or requestData_leadId (VStr "unknown") in
  if negb (truthy phoneNumber) then
    twiml ← TwiML.say [] "No phone number was provided. Please try your call again.";
    Ok (xml_response (TwiML.toString twiml))
  else
    formatted ← formattedPhoneNumber phoneNumber;
    try_catch
      (twiml ← TwiML.say [] "Connecting your call. Please wait.";
       leadId ← to_string leadId;
       '(twiml, dial) ←
         TwiML.dial twiml
           [ ("callerId", TWILIO_PHONE_NUMBER);
             ("timeout", pretty DEFAULT_TIMEOUT);
             ("action", dialStatus_url leadId);
             ("method", "POST") ]
           None;
       twiml ← TwiML.number twiml dial formatted;
       twimlString ← debugTwiML twiml;
       Ok (xml_response twimlString))
      (fun err =>
         twiml ← TwiML.say []
                   "Sorry, there was an error connecting your call. Please try again later.";
         Ok (xml_response (TwiML.toString twiml))).

Definition handle_getConfig (TWILIO_PHONE_NUMBER : string) : Response :=
  json_response
    [ ("twilioPhoneNumber", VStr TWILIO_PHONE_NUMBER); ("success", VBool true) ].

Definition handle_makeCall (client : Provider) (TWILIO_PHONE_NUMBER : string)
  (requestData : JsVal) : Eff Response :=
  phoneNumber ← lift (get_prop requestData "phoneNumber");
  browserClientName ← lift (get_prop requestData "browserClientName");
  leadId ← lift (get_prop requestData "leadId");
  if negb (truthy phoneNumber) then
    mret (json_response
            [ ("success", VBool false); ("error", VStr "Phone number is required") ])
  else
    try_catch_eff
      (_ ← lift (log_template [phoneNumber; VStr TWILIO_PHONE_NUMBER]);
       _ ← lift (log_template [js_or browserClientName (VStr "not provided")]);
       _ ← lift (log_template [js_or leadId (VStr "not provided")]);
       formatted ← lift (formattedPhoneNumber phoneNumber);
       twiml ← lift (TwiML.say [] "Connecting to the phone number. Please wait.");
       '(twiml, dial) ←
         lift (TwiML.dial twiml
                 [ ("callerId", TWILIO_PHONE_NUMBER); ("timeout", pretty DEFAULT_TIMEOUT) ]
                 None);
       twiml ← lift (TwiML.number twiml dial formatted);
       twimlString ← lift (debugTwiML twiml);
       callId ← lift (to_string leadId);
       call ← calls_create client
                {| twiml := twimlString;
                   to := formatted;
                   from := TWILIO_PHONE_NUMBER;
                   statusCallback := dialer_webhook_url callId |};
       mret (json_response
               [ ("success", VBool true);
                 ("callSid", VStr (Call.sid call));
                 ("message", VStr "Direct outbound call placed");
                 ("leadId", leadId) ]))
      (fun error =>
         mret (json_response
                 [ ("success", VBool false);
                   ("error", js_or (VStr (message error)) (VStr "Failed to make call")) ])).

(** The merged parameters of a status callback: the URL query
    parameters, then [{ ...callbackData, ...requestData }]. *)
Definition callbackData (url_searchParams : list (string * string)) (requestData : JsVal)
  : gmap string JsVal :=
  let callbackData := assign_all (as_values url_searchParams) ∅ in
  object_spread [callbackData; own_props requestData].

(** [obj.key] on a plain object: the value, or [undefined]. *)
Definition field (o : gmap string JsVal) (key : string) : JsVal :=
  default VUndef (o !! key).

Definition handle_statusCallback (url_searchParams : list (string * string))
  (requestData : JsVal) : Result Response :=
  let callbackData := callbackData url_searchParams requestData in
  let callStatus := field callbackData "CallStatus" in
  let callSid := field callbackData "CallSid" in
  let leadId :=
    js_or (field callbackData "leadId") (URLSearchParams.get url_searchParams "leadId") in
  _ ← log_template [callSid; callStatus; js_or leadId (VStr "unknown")];
  let twimlResponse : TwiML.VoiceResponse := [] in
  twimlResponse ←
    (if strict_eq_str callStatus "completed"
     then TwiML.say twimlResponse "Thank you for using our service. Goodbye."
     else Ok twimlResponse);
  Ok (xml_response (TwiML.toString twimlResponse)).

Definition handle_dialStatus (requestData : JsVal) : Result Response :=
  dialCallStatus ← get_prop requestData "DialCallStatus";
  requestData_callId ← get_prop requestData "callId";
  requestData_leadId ← get_prop requestData "leadId";
  let callId := js_or requestData_callId (js_or requestData_leadId (VStr "unknown")) in
  let twiml : TwiML.VoiceResponse := [] in
  twiml ←
    (if strict_eq_str dialCallStatus "completed" then
       TwiML.say twiml "The call has ended. Thank you for using our service."
     else if strict_eq_str dialCallStatus "busy" then
       twiml ← TwiML.say twiml "The number you called is busy. Please try again later.";
       _ ← log_template [callId];
       Ok twiml
     else if strict_eq_str dialCallStatus "no-answer" then
       twiml ← TwiML.say twiml "There was no answer. Please try again later.";
       _ ← log_template [callId];
       Ok twiml
     else if strict_eq_str dialCallStatus "failed" then
       TwiML.say twiml "The call failed to connect. Please check the number and try again."
     else
       shown ← to_string (js_or dialCallStatus (VStr "unknown"));
       TwiML.say twiml ("Call status is " +:+ shown +:+ ". Goodbye."));
  Ok (xml_response (TwiML.toString twiml)).

Definition handle_checkStatus (client : Provider) (requestData : JsVal) : Eff Response :=
  callSid ← lift (get_prop requestData "callSid");
  if negb (truthy callSid) then
    mret (json_response
            [ ("success", VBool false);
              ("error", VStr "Call SID is required to check call status") ])
  else
    try_catch_eff
      (_ ← lift (log_template [callSid]);
       if strict_eq_str callSid "pending-sid" || strict_eq_str callSid "browser-call" then
         mret (json_response [ ("success", VBool true); ("status", VStr "pending") ])
       else
         call ← calls_fetch client callSid;
         _ ← lift (log_template [VStr (Call.status call); callSid]);
         mret (json_response
                 [ ("success", VBool true); ("status", VStr (Call.status call)) ]))
      (fun error =>
         _ ← lift (log_template [callSid]);
         mret (json_response
                 [ ("success", VBool false); ("error", VStr (message error)) ])).

Definition handle_endCall (client : Provider) (requestData : JsVal) : Eff Response :=
  callSid ← lift (get_prop requestData "callSid");
  if negb (truthy callSid) then
    mret (json_response
            [ ("success", VBool false);
              ("error", VStr "Call SID is required to end a call") ])
  else
    try_catch_eff
      (_ ← lift (log_template [callSid]);
       if strict_eq_str callSid "browser-call" then
         mret (json_response
                 [ ("success", VBool true);
                   ("message", VStr "Browser call handling managed client-side") ])
       else
         promise ← calls_update client callSid;
         _ ← await promise;
         mret (json_response [ ("success", VBool true); ("message", VStr "Call ended") ]))
      (fun error =>
         _ ← lift (log_template [callSid]);
         mret (json_response
                 [ ("success", VBool false); ("error", VStr (message error)) ])).

Definition handle_hangupAll (client : Provider) : Eff Response :=
  try_catch_eff
    (callsList ← calls_list client;
     hangupPromises ←
       map_eff (fun call => calls_update client (VStr (Call.sid call))) callsList;
     _ ← Promise_all hangupPromises;
     mret (json_response
             [ ("success", VBool true);
               ("message",
                VStr ("Terminated " +:+ pretty (length callsList) +:+ " active calls")) ]))
    (fun error =>
       mret (json_response
               [ ("success", VBool false);
                 ("error", js_or (VStr (message error)) (VStr "Failed to hang up all calls")) ])).

(** The default response for unknown actions: the action is converted
    for the log line, then for the error text. *)
Definition unknown_action_response (action : JsVal) : Result Response :=
  _ ← log_template [action];
  shown ← to_string action;
  Ok (json_response
        [ ("success", VBool false);
          ("error", VStr ("The requested action " +:+ shown +:+ " is not supported.")) ]).

(** The final [else]: a bare client call, or an unknown action. *)
Definition handle_otherwise (TWILIO_PHONE_NUMBER : string) (action requestData : JsVal)
  : Result Response :=
  From ← get_prop requestData "From";
  isClient ←
    (if truthy From then call_startsWith "requestData.From" From "client:"
     else Ok false);
  if isClient : bool then
    let twiml : TwiML.VoiceResponse := [] in
    phoneNumber ← get_prop requestData "phoneNumber";
    twiml ←
      (if negb (truthy phoneNumber) then
         twiml ← TwiML.say twiml
                   "No phone number was provided for this call. Please specify a phone number to call.";
         twiml ← TwiML.pause twiml [("length", "1")];
         TwiML.hangup twiml
       else
         _ ← log_template [phoneNumber];
         twiml ← TwiML.say twiml "Please wait while we connect your call.";
         formatted ← formattedPhoneNumber phoneNumber;
         '(twiml, _) ←
           TwiML.dial twiml
             [ ("callerId", TWILIO_PHONE_NUMBER); ("timeout", pretty DEFAULT_TIMEOUT) ]
             (Some formatted);
         Ok twiml);
    twimlString ← debugTwiML twiml;
    Ok (xml_response twimlString)
  else unknown_action_response action.

(** ** Dispatch: the body of [serve] after classification *)

(** The text of a configuration value that is set. *)
Definition env_text (v : option string) : string := default EmptyString v.

Definition dispatch (env : Env) (client : Provider)
  (url_searchParams : list (string * string)) (requestData : JsVal) (c : Classified)
  : Eff Response :=
  let action := action c in
  let isClientInitiatedCall := isClientInitiatedCall c in
  let ACCOUNT_SID := env_value (TWILIO_ACCOUNT_SID env) in
  let AUTH_TOKEN := env_value (TWILIO_AUTH_TOKEN env) in
  let PHONE_NUMBER := env_value (TWILIO_PHONE_NUMBER env) in
  (* Ensure we have a caller ID to use *)
  if negb (truthy PHONE_NUMBER) then
    twiml ← lift (TwiML.say []
                    "There was a configuration error. The system is missing a phone number to use as caller ID.");
    mret (xml_response (TwiML.toString twiml))
  else if strict_eq_str action "conferenceStatus" then
    mret (xml_response (TwiML.toString []))
  else if strict_eq_str action "clientCall" || truthy isClientInitiatedCall then
    lift (handle_clientCall (env_text (TWILIO_PHONE_NUMBER env)) requestData)
  else if strict_eq_str action "getConfig" then
    mret (handle_getConfig (env_text (TWILIO_PHONE_NUMBER env)))
  else if negb (truthy ACCOUNT_SID) || negb (truthy AUTH_TOKEN) then
    twiml ← lift (TwiML.say []
                    "There was a configuration error with the Twilio credentials.");
    mret (xml_response (TwiML.toString twiml))
  else
    _ ← lift (twilio_init client (env_text (TWILIO_ACCOUNT_SID env))
                (env_text (TWILIO_AUTH_TOKEN env)));
    if strict_eq_str action "makeCall" then
      handle_makeCall client (env_text (TWILIO_PHONE_NUMBER env)) requestData
    else
      (* action === 'statusCallback' || (!action && requestData.CallSid) *)
      isStatusCallback ←
        lift (if strict_eq_str action "statusCallback" then Ok true
              else if truthy action then Ok false
              else CallSid ← get_prop requestData "CallSid"; Ok (truthy CallSid));
      if isStatusCallback : bool then
        lift (handle_statusCallback url_searchParams requestData)
      else if strict_eq_str action "dialStatus" then
        lift (handle_dialStatus requestData)
      else if strict_eq_str action "checkStatus" then
        handle_checkStatus client requestData
      else if strict_eq_str action "endCall" then
        handle_endCall client requestData
      else if strict_eq_str action "hangupAll" then
        handle_hangupAll client
      else
        lift (handle_otherwise (env_text (TWILIO_PHONE_NUMBER env)) action requestData).

(** ** The top-level error handler and [serve] *)

Definition top_level_catch (error : JsError) : Response :=
  if truthy (VStr (message error)) && Str.includes (message error) "JSON" then
    let twiml : TwiML.VoiceResponse := [] in
    xml_response (TwiML.toString twiml)
  else
    Response_new
      (JSON_stringify
         [ ("success", VBool false);
           ("error", js_or (VStr (message error)) (VStr "An unexpected error occurred")) ])
      {| init_status := Some 200%Z;
         init_headers := corsHeaders ++ [("Content-Type", "application/json")] |}.

Definition preflight_response : Response :=
  Response_new NoBody {| init_status := Some 204%Z; init_headers := corsHeaders |}.

Definition serve (env : Env) (client : Provider) (req : Request) : Eff Response :=
  if String.eqb (method req) "OPTIONS" then mret preflight_response
  else
    try_catch_eff
      (requestData ← lift (parse_body req);
       c ← lift (classify (searchParams req) requestData);
       dispatch env client (searchParams req) requestData c)
      (fun error => mret (top_level_catch error)).

(** * Specification vocabulary *)

(** ** Postconditions of computations

    [returns Q m]: whenever [m] returns a value, it satisfies [Q]. *)

Definition returns_r {A} (Q : A → Prop) (r : Result A) : Prop :=
  match r with
  | Ok a => Q a
  | Throw _ => True
  end.

Definition returns {A} (Q : A → Prop) (m : Eff A) : Prop :=
  ∀ log, returns_r Q (m log).1.


(** ** Vocabulary of the statements *)

(** The two spoken apologies for a missing configuration. *)
Definition phone_number_apology : Response :=
  xml_response
    (TwiML.toString
       [TwiML.Say "There was a configuration error. The system is missing a phone number to use as caller ID."]).

Definition credentials_apology : Response :=
  xml_response
    (TwiML.toString
       [TwiML.Say "There was a configuration error with the Twilio credentials."]).

(** A value a template literal can interpolate: its conversion to a
    string does not throw. *)
Definition converts (v : JsVal) : bool :=
  match to_string v with Ok _ => true | Throw _ => false end.

(** A text the builder accepts as the content of an element, and a
    value it accepts for an attribute: no character XML forbids. *)
Definition speakable (text : string) : bool := TwiML.legal (TwiML.escape_text text).
Definition writable (value : string) : bool := TwiML.legal (TwiML.escape_attribute value).

(** The value of the last occurrence of [key] among URL parameters. *)
Fixpoint last_value (params : list (string * string)) (key : string) : option string :=
  match params with
  | [] => None
  | (k, v) :: rest =>
      match last_value rest key with
      | Some later => Some later
      | None => if String.eqb k key then Some v else None
      end
  end.

(** What a status callback reports under [key]: the body's value, when
    the body is a parameter map that gives one; else the value of the
    key's last occurrence in the URL query; else [undefined]. *)
Definition reported (url_searchParams : list (string * string)) (requestData : JsVal)
  (key : string) : JsVal :=
  let from_url :=
    match last_value url_searchParams key with
    | Some v => VStr v
    | None => VUndef
    end in
  match requestData with
  | VObj o => default from_url (o !! key)
  | _ => from_url
  end.

(** The apology of the client-call handler. *)
Definition sorry_markup : string :=
  TwiML.toString
    [TwiML.Say "Sorry, there was an error connecting your call. Please try again later."].

(** A property name that is no array index: it does not start with a
    digit. *)
Definition names_no_index (key : string) : Prop :=
  match key with
  | EmptyString => True
  | String c _ => Str.is_digit c = false
  end.

(** A key/value parameter map: a plain object. *)
Definition is_object (v : JsVal) : bool :=
  match v with VObj _ => true | _ => false end.

Definition rejects {A} (r : Result A) : Prop :=
  match r with Throw _ => True | Ok _ => False end.

(** No parse strategy of the normaliser succeeds on the request: the JSON
    reader fails on a body declared JSON; the form reader and the text
    re-read both fail on a body declared a form; the body cannot be read
    as text otherwise. *)
Definition no_strategy_succeeds (req : Request) : Prop :=
  let contentType := default EmptyString (content_type req) in
  if Str.includes contentType "application/json" then rejects (clone_json req)
  else if Str.includes contentType "application/x-www-form-urlencoded"
          || Str.includes contentType "multipart/form-data"
  then rejects (body_formData req) ∧ rejects (body_text_again req)
  else rejects (body_text req).

(** The markup of a response, when its body is one. *)
Definition markup_of (r : Response) : option string :=
  match body r with Text s => Some s | _ => None end.

(** A response that is a well-formed markup document. *)
Definition is_markup (r : Response) : Prop :=
  status r = 200%Z ∧ content_type_of r = Some "text/xml" ∧
  ∃ markup, body r = Text markup ∧ Xml.well_formed markup = true.

(** The markup speaks: it holds a [<Say>] element. *)
Definition speaks (markup : string) : bool := Str.includes markup "<Say>".

(** A spoken apology: well-formed markup that speaks. *)
Definition is_spoken_apology (r : Response) : Prop :=
  status r = 200%Z ∧ content_type_of r = Some "text/xml" ∧
  ∃ markup, body r = Text markup ∧ Xml.well_formed markup = true
            ∧ speaks markup = true.

Definition status_200 (r : Response) : Prop := status r = 200%Z.

(** The JSON body [{ success: false, error: shown }]. *)
Definition error_payload (shown : string) : Body :=
  JsonText [ ("success", VBool false); ("error", VStr shown) ].

(** The JSON body [hangupAll] answers with when it reports a count. *)
Definition terminated_payload (count : nat) : Body :=
  JsonText [ ("success", VBool true);
             ("message", VStr ("Terminated " +:+ pretty count +:+ " active calls")) ].

(** The value a string method [includes] can be called on, or a nullish
    one that [?.] skips. *)
Definition includes_callable (v : JsVal) : bool :=
  match v with
  | VUndef | VNull | VStr _ | VArr _ => true
  | _ => false
  end.

(** The promises [handle_hangupAll] collects: one update per listed
    call, issued in order. *)
Fixpoint issued_updates (client : Provider) (log : Log) (calls : list Call.Instance)
  : list (nat * Result unit) :=
  match calls with
  | [] => []
  | call :: rest =>
      let callSid := VStr (Call.sid call) in
      update_answer client log callSid
        :: issued_updates client (log ++ [CallsUpdate callSid]) rest
  end.

Definition terminate_instructions (calls : list Call.Instance) : Log :=
  map (fun call => CallsUpdate (VStr (Call.sid call))) calls.

(** The parameters of a request, normalised and classified. *)
Definition classification (req : Request) : Result (JsVal * Classified) :=
  requestData ← parse_body req;
  c ← classify (searchParams req) requestData;
  Ok (requestData, c).

(** The actions whose handlers call the provider client. *)
Definition needs_provider_client (action : JsVal) : bool :=
  strict_eq_str action "makeCall" || strict_eq_str action "checkStatus"
  || strict_eq_str action "endCall" || strict_eq_str action "hangupAll".

(** A configuration value that is absent: unset, or empty. *)
Definition absent (v : option string) : Prop := truthy (env_value v) = false.

(** The action names [serve] has a branch for. *)
Definition handled_actions : list string :=
  [ "conferenceStatus"; "clientCall"; "getConfig"; "makeCall"; "statusCallback";
    "dialStatus"; "checkStatus"; "endCall"; "hangupAll" ].

Definition is_handled (name : string) : bool :=
  existsb (String.eqb name) handled_actions.

(** A parameter map whose values are all strings, as the decoding of a
    URL-encoded body gives. *)
Definition string_valued (o : gmap string JsVal) : Prop :=
  ∀ key v, o !! key = Some v → ∃ s, v = VStr s.

(** [succeeds m]: whatever was requested before, [m] returns a value:
    it does not throw. *)
Definition succeeds {A} (m : Eff A) : Prop :=
  ∀ log, ∃ a log', m log = (Ok a, log').

(** A configuration value that is present: set, and not empty. *)
Definition present (v : option string) : Prop := truthy (env_value v) = true.

(** [requests P m]: running [m] leaves the requests issued before in
    place and appends requests that satisfy [P], whether [m] returns or
    throws. *)
Definition requests {A} (P : Log → Prop) (m : Eff A) : Prop :=
  ∀ log, ∃ added, (m log).2 = log ++ added ∧ P added.

(** The provider requests an action warrants: none, or one create for
    makeCall, one fetch for checkStatus, one update for endCall, and for
    hangupAll the listing, followed by one update per listed call. *)
Definition allowed_requests (action : JsVal) (added : Log) : Prop :=
  added = []
  ∨ (strict_eq_str action "makeCall" = true ∧ ∃ opts, added = [CallsCreate opts])
  ∨ (strict_eq_str action "checkStatus" = true ∧ ∃ callSid, added = [CallsFetch callSid])
  ∨ (strict_eq_str action "endCall" = true ∧ ∃ callSid, added = [CallsUpdate callSid])
  ∨ (strict_eq_str action "hangupAll" = true
     ∧ (added = [CallsList]
        ∨ ∃ calls, added = CallsList :: terminate_instructions calls)).

(** The shape every answer of the function has: the CORS headers
    followed by the content type; a markup text under text/xml, or under
    application/json a payload with a boolean [success] field, and a
    string [error] field whenever [success] is false. *)
Definition well_shaped (r : Response) : Prop :=
  ∃ ct, headers r = corsHeaders ++ [("Content-Type", ct)]
        ∧ ((ct = "text/xml" ∧ ∃ markup, body r = Text markup)
           ∨ (ct = "application/json"
              ∧ ∃ fields b,
                  body r = JsonText fields
                  ∧ ("success", VBool b) ∈ fields
                  ∧ (b = false → ∃ shown, ("error", VStr shown) ∈ fields))).

(** ** Sample inputs *)

Module Sample.

Definition quoted (s : string) : string := Str.dquote +:+ s +:+ Str.dquote.

Definition obj (fields : list (string * JsVal)) : JsVal := VObj (list_to_map fields).

(** A POST whose body is declared and sent as JSON. *)
Definition json_request (query : list (string * string)) (text : string) (value : JsVal)
  : Request :=
  {| method := "POST";
     searchParams := query;
     content_type := Some "application/json";
     body_text := Ok text;
     body_JSON := Ok value;
     body_formData := Throw (TypeError "Body can not be decoded as form data");
     body_text_again := Throw (TypeError "Body already consumed.") |}.

(** A POST whose body is a URL-encoded form, as the provider sends. *)
Definition form_request (query : list (string * string)) (text : string) : Request :=
  {| method := "POST";
     searchParams := query;
     content_type := Some "application/x-www-form-urlencoded";
     body_text := Ok text;
     body_JSON := Throw (SyntaxError "Unexpected token 'F', is not valid JSON");
     body_formData := Ok (as_values (URLSearchParams.urlencoded text));
     body_text_again := Throw (TypeError "Body already consumed.") |}.

Definition env : Env :=
  {| TWILIO_ACCOUNT_SID := Some "AC0123456789";
     TWILIO_AUTH_TOKEN := Some "secret";
     TWILIO_PHONE_NUMBER := Some "+15550001111" |}.

Definition env_without_phone_number : Env :=
  {| TWILIO_ACCOUNT_SID := Some "AC0123456789";
     TWILIO_AUTH_TOKEN := Some "secret";
     TWILIO_PHONE_NUMBER := None |}.

Definition env_without_credentials : Env :=
  {| TWILIO_ACCOUNT_SID := None;
     TWILIO_AUTH_TOKEN := None;
     TWILIO_PHONE_NUMBER := Some "+15550001111" |}.

Definition three_calls : list Call.Instance :=
  [ {| Call.sid := "CA1"; Call.status := "in-progress" |};
    {| Call.sid := "CA2"; Call.status := "in-progress" |};
    {| Call.sid := "CA3"; Call.status := "in-progress" |} ].

(** A provider with three calls in progress whose second terminate
    instruction fails. *)
Definition provider : Provider :=
  {| twilio_init := λ _ _, Ok ();
     create_answer := λ _ _, Ok {| Call.sid := "CA9"; Call.status := "queued" |};
     fetch_answer := λ _ _, Ok {| Call.sid := "CA1"; Call.status := "ringing" |};
     update_answer := λ _ callSid,
       (0, if strict_eq_str callSid "CA2"
           then Throw (RestException "The requested resource was not found")
           else Ok ());
     list_answer := λ _, Ok three_calls |}.

(** A body declared JSON that is no JSON text. *)
Definition malformed_json_request : Request :=
  {| method := "POST";
     searchParams := [];
     content_type := Some "application/json";
     body_text := Ok "{oops";
     body_JSON := Throw (SyntaxError "Expected property name or '}' in JSON at position 1");
     body_formData := Throw (TypeError "Body can not be decoded as form data");
     body_text_again := Throw (TypeError "Body already consumed.") |}.

(** A provider library that refuses the credentials it is given. *)
Definition provider_refusing_credentials : Provider :=
  {| twilio_init := λ _ _, Throw (mkError "accountSid must start with AC");
     create_answer := create_answer provider;
     fetch_answer := fetch_answer provider;
     update_answer := update_answer provider;
     list_answer := list_answer provider |}.

(** A provider that cannot be reached: every request is rejected. *)
Definition provider_unreachable : Provider :=
  {| twilio_init := λ _ _, Ok ();
     create_answer := λ _ _, Throw (RestException "connect ECONNREFUSED");
     fetch_answer := λ _ _, Throw (RestException "connect ECONNREFUSED");
     update_answer := λ _ _, (0, Throw (RestException "connect ECONNREFUSED"));
     list_answer := λ _, Throw (RestException "connect ECONNREFUSED") |}.

(** A provider with no call in progress. *)
Definition provider_idle : Provider :=
  {| twilio_init := λ _ _, Ok ();
     create_answer := create_answer provider;
     fetch_answer := fetch_answer provider;
     update_answer := λ _ _, (0, Ok ());
     list_answer := λ _, Ok [] |}.

(** [null], sent as JSON. *)
Definition null_request : Request := json_request [] "null" VNull.

(** [From=client:abc&phoneNumber=5551234567], the example of the
    specification. *)
Definition client_call_request : Request :=
  form_request [] "From=client%3Aabc&phoneNumber=5551234567".

(** The same parameters as JSON, with a numeric StatusCallbackEvent. *)
Definition client_call_numeric_event : JsVal :=
  obj [ ("From", VStr "client:abc");
        ("phoneNumber", VStr "5551234567");
        ("StatusCallbackEvent", VNum 1) ].

Definition client_call_numeric_event_request : Request :=
  json_request []
    ("{" +:+ quoted "From" +:+ ":" +:+ quoted "client:abc" +:+ ","
         +:+ quoted "phoneNumber" +:+ ":" +:+ quoted "5551234567" +:+ ","
         +:+ quoted "StatusCallbackEvent" +:+ ":1}")
    client_call_numeric_event.

(** A status callback, sent as JSON, whose lead reference is an object
    with an own property [toString]. *)
Definition status_callback_object_lead : JsVal :=
  obj [ ("CallSid", VStr "CA1");
        ("CallStatus", VStr "completed");
        ("leadId", obj [("toString", VNum 1)]) ].

Definition status_callback_object_lead_request : Request :=
  json_request []
    ("{" +:+ quoted "CallSid" +:+ ":" +:+ quoted "CA1" +:+ ","
         +:+ quoted "CallStatus" +:+ ":" +:+ quoted "completed" +:+ ","
         +:+ quoted "leadId" +:+ ":{" +:+ quoted "toString" +:+ ":1}}")
    status_callback_object_lead.

(** A client call, sent as JSON, whose CallSid is an object with an own
    property [toString]. *)
Definition client_call_object_sid_request : Request :=
  json_request []
    ("{" +:+ quoted "CallSid" +:+ ":{" +:+ quoted "toString" +:+ ":1},"
         +:+ quoted "CallStatus" +:+ ":" +:+ quoted "ringing" +:+ ","
         +:+ quoted "From" +:+ ":" +:+ quoted "client:abc" +:+ ","
         +:+ quoted "phoneNumber" +:+ ":" +:+ quoted "5551234567" +:+ "}")
    (obj [ ("CallSid", obj [("toString", VNum 1)]);
           ("CallStatus", VStr "ringing");
           ("From", VStr "client:abc");
           ("phoneNumber", VStr "5551234567") ]).

End Sample.
(** * Properties *)

(** ** Facts about strings *)

Lemma append_cons (x : ascii) (a b : string) :
  String x a +:+ b = String x (a +:+ b).
Proof. reflexivity. Qed.

Lemma append_assoc (a b c : string) : (a +:+ b) +:+ c = a +:+ (b +:+ c).
Proof.
  induction a as [|x a IH]; [reflexivity|].
  rewrite !append_cons. f_equal. exact IH.
Qed.

Lemma prefix_append (p s : string) : String.prefix p (p +:+ s) = true.
Proof.
  induction p as [|c p IH].
  - destruct s; reflexivity.
  - rewrite append_cons. simpl.
    destruct (Ascii.ascii_dec c c) as [_|[]]; [exact IH | reflexivity].
Qed.

Lemma prefix_split (p s : string) :
  String.prefix p s = true → ∃ rest, s = p +:+ rest.
Proof.
  revert s. induction p as [|c p IH]; intros s H.
  - exists s. reflexivity.
  - destruct s as [|d s]; simpl in H; [discriminate|].
    destruct (Ascii.ascii_dec c d) as [->|]; [|discriminate].
    destruct (IH s H) as [rest ->]. exists rest. reflexivity.
Qed.

Lemma includes_prefix (s sub : string) :
  String.prefix sub s = true → Str.includes s sub = true.
Proof. destruct s; simpl; intros ->; reflexivity. Qed.

Lemma includes_append_l (a s sub : string) :
  Str.includes s sub = true → Str.includes (a +:+ s) sub = true.
Proof.
  intros H. induction a as [|c a IH]; [exact H|].
  rewrite append_cons. simpl. rewrite IH. apply orb_true_r.
Qed.

(** A text includes [sub] exactly when [sub] stands between two texts. *)
Lemma includes_iff (s sub : string) :
  Str.includes s sub = true ↔ ∃ a b, s = a +:+ sub +:+ b.
Proof.
  split.
  - induction s as [|c s IH]; intros H.
    + destruct sub; [|discriminate]. exists EmptyString, EmptyString. reflexivity.
    + change (String.prefix sub (String c s) || Str.includes s sub = true) in H.
      apply orb_true_iff in H as [H|H].
      * apply (prefix_split sub (String c s)) in H as [rest ->].
        exists EmptyString, rest. reflexivity.
      * destruct (IH H) as (a & b & ->). exists (String c a), b. reflexivity.
  - intros (a & b & ->). apply includes_append_l, includes_prefix, prefix_append.
Qed.

Lemma includes_nonempty (s sub : string) :
  Str.is_empty sub = false → Str.includes s sub = true → Str.is_empty s = false.
Proof. destruct s, sub; simpl; intros; congruence. Qed.

Lemma strict_eq_str_true (v : JsVal) (lit : string) :
  strict_eq_str v lit = true ↔ v = VStr lit.
Proof.
  destruct v; simpl; try (split; [discriminate | congruence]).
  rewrite String.eqb_eq. split; congruence.
Qed.

(** ** Rules for postconditions *)

Lemma returns_r_bind {A B} (Q : B → Prop) (m : Result A) (f : A → Result B) :
  (∀ a, returns_r Q (f a)) → returns_r Q (m ≫= f).
Proof. intros H. destruct m as [a|e]; simpl; [apply H | exact I]. Qed.

Lemma returns_r_try_catch {A} (Q : A → Prop) (body : Result A) handler :
  returns_r Q body → (∀ e, returns_r Q (handler e)) →
  returns_r Q (try_catch body handler).
Proof. intros Hb Hh. destruct body as [a|e]; simpl; [exact Hb | apply Hh]. Qed.

Lemma returns_ret {A} (Q : A → Prop) (a : A) : Q a → returns Q (mret a).
Proof. intros H log. exact H. Qed.

Lemma returns_lift {A} (Q : A → Prop) (r : Result A) :
  returns_r Q r → returns Q (lift r).
Proof. intros H log. exact H. Qed.

Lemma returns_bind {A B} (Q : B → Prop) (m : Eff A) (f : A → Eff B) :
  (∀ a, returns Q (f a)) → returns Q (m ≫= f).
Proof.
  intros H log. unfold mbind, Eff_bind.
  destruct (m log) as [[a|e] log']; simpl; [apply H | exact I].
Qed.

Lemma returns_try_catch {A} (Q : A → Prop) (body : Eff A) handler :
  returns Q body → (∀ e, returns Q (handler e)) →
  returns Q (try_catch_eff body handler).
Proof.
  intros Hb Hh log. unfold try_catch_eff. specialize (Hb log).
  destruct (body log) as [[a|e] log']; simpl in *; [exact Hb | apply Hh].
Qed.

(** A [try .. catch] whose handler returns always returns. *)
Lemma try_catch_eff_total {A} (Q : A → Prop) (body : Eff A) (handler : JsError → A) log :
  returns Q body → (∀ e, Q (handler e)) →
  ∃ a log', try_catch_eff body (fun e => mret (handler e)) log = (Ok a, log') ∧ Q a.
Proof.
  intros Hb Hh. unfold try_catch_eff. specialize (Hb log).
  destruct (body log) as [[a|e] log']; simpl in *; eauto.
Qed.

(** ** Request normalisation *)

(** C4 (as the code has it).  On every request the normaliser returns a
    value and throws nothing.  The value is a key/value map, or else it is
    the very value the JSON reader decoded (which need not be a map); and
    it is the empty map when no parse strategy succeeds. *)
Theorem parse_body_never_throws (req : Request) :
  ∃ requestData,
    parse_body req = Ok requestData
    ∧ (is_object requestData = true ∨ body_JSON req = Ok requestData)
    ∧ (no_strategy_succeeds req → requestData = VObj ∅).
Proof.
  unfold parse_body, no_strategy_succeeds, clone_json.
  destruct (Str.includes _ "application/json").
  - destruct (body_text req) as [text|e]; simpl.
    + destruct (body_JSON req) as [v|e]; simpl.
      * exists v. split; [reflexivity|]. split; [now right | intros []].
      * exists (VObj ∅). repeat split. now left.
    + exists (VObj ∅). repeat split. now left.
  - destruct (_ || _).
    + destruct (body_formData req) as [formData|e]; simpl.
      * eexists. split; [reflexivity|]. split; [now left | intros [[] _]].
      * destruct (body_text_again req) as [text|e']; simpl.
        -- eexists. split; [reflexivity|]. split; [now left | intros [_ []]].
        -- exists (VObj ∅). repeat split. now left.
    + destruct (body_text req) as [text|e]; simpl.
      * destruct (Str.trim_is_empty text); simpl.
        -- exists (VObj ∅). split; [reflexivity|]. split; [now left | intros []].
        -- destruct (body_JSON req) as [v|e]; simpl.
           ++ exists v. split; [reflexivity|]. split; [now right | intros []].
           ++ eexists. split; [reflexivity|]. split; [now left | intros []].
      * exists (VObj ∅). repeat split. now left.
Qed.

Lemma parse_body_never_throws_witness :
  parse_body Sample.malformed_json_request = Ok (VObj ∅).
Proof.
  destruct (parse_body_never_throws Sample.malformed_json_request)
    as (requestData & Hparse & _ & Hempty).
  rewrite Hparse. f_equal. apply Hempty. exact I.
Defined.

(** C4, the claim as stated fails: a JSON body [null] is normalised to
    [null], which is no key/value map. *)
Lemma parse_body_null_not_a_map :
  parse_body Sample.null_request = Ok VNull
  ∧ ¬ ∃ o, parse_body Sample.null_request = Ok (VObj o).
Proof. split; [reflexivity | intros [o H]; discriminate H]. Qed.

(** ** The merged parameters of a status callback *)

Lemma assign_all_other (entries : list (string * JsVal)) (obj : gmap string JsVal)
  (key : string) :
  key ∉ map fst entries → assign_all entries obj !! key = obj !! key.
Proof.
  revert obj. induction entries as [|[k v] rest IH]; intros obj Hnot; [reflexivity|].
  simpl in *. apply not_elem_of_cons in Hnot as [Hne Hrest].
  unfold assign_all in *. simpl. rewrite IH by exact Hrest.
  now apply lookup_insert_ne.
Qed.

(** After the assignments, a key among the entries holds one of their values. *)
Lemma assign_all_lookup (entries : list (string * JsVal)) (obj : gmap string JsVal)
  (key : string) :
  key ∈ map fst entries →
  ∃ v, assign_all entries obj !! key = Some v ∧ (key, v) ∈ entries.
Proof.
  revert obj. induction entries as [|[k v] rest IH]; intros obj Hin.
  - inversion Hin.
  - destruct (decide (key ∈ map fst rest)) as [Hrest|Hrest].
    + destruct (IH (<[k:=v]> obj) Hrest) as (w & Hw & Hmem).
      exists w. split; [exact Hw | now apply list_elem_of_further].
    + simpl in Hin. apply elem_of_cons in Hin as [->|Hin]; [|contradiction].
      exists v. split; [|apply list_elem_of_here].
      unfold assign_all. simpl.
      change (assign_all rest (<[k:=v]> obj) !! k = Some v).
      rewrite assign_all_other by exact Hrest. apply lookup_insert_eq.
Qed.

(** C9.  In the merged map of the status callback handler, a key given
    both in the URL query and in the body carries the body's value: the
    URL parameters alone would give one of the URL's values, and the
    spread of the body, coming second, replaces it. *)
Theorem callbackData_body_wins
  (url_searchParams : list (string * string)) (requestData : JsVal)
  (key : string) (fromBody : JsVal) :
  key ∈ map fst url_searchParams →
  own_props requestData !! key = Some fromBody →
  (∃ fromUrl, assign_all (as_values url_searchParams) ∅ !! key = Some (VStr fromUrl)
              ∧ (key, fromUrl) ∈ url_searchParams)
  ∧ callbackData url_searchParams requestData !! key = Some fromBody.
Proof.
  intros Hurl Hbody. split.
  - destruct (assign_all_lookup (as_values url_searchParams) ∅ key) as (v & Hv & Hmem).
    + unfold as_values. rewrite map_map. exact Hurl.
    + unfold as_values in Hmem. apply list_elem_of_fmap in Hmem as ([k u] & Heq & Hmem).
      simpl in Heq. injection Heq as -> ->. exists u. split; assumption.
  - unfold callbackData, object_spread. simpl. now apply lookup_union_Some_l.
Qed.

Lemma callbackData_body_wins_witness :
  (∃ fromUrl,
     assign_all (as_values [("CallStatus", "ringing")]) ∅ !! "CallStatus"
       = Some (VStr fromUrl)
     ∧ ("CallStatus", fromUrl) ∈ [("CallStatus", "ringing")])
  ∧ callbackData [("CallStatus", "ringing")]
      (Sample.obj [("CallStatus", VStr "completed")]) !! "CallStatus"
    = Some (VStr "completed").
Proof.
  apply (callbackData_body_wins [("CallStatus", "ringing")] _ "CallStatus").
  - simpl. apply list_elem_of_here.
  - reflexivity.
Defined.

(** ** The top-level error handler *)

(** C10 (as the code has it).  A caught error whose message contains
    [JSON] is answered with an empty well-formed markup document, typed
    text/xml.  Every other one is answered with the JSON body
    [{success:false, error}], where [error] is the message, or the text
    [An unexpected error occurred] when the message is empty.  The status
    is 200 in both cases. *)
Theorem top_level_catch_response (error : JsError) :
  status (top_level_catch error) = 200%Z
  ∧ (if Str.includes (message error) "JSON" then
       top_level_catch error = xml_response (TwiML.toString [])
       ∧ is_markup (top_level_catch error)
       ∧ ∃ markup, body (top_level_catch error) = Text markup ∧ speaks markup = false
     else
       content_type_of (top_level_catch error) = Some "application/json"
       ∧ body (top_level_catch error)
         = error_payload (if Str.is_empty (message error)
                          then "An unexpected error occurred"
                          else message error)).
Proof.
  unfold top_level_catch. destruct error as [m]; simpl.
  destruct (Str.includes m "JSON") eqn:Hjson.
  - assert (Str.is_empty m = false) as ->
      by (eapply includes_nonempty; [|exact Hjson]; reflexivity).
    simpl. split; [reflexivity|]. split; [reflexivity|]. split.
    + split; [reflexivity|]. split; [reflexivity|].
      eexists. split; [reflexivity | vm_compute; reflexivity].
    + eexists. split; [reflexivity | vm_compute; reflexivity].
  - rewrite andb_false_r. split; [reflexivity|]. split; [reflexivity|].
    destruct m; reflexivity.
Qed.

(** C10, the claim as stated fails: for an error with an empty message
    the JSON body does not carry the message but a default text. *)
Lemma top_level_catch_empty_message :
  body (top_level_catch (TypeError EmptyString))
    = error_payload "An unexpected error occurred"
  ∧ body (top_level_catch (TypeError EmptyString))
    ≠ error_payload (message (TypeError EmptyString)).
Proof. split; [reflexivity | discriminate]. Qed.


(** ** Conversions and the markup builder *)

Lemma converts_to_string (v : JsVal) :
  converts v = true → ∃ s, to_string v = Ok s.
Proof. unfold converts. destruct (to_string v); [eauto | discriminate]. Qed.

Lemma not_converts_to_string (v : JsVal) :
  converts v = false → ∃ e, to_string v = Throw e.
Proof. unfold converts. destruct (to_string v); [discriminate | eauto]. Qed.

Lemma falsy_converts (v : JsVal) : truthy v = false → converts v = true.
Proof. destruct v as [| |[]| | | | |]; try reflexivity; discriminate. Qed.

Lemma text_speakable (t : string) :
  speakable t = true → TwiML.text t = Ok (TwiML.escape_text t).
Proof.
  unfold speakable, TwiML.legal, TwiML.text, TwiML.assertLegalChar.
  destruct (TwiML.illegal_index _ _ _); [discriminate | reflexivity].
Qed.

Lemma text_unspeakable (t : string) :
  speakable t = false → ∃ e, TwiML.text t = Throw e.
Proof.
  unfold speakable, TwiML.legal, TwiML.text, TwiML.assertLegalChar.
  destruct (TwiML.illegal_index _ _ _); [eauto | discriminate].
Qed.

Lemma attValue_writable (v : string) :
  writable v = true → TwiML.attValue v = Ok (TwiML.escape_attribute v).
Proof.
  unfold writable, TwiML.legal, TwiML.attValue, TwiML.assertLegalChar.
  destruct (TwiML.illegal_index _ _ _); [discriminate | reflexivity].
Qed.

Lemma attValue_unwritable (v : string) :
  writable v = false → ∃ e, TwiML.attValue v = Throw e.
Proof.
  unfold writable, TwiML.legal, TwiML.attValue, TwiML.assertLegalChar.
  destruct (TwiML.illegal_index _ _ _); [eauto | discriminate].
Qed.

(** [twiml.say] on a text the builder accepts. *)
Lemma say_speakable (twiml : TwiML.VoiceResponse) (t : string) :
  speakable t = true → TwiML.say twiml t = Ok (twiml ++ [TwiML.Say t]).
Proof. intros H. unfold TwiML.say. now rewrite (text_speakable t H). Qed.

Lemma say_unspeakable (twiml : TwiML.VoiceResponse) (t : string) :
  speakable t = false → ∃ e, TwiML.say twiml t = Throw e.
Proof.
  intros H. unfold TwiML.say. destruct (text_unspeakable t H) as [e ->]. eauto.
Qed.

(** The constant texts of the handler are accepted. *)
Ltac say_constant :=
  repeat match goal with
         | |- context [TwiML.say ?tw ?t] =>
             rewrite (say_speakable tw t) by (vm_compute; reflexivity)
         end.

(** ** Keys of a spread *)

Lemma pretty_N_go_not_name (x : N) (s key : string) :
  names_no_index key → s ≠ key → pretty_N_go x s ≠ key.
Proof.
  intros Hkey. revert s. induction (N.lt_wf_0 x) as [x _ IH]; intros s Hs.
  assert (x = 0 ∨ 0 < x)%N as [->|Hpos] by lia.
  - now rewrite pretty_N_go_0.
  - rewrite pretty_N_go_step by exact Hpos. apply IH.
    + now apply N.div_lt.
    + destruct key as [|c key]; [discriminate|]. simpl in Hkey.
      intros [= Hc _]. rewrite <- Hc in Hkey.
      unfold pretty_N_char in Hkey. repeat case_match; discriminate Hkey.
Qed.

Lemma pretty_nat_not_name (i : nat) (key : string) :
  names_no_index key → key ≠ EmptyString → pretty i ≠ key.
Proof.
  intros Hkey Hne. unfold pretty, pretty_nat, pretty, pretty_N.
  destruct (decide (N.of_nat i = 0%N)).
  - destruct key as [|c key]; [contradiction|]. simpl in Hkey.
    intros [= <- _]. discriminate Hkey.
  - apply pretty_N_go_not_name; [exact Hkey | congruence].
Qed.

Lemma indexed_name (i : nat) (l : list JsVal) (key : string) :
  names_no_index key → key ≠ EmptyString → indexed i l !! key = None.
Proof.
  intros Hkey Hne. revert i. induction l as [|x l IH]; intros i; simpl.
  - apply lookup_empty.
  - rewrite lookup_insert_ne by (now apply pretty_nat_not_name). apply IH.
Qed.

(** Under a key that is no index, only a plain object has an own
    property. *)
Lemma own_props_name (requestData : JsVal) (key : string) :
  names_no_index key → key ≠ EmptyString →
  own_props requestData !! key
  = match requestData with VObj o => o !! key | _ => None end.
Proof.
  intros Hkey Hne. destruct requestData; simpl;
    try apply lookup_empty; try reflexivity; now apply indexed_name.
Qed.

Lemma assign_all_last_value (params : list (string * string)) (obj : gmap string JsVal)
  (key : string) :
  assign_all (as_values params) obj !! key
  = match last_value params key with
    | Some v => Some (VStr v)
    | None => obj !! key
    end.
Proof.
  revert obj. induction params as [|[k v] rest IH]; intros obj; [reflexivity|].
  change (assign_all (as_values ((k, v) :: rest)) obj)
    with (assign_all (as_values rest) (<[k := VStr v]> obj)).
  rewrite IH. simpl. destruct (last_value rest key); [reflexivity|].
  destruct (String.eqb_spec k key) as [->|Hne].
  - apply lookup_insert_eq.
  - now apply lookup_insert_ne.
Qed.

(** The merged parameters, as the handler builds them, hold what the
    callback reports. *)
Lemma callbackData_reported (url_searchParams : list (string * string))
  (requestData : JsVal) (key : string) :
  names_no_index key → key ≠ EmptyString →
  field (callbackData url_searchParams requestData) key
  = reported url_searchParams requestData key.
Proof.
  intros Hkey Hne. unfold field, callbackData, object_spread, reported. simpl.
  rewrite lookup_union, (own_props_name _ _ Hkey Hne).
  rewrite lookup_union, lookup_empty, assign_all_last_value, lookup_empty.
  destruct requestData as [| | | | | |o|];
    try (destruct (last_value url_searchParams key); reflexivity).
  destruct (o !! key), (last_value url_searchParams key); reflexivity.
Qed.

(** ** Status callbacks *)

Lemma log_template_converts (values : list JsVal) :
  forallb converts values = true → log_template values = Ok ().
Proof.
  unfold log_template. intros H.
  assert (∃ ss, to_strings values = Ok ss) as [ss ->]; [|reflexivity].
  induction values as [|v rest IH]; [eauto|].
  simpl in H. apply andb_true_iff in H as [Hv Hrest].
  destruct (converts_to_string v Hv) as [s Hs]. destruct (IH Hrest) as [ss Hss].
  simpl. rewrite Hs. cbn [mbind Result_bind]. rewrite Hss. eauto.
Qed.

Lemma log_template_throws (values : list JsVal) :
  forallb converts values = false → ∃ e, log_template values = Throw e.
Proof.
  unfold log_template. intros H.
  assert (∃ e, to_strings values = Throw e) as [e ->]; [|eauto].
  induction values as [|v rest IH]; [discriminate|].
  simpl in H. simpl. destruct (converts v) eqn:Hv.
  - destruct (converts_to_string v Hv) as [s ->]. cbn [mbind Result_bind].
    destruct (IH H) as [e ->]. eauto.
  - destruct (not_converts_to_string v Hv) as [e ->]. eauto.
Qed.

(** The handler, in terms of what the callback reports. *)
Lemma handle_statusCallback_reported
  (url_searchParams : list (string * string)) (requestData : JsVal) :
  handle_statusCallback url_searchParams requestData
  = (_ ← log_template
           [ reported url_searchParams requestData "CallSid";
             reported url_searchParams requestData "CallStatus";
             js_or (js_or (reported url_searchParams requestData "leadId")
                      (URLSearchParams.get url_searchParams "leadId"))
               (VStr "unknown") ];
     twimlResponse ←
       (if strict_eq_str (reported url_searchParams requestData "CallStatus") "completed"
        then TwiML.say [] "Thank you for using our service. Goodbye."
        else Ok []);
     Ok (xml_response (TwiML.toString twimlResponse))).
Proof.
  unfold handle_statusCallback. cbv zeta.
  rewrite !callbackData_reported by first [exact eq_refl | discriminate].
  reflexivity.
Qed.

(** C6 (as the code has it).  The status callback handler first logs the
    call identifier, the status and the lead reference it was given.
    When the three can be converted to text, it answers with a
    well-formed markup document, and the document speaks exactly when the
    reported status is [completed]; it then speaks the closing message,
    and is the empty document for every other status.  When one of them
    cannot be converted (an object that has an own [toString] property),
    the handler throws and returns no markup. *)
Theorem handle_statusCallback_speaks_iff_completed
  (url_searchParams : list (string * string)) (requestData : JsVal) :
  let callStatus := reported url_searchParams requestData "CallStatus" in
  let callSid := reported url_searchParams requestData "CallSid" in
  let leadId :=
    js_or (js_or (reported url_searchParams requestData "leadId")
             (URLSearchParams.get url_searchParams "leadId"))
      (VStr "unknown") in
  (converts callSid && converts callStatus && converts leadId = true →
   ∃ response markup,
     handle_statusCallback url_searchParams requestData = Ok response
     ∧ is_markup response
     ∧ body response = Text markup
     ∧ (speaks markup = true ↔ callStatus = VStr "completed")
     ∧ (callStatus = VStr "completed" →
        Str.includes markup "<Say>Thank you for using our service. Goodbye.</Say>" = true)
     ∧ (callStatus ≠ VStr "completed" → markup = TwiML.toString []))
  ∧ (converts callSid && converts callStatus && converts leadId = false →
     rejects (handle_statusCallback url_searchParams requestData)).
Proof.
  intros callStatus callSid leadId.
  rewrite handle_statusCallback_reported. fold callStatus callSid leadId.
  split; intros Hconv.
  - rewrite log_template_converts
      by (cbn [forallb]; rewrite andb_true_r, andb_assoc; exact Hconv).
    cbn [mbind Result_bind]. say_constant.
    destruct (strict_eq_str callStatus "completed") eqn:E; cbn [mbind Result_bind].
    + apply strict_eq_str_true in E.
      eexists _, _. split; [reflexivity|]. split.
      { split; [reflexivity|]. split; [reflexivity|].
        eexists. split; [reflexivity | vm_compute; reflexivity]. }
      split; [reflexivity|]. split; [|split].
      * split; [intros _; exact E | intros _; vm_compute; reflexivity].
      * intros _. vm_compute. reflexivity.
      * intros Hne. contradiction.
    + assert (callStatus ≠ VStr "completed") as Hne.
      { intros H. apply strict_eq_str_true in H. congruence. }
      eexists _, _. split; [reflexivity|]. split.
      { split; [reflexivity|]. split; [reflexivity|].
        eexists. split; [reflexivity | vm_compute; reflexivity]. }
      split; [reflexivity|]. split; [|split].
      * split; [vm_compute; discriminate | intros H; contradiction].
      * intros H. contradiction.
      * intros _. reflexivity.
  - destruct (log_template_throws [callSid; callStatus; leadId]) as [e ->].
    + cbn [forallb]. rewrite andb_true_r, andb_assoc. exact Hconv.
    + exact I.
Qed.

Lemma handle_statusCallback_speaks_iff_completed_witness :
  ∃ response markup,
    handle_statusCallback [("leadId", "42")]
      (Sample.obj [("CallSid", VStr "CA123"); ("CallStatus", VStr "completed")])
    = Ok response
    ∧ body response = Text markup
    ∧ speaks markup = true
    ∧ Str.includes markup "<Say>Thank you for using our service. Goodbye.</Say>" = true.
Proof.
  destruct (proj1 (handle_statusCallback_speaks_iff_completed [("leadId", "42")]
                     (Sample.obj [("CallSid", VStr "CA123");
                                  ("CallStatus", VStr "completed")]))
              eq_refl)
    as (response & markup & Hrun & _ & Hbody & Hiff & Hclosing & _).
  exists response, markup. split; [exact Hrun|]. split; [exact Hbody|]. split.
  - apply Hiff. reflexivity.
  - apply Hclosing. reflexivity.
Defined.

(** C6, the claim as stated fails: a callback classified as
    [statusCallback] whose status is [completed] but whose lead reference
    is an object with an own [toString] property gets no markup.  The log
    line of the handler throws on the lead reference, and the top-level
    handler answers with a JSON error body. *)
Lemma status_callback_without_markup :
  (classification Sample.status_callback_object_lead_request ≫= λ rc, Ok (action rc.2))
  = Ok (VStr "statusCallback")
  ∧ reported [] Sample.status_callback_object_lead "CallStatus" = VStr "completed"
  ∧ serve Sample.env Sample.provider Sample.status_callback_object_lead_request []
    = (Ok (top_level_catch (TypeError "Cannot convert object to primitive value")), [])
  ∧ content_type_of
      (top_level_catch (TypeError "Cannot convert object to primitive value"))
    = Some "application/json"
  ∧ markup_of (top_level_catch (TypeError "Cannot convert object to primitive value"))
    = None.
Proof. repeat split. Qed.

(** ** Sentinel call identifiers *)

(** C8.  [checkStatus] on the sentinel [pending-sid] or [browser-call]
    answers [{success:true, status:"pending"}], and [endCall] on
    [browser-call] answers a success payload; in both cases no request is
    issued to the provider: the log is left as it was. *)
Theorem sentinel_callSid_short_circuits
  (client : Provider) (requestData : JsVal) (log : Log) :
  (get_prop requestData "callSid" = Ok (VStr "pending-sid")
   ∨ get_prop requestData "callSid" = Ok (VStr "browser-call") →
   handle_checkStatus client requestData log
   = (Ok (json_response [ ("success", VBool true); ("status", VStr "pending") ]), log))
  ∧ (get_prop requestData "callSid" = Ok (VStr "browser-call") →
     handle_endCall client requestData log
     = (Ok (json_response
              [ ("success", VBool true);
                ("message", VStr "Browser call handling managed client-side") ]), log)).
Proof.
  split.
  - intros [H|H]; unfold handle_checkStatus, lift, mbind, Eff_bind; rewrite H; reflexivity.
  - intros H. unfold handle_endCall, lift, mbind, Eff_bind. rewrite H. reflexivity.
Qed.

Lemma sentinel_callSid_short_circuits_witness :
  handle_checkStatus Sample.provider (Sample.obj [("callSid", VStr "browser-call")]) []
  = (Ok (json_response [ ("success", VBool true); ("status", VStr "pending") ]), [])
  ∧ handle_endCall Sample.provider (Sample.obj [("callSid", VStr "browser-call")]) []
    = (Ok (json_response
             [ ("success", VBool true);
               ("message", VStr "Browser call handling managed client-side") ]), []).
Proof.
  destruct (sentinel_callSid_short_circuits Sample.provider
              (Sample.obj [("callSid", VStr "browser-call")]) []) as [Hcheck Hend].
  split; [apply Hcheck; right; reflexivity | apply Hend; reflexivity].
Defined.

(** ** Hanging up every call *)

Lemma map_eff_updates (client : Provider) (calls : list Call.Instance) (log : Log) :
  map_eff (fun call => calls_update client (VStr (Call.sid call))) calls log
  = (Ok (issued_updates client log calls), log ++ terminate_instructions calls).
Proof.
  revert log. induction calls as [|call rest IH]; intros log.
  - simpl. unfold mret, Eff_ret. now rewrite app_nil_r.
  - simpl. unfold mbind, Eff_bind, calls_update at 1. rewrite IH.
    unfold mret, Eff_ret. now rewrite <- app_assoc.
Qed.

Lemma first_rejection_none {A} (promises : list (nat * Result A)) :
  first_rejection promises = None ↔ Forall (fun p => ¬ rejects p.2) promises.
Proof.
  induction promises as [|[t [a|e]] rest IH]; simpl.
  - split; [constructor | reflexivity].
  - rewrite IH. split.
    + intros H. constructor; [intros [] | exact H].
    + intros H. now inversion H.
  - split.
    + destruct (first_rejection rest) as [[t' e']|]; [destruct (t' <? t)%nat|]; discriminate.
    + intros H. inversion H as [|? ? Hhead]. simpl in Hhead. now destruct Hhead.
Qed.

Lemma first_rejection_some {A} (promises : list (nat * Result A)) t e :
  first_rejection promises = Some (t, e) → (t, Throw e) ∈ promises.
Proof.
  revert t e. induction promises as [|[t0 [a|e0]] rest IH]; simpl; intros t e H.
  - discriminate.
  - apply list_elem_of_further, IH, H.
  - destruct (first_rejection rest) as [[t' e']|] eqn:E.
    + destruct (t' <? t0)%nat; injection H as <- <-.
      * apply list_elem_of_further, IH. reflexivity.
      * apply list_elem_of_here.
    + injection H as <- <-. apply list_elem_of_here.
Qed.

Lemma first_rejection_earliest {A} (promises : list (nat * Result A)) t e :
  first_rejection promises = Some (t, e) →
  ∀ t' e', (t', Throw e') ∈ promises → (t ≤ t')%nat.
Proof.
  revert t e. induction promises as [|[t0 [a|e0]] rest IH]; simpl; intros t e H t' e' Hin.
  - inversion Hin.
  - apply elem_of_cons in Hin as [Hin|Hin]; [discriminate Hin|]. eapply IH; eassumption.
  - destruct (first_rejection rest) as [[t1 e1]|] eqn:E.
    + specialize (IH t1 e1 eq_refl).
      destruct (Nat.ltb_spec t1 t0) as [Hlt|Hge]; injection H as <- <-;
        apply elem_of_cons in Hin as [Hin|Hin].
      * injection Hin as -> _. lia.
      * eapply IH; eassumption.
      * injection Hin as -> _. lia.
      * specialize (IH _ _ Hin). lia.
    + injection H as <- <-. apply elem_of_cons in Hin as [Hin|Hin].
      * injection Hin as -> _. lia.
      * apply first_rejection_none in E. rewrite Forall_forall in E.
        apply E in Hin. simpl in Hin. now destruct Hin.
Qed.

(** C1 (as the code has it).  When the provider lists N calls, the
    handler issues the N terminate instructions, one per call and in
    order, whatever their outcomes, and returns a response with status
    200 instead of throwing.  The response reports the count N when no
    instruction fails; when some instruction fails it is the failure
    payload [{success:false, error}] carrying the message of the failed
    instruction that settles first (or [Failed to hang up all calls] for
    an empty message). *)
Theorem handle_hangupAll_attempts_every_call
  (client : Provider) (log : Log) (calls : list Call.Instance) :
  list_answer client log = Ok calls →
  let promises := issued_updates client (log ++ [CallsList]) calls in
  ∃ response,
    handle_hangupAll client log
    = (Ok response, log ++ CallsList :: terminate_instructions calls)
    ∧ status response = 200%Z
    ∧ (Forall (fun p => ¬ rejects p.2) promises →
       body response = terminated_payload (length calls))
    ∧ (Exists (fun p => rejects p.2) promises →
       ∃ t e, (t, Throw e) ∈ promises
              ∧ (∀ t' e', (t', Throw e') ∈ promises → (t ≤ t')%nat)
              ∧ body response
                = error_payload (if Str.is_empty (message e)
                                 then "Failed to hang up all calls"
                                 else message e)).
Proof.
  intros Hlist promises.
  unfold handle_hangupAll, try_catch_eff, mbind, Eff_bind, calls_list.
  rewrite Hlist, map_eff_updates. fold promises.
  replace ((log ++ [CallsList]) ++ terminate_instructions calls)
    with (log ++ CallsList :: terminate_instructions calls)
    by (now rewrite <- app_assoc).
  unfold Promise_all. destruct (first_rejection promises) as [[t e]|] eqn:E.
  - eexists. split; [reflexivity|]. split; [reflexivity|]. split.
    + intros Hall. apply first_rejection_none in Hall. congruence.
    + intros _. exists t, e. split; [now apply first_rejection_some|].
      split; [now apply first_rejection_earliest with e|].
      destruct e as [m]. destruct m; reflexivity.
  - eexists. split; [reflexivity|]. split; [reflexivity|]. split.
    + intros _. reflexivity.
    + intros Hex. apply first_rejection_none in E.
      apply Exists_exists in Hex as (p & Hin & Hrej).
      rewrite Forall_forall in E. now apply E in Hin.
Qed.

Lemma handle_hangupAll_attempts_every_call_witness :
  ∃ response,
    handle_hangupAll Sample.provider []
    = (Ok response, [] ++ CallsList :: terminate_instructions Sample.three_calls)
    ∧ status response = 200%Z
    ∧ (Forall (fun p => ¬ rejects p.2)
         (issued_updates Sample.provider ([] ++ [CallsList]) Sample.three_calls) →
       body response = terminated_payload (length Sample.three_calls))
    ∧ (Exists (fun p => rejects p.2)
         (issued_updates Sample.provider ([] ++ [CallsList]) Sample.three_calls) →
       ∃ t e, (t, Throw e)
                ∈ issued_updates Sample.provider ([] ++ [CallsList]) Sample.three_calls
              ∧ (∀ t' e',
                   (t', Throw e')
                     ∈ issued_updates Sample.provider ([] ++ [CallsList])
                         Sample.three_calls →
                   (t ≤ t')%nat)
              ∧ body response
                = error_payload (if Str.is_empty (message e)
                                 then "Failed to hang up all calls"
                                 else message e)).
Proof.
  apply (handle_hangupAll_attempts_every_call Sample.provider [] Sample.three_calls).
  reflexivity.
Defined.

(** C1, the claim as stated fails: with three calls in progress and a
    failing second terminate instruction, all three instructions are
    issued, but the response is the failure payload, not a success
    payload reporting the count 3. *)
Lemma handle_hangupAll_second_fails :
  handle_hangupAll Sample.provider []
  = (Ok (json_response
           [ ("success", VBool false);
             ("error", VStr "The requested resource was not found") ]),
     [ CallsList; CallsUpdate (VStr "CA1"); CallsUpdate (VStr "CA2");
       CallsUpdate (VStr "CA3") ])
  ∧ ∀ response log,
      handle_hangupAll Sample.provider [] = (Ok response, log) →
      body response ≠ terminated_payload 3.
Proof.
  split; [reflexivity|].
  intros response log H. vm_compute in H. injection H as <- _. discriminate.
Qed.


(** ** Every answer has status 200 *)

Ltac returns_step :=
  lazymatch goal with
  | |- returns _ (mret _) => apply returns_ret
  | |- returns _ (lift _) => apply returns_lift
  | |- returns _ (mbind _ _) => apply returns_bind; intros
  | |- returns _ (try_catch_eff _ _) => apply returns_try_catch; [|intros]
  | |- returns _ (if ?b then _ else _) => destruct b
  | |- returns _ (match ?x with _ => _ end) => destruct x
  | |- returns_r _ (mbind _ _) => apply returns_r_bind; intros
  | |- returns_r _ (try_catch _ _) => apply returns_r_try_catch; [|intros]
  | |- returns_r _ (if ?b then _ else _) => destruct b
  | |- returns_r _ (match ?x with _ => _ end) => destruct x
  | |- returns_r _ (Ok _) => simpl
  | |- returns_r _ (Throw _) => exact I
  end.

Ltac returns_auto := cbv zeta; repeat (returns_step; cbv beta zeta); try reflexivity.

Lemma unknown_action_response_status action :
  returns_r status_200 (unknown_action_response action).
Proof. unfold unknown_action_response. returns_auto. Qed.

Lemma handle_clientCall_status callerId requestData :
  returns_r status_200 (handle_clientCall callerId requestData).
Proof. unfold handle_clientCall, debugTwiML. returns_auto. Qed.

Lemma handle_makeCall_status client callerId requestData :
  returns status_200 (handle_makeCall client callerId requestData).
Proof. unfold handle_makeCall. returns_auto. Qed.

Lemma handle_statusCallback_status url_searchParams requestData :
  returns_r status_200 (handle_statusCallback url_searchParams requestData).
Proof. unfold handle_statusCallback. returns_auto. Qed.

Lemma handle_dialStatus_status requestData :
  returns_r status_200 (handle_dialStatus requestData).
Proof. unfold handle_dialStatus. returns_auto. Qed.

Lemma handle_checkStatus_status client requestData :
  returns status_200 (handle_checkStatus client requestData).
Proof. unfold handle_checkStatus. returns_auto. Qed.

Lemma handle_endCall_status client requestData :
  returns status_200 (handle_endCall client requestData).
Proof. unfold handle_endCall. returns_auto. Qed.

Lemma handle_hangupAll_status client :
  returns status_200 (handle_hangupAll client).
Proof. unfold handle_hangupAll. returns_auto. Qed.

Lemma handle_otherwise_status callerId action requestData :
  returns_r status_200 (handle_otherwise callerId action requestData).
Proof.
  unfold handle_otherwise, debugTwiML. cbv zeta.
  repeat first [apply unknown_action_response_status | returns_step; cbv beta zeta];
    reflexivity.
Qed.

Lemma dispatch_status env client url_searchParams requestData c :
  returns status_200 (dispatch env client url_searchParams requestData c).
Proof.
  unfold dispatch. cbv zeta.
  repeat first
    [ apply returns_lift, handle_clientCall_status
    | apply handle_makeCall_status
    | apply returns_lift, handle_statusCallback_status
    | apply returns_lift, handle_dialStatus_status
    | apply handle_checkStatus_status
    | apply handle_endCall_status
    | apply handle_hangupAll_status
    | apply returns_lift, handle_otherwise_status
    | returns_step ]; reflexivity.
Qed.

Lemma top_level_catch_status (error : JsError) : status_200 (top_level_catch error).
Proof. unfold top_level_catch. destruct (_ && _); reflexivity. Qed.

(** C2.  Every request other than an OPTIONS preflight is answered, and
    answered with status 200: whatever the body, the configuration and
    the provider's answers, [serve] returns a response (it throws
    nothing) whose status is 200.  In particular the diagnostic for an
    unknown action is a JSON body that names the action, and what the
    top-level handler answers to a caught exception has status 200. *)
Theorem serve_status_200
  (env : Env) (client : Provider) (req : Request) (log : Log) :
  method req ≠ "OPTIONS" →
  (∃ response log',
     serve env client req log = (Ok response, log') ∧ status response = 200%Z)
  ∧ (∀ action shown,
       to_string action = Ok shown →
       ∃ response,
         unknown_action_response action = Ok response
         ∧ status response = 200%Z
         ∧ content_type_of response = Some "application/json"
         ∧ body response
           = error_payload ("The requested action " +:+ shown +:+ " is not supported."))
  ∧ (∀ error, status (top_level_catch error) = 200%Z).
Proof.
  intros Hmethod. split; [|split].
  - unfold serve. apply String.eqb_neq in Hmethod. rewrite Hmethod.
    apply (try_catch_eff_total status_200).
    + returns_step. returns_step. apply dispatch_status.
    + apply top_level_catch_status.
  - intros action shown Hshown. unfold unknown_action_response, log_template.
    cbn [to_strings]. rewrite Hshown. cbn [mbind Result_bind].
    eexists. repeat split.
  - apply top_level_catch_status.
Qed.

Lemma serve_status_200_witness :
  (∃ response log',
     serve Sample.env Sample.provider Sample.client_call_request []
     = (Ok response, log')
     ∧ status response = 200%Z)
  ∧ (∀ action shown,
       to_string action = Ok shown →
       ∃ response,
         unknown_action_response action = Ok response
         ∧ status response = 200%Z
         ∧ content_type_of response = Some "application/json"
         ∧ body response
           = error_payload ("The requested action " +:+ shown +:+ " is not supported."))
  ∧ (∀ error, status (top_level_catch error) = 200%Z).
Proof.
  apply (serve_status_200 Sample.env Sample.provider Sample.client_call_request []).
  discriminate.
Defined.

(** ** Classification of client-initiated calls *)

Lemma Result_bind_ok {A B} (m : Result A) (f : A → Result B) b :
  m ≫= f = Ok b → ∃ a, m = Ok a ∧ f a = Ok b.
Proof. destruct m as [a|e]; [eauto | discriminate]. Qed.

Ltac bind_inv H :=
  repeat (apply Result_bind_ok in H as (? & ? & H)).

(** The client-call rule comes last: when its test holds, the action is
    [clientCall], whatever was resolved before. *)
Lemma classify_client_flag url_searchParams requestData c :
  classify url_searchParams requestData = Ok c →
  truthy (isClientInitiatedCall c) = true → action c = VStr "clientCall".
Proof.
  unfold classify. intros H. bind_inv H. cbv zeta in H.
  injection H as <-. simpl. intros ->. reflexivity.
Qed.

(** The detailed status is logged exactly when a CallSid and a
    CallStatus are both present. *)
Lemma detailed_status_logged (CallSid CallStatus other : JsVal) :
  truthy (js_and CallSid (js_or CallStatus other)) && truthy CallStatus
  = truthy CallSid && truthy CallStatus.
Proof.
  unfold js_and, js_or.
  destruct (truthy CallSid) eqn:E1, (truthy CallStatus) eqn:E2;
    rewrite ?E1, ?E2, ?andb_false_r; reflexivity.
Qed.

Lemma log_detailed_status_converts (CallSid CallStatus : JsVal) :
  converts CallSid && converts CallStatus = true →
  log_detailed_status CallSid CallStatus = Ok ().
Proof.
  intros H. pose proof H as H'. apply andb_true_iff in H' as [HSid _].
  unfold log_detailed_status.
  rewrite (log_template_converts [CallSid; CallStatus])
    by (cbn [forallb]; now rewrite andb_true_r).
  cbn [mbind Result_bind].
  rewrite (log_template_converts [CallSid]) by (cbn [forallb]; now rewrite andb_true_r).
  repeat destruct (strict_eq_str _ _); reflexivity.
Qed.

Lemma log_detailed_status_throws (CallSid CallStatus : JsVal) :
  converts CallSid && converts CallStatus = false →
  ∃ e, log_detailed_status CallSid CallStatus = Throw e.
Proof.
  intros H. unfold log_detailed_status.
  destruct (log_template_throws [CallSid; CallStatus]) as [e ->]; [|eauto].
  cbn [forallb]. now rewrite andb_true_r.
Qed.

(** C3 (as the code has it).  When the From field is a string starting
    with [client:] and the request carries a phoneNumber (a non-empty
    one: a truthy value), the StatusCallbackEvent field is absent, a
    string or an array, and the CallSid and the CallStatus, when both are
    present, can be converted to text for the log, the classifier
    resolves the action to [clientCall] and sets the client-initiated
    flag.  This holds whatever else the request holds: an explicit
    action, a CallSid with status fields, a ConferenceSid. *)
Theorem classify_client_call
  (url_searchParams : list (string * string)) (requestData : JsVal)
  (caller : string) (phoneNumber event CallSid CallStatus : JsVal) :
  get_prop requestData "From" = Ok (VStr caller) →
  Str.startsWith caller "client:" = true →
  get_prop requestData "phoneNumber" = Ok phoneNumber →
  truthy phoneNumber = true →
  get_prop requestData "StatusCallbackEvent" = Ok event →
  includes_callable event = true →
  get_prop requestData "CallSid" = Ok CallSid →
  get_prop requestData "CallStatus" = Ok CallStatus →
  (truthy CallSid && truthy CallStatus = true →
   converts CallSid && converts CallStatus = true) →
  ∃ c, classify url_searchParams requestData = Ok c
       ∧ action c = VStr "clientCall"
       ∧ truthy (isClientInitiatedCall c) = true.
Proof.
  intros HFrom Hprefix Hphone Htruthy Hevent Hcallable HSid HStatus Hlog.
  destruct requestData as [| | | | | |o|]; try discriminate HFrom.
  simpl in HFrom, Hphone, Hevent, HSid, HStatus.
  injection HFrom as HFrom. injection Hphone as Hphone. injection Hevent as Hevent.
  injection HSid as HSid. injection HStatus as HStatus.
  assert (truthy (VStr caller) = true) as Hcaller
    by (destruct caller; [discriminate Hprefix | reflexivity]).
  unfold classify. cbn [get_prop mbind Result_bind]. cbv zeta.
  rewrite HFrom, Hphone, Hevent, HSid, HStatus, Hcaller, detailed_status_logged.
  assert ((if truthy CallSid && truthy CallStatus
           then log_detailed_status CallSid CallStatus else Ok ()) = Ok ()) as ->.
  { destruct (truthy CallSid && truthy CallStatus); [|reflexivity].
    apply log_detailed_status_converts, Hlog. reflexivity. }
  cbn [call_startsWith mbind Result_bind]. rewrite Hprefix.
  cbn [js_and truthy]. rewrite Htruthy.
  match goal with
  | |- context [if truthy ?seen then Ok ?seen else _] => destruct (truthy seen)
  end.
  - eexists. split; [reflexivity|]. split; [reflexivity | exact Htruthy].
  - destruct event; try discriminate Hcallable;
      (eexists; split; [reflexivity|]; split; [reflexivity | exact Htruthy]).
Qed.

(** A status callback that also is a client call: CallSid and CallStatus
    are present, and the action is still [clientCall]. *)
Lemma classify_client_call_witness :
  ∃ c, classify []
         (Sample.obj [ ("From", VStr "client:abc");
                       ("phoneNumber", VStr "5551234567");
                       ("CallSid", VStr "CA123");
                       ("CallStatus", VStr "ringing") ]) = Ok c
       ∧ action c = VStr "clientCall"
       ∧ truthy (isClientInitiatedCall c) = true.
Proof.
  apply (classify_client_call [] _ "client:abc" (VStr "5551234567") VUndef
           (VStr "CA123") (VStr "ringing"));
    reflexivity.
Defined.

(** C3, the claim as stated fails: with a numeric StatusCallbackEvent the
    conference test throws before the client-call rule is reached, no
    action is resolved, and the request is answered by the top-level
    handler instead of a dial. *)
Lemma classify_client_call_numeric_event :
  classify [] Sample.client_call_numeric_event
  = Throw (TypeError "requestData.StatusCallbackEvent?.includes is not a function")
  ∧ serve Sample.env Sample.provider Sample.client_call_numeric_event_request []
    = (Ok (top_level_catch
             (TypeError "requestData.StatusCallbackEvent?.includes is not a function")),
       []).
Proof. split; reflexivity. Qed.

(** ** Dispatch *)

Lemma serve_classified env client req log requestData c :
  method req ≠ "OPTIONS" →
  classification req = Ok (requestData, c) →
  serve env client req log
  = try_catch_eff (dispatch env client (searchParams req) requestData c)
      (fun error => mret (top_level_catch error)) log.
Proof.
  intros Hmethod Hc. apply String.eqb_neq in Hmethod.
  unfold serve. rewrite Hmethod. unfold classification in Hc.
  apply Result_bind_ok in Hc as (rd & Hparse & Hc).
  apply Result_bind_ok in Hc as (c' & Hclassify & Hc).
  injection Hc as -> ->.
  unfold try_catch_eff, mbind, Eff_bind, lift. now rewrite Hparse, Hclassify.
Qed.

Lemma classification_classify req requestData c :
  classification req = Ok (requestData, c) →
  classify (searchParams req) requestData = Ok c.
Proof.
  unfold classification. intros Hc.
  apply Result_bind_ok in Hc as (rd & Hparse & Hc).
  apply Result_bind_ok in Hc as (c' & Hclassify & Hc).
  now injection Hc as -> ->.
Qed.

Lemma dispatch_without_phone_number env client url_searchParams requestData c log :
  absent (TWILIO_PHONE_NUMBER env) →
  dispatch env client url_searchParams requestData c log
  = (Ok phone_number_apology, log).
Proof. unfold absent, dispatch. intros ->. reflexivity. Qed.

Lemma dispatch_without_credentials env client url_searchParams requestData c log :
  ¬ absent (TWILIO_PHONE_NUMBER env) →
  absent (TWILIO_ACCOUNT_SID env) ∨ absent (TWILIO_AUTH_TOKEN env) →
  needs_provider_client (action c) = true →
  truthy (isClientInitiatedCall c) = false →
  dispatch env client url_searchParams requestData c log
  = (Ok credentials_apology, log).
Proof.
  unfold absent, dispatch, needs_provider_client. intros Hphone Hcreds Hneeds Hflag.
  apply not_false_is_true in Hphone. rewrite Hphone, Hflag. cbv zeta. simpl negb.
  assert (negb (truthy (env_value (TWILIO_ACCOUNT_SID env)))
          || negb (truthy (env_value (TWILIO_AUTH_TOKEN env))) = true) as ->.
  { destruct Hcreds as [-> | ->]; [reflexivity | apply orb_true_r]. }
  destruct (action c) as [| | | |s| | |]; try discriminate Hneeds.
  simpl in Hneeds. simpl.
  destruct (String.eqb_spec s "conferenceStatus") as [->|_]; [discriminate Hneeds|].
  destruct (String.eqb_spec s "clientCall") as [->|_]; [discriminate Hneeds|].
  destruct (String.eqb_spec s "getConfig") as [->|_]; [discriminate Hneeds|].
  reflexivity.
Qed.

(** ** Missing configuration *)

Lemma phone_number_apology_spoken : is_spoken_apology phone_number_apology.
Proof.
  split; [reflexivity|]. split; [reflexivity|].
  eexists. split; [reflexivity|]. split; vm_compute; reflexivity.
Qed.

Lemma credentials_apology_spoken : is_spoken_apology credentials_apology.
Proof.
  split; [reflexivity|]. split; [reflexivity|].
  eexists. split; [reflexivity|]. split; vm_compute; reflexivity.
Qed.

(** C7 (as the code has it).  For a request other than an OPTIONS
    preflight whose parameters are normalised and classified without a
    fault: when the caller-ID phone number is absent, the answer is the
    spoken apology for the missing caller ID; when the account identifier
    or the auth secret is absent and the resolved action is one that
    needs the provider client (makeCall, checkStatus, endCall,
    hangupAll), the answer is a spoken apology too (the one for the
    credentials when the caller ID is present).  Both are well-formed
    markup typed text/xml with status 200, and no request is issued to
    the provider. *)
Theorem missing_configuration_apology
  (env : Env) (client : Provider) (req : Request) (log : Log)
  (requestData : JsVal) (c : Classified) :
  method req ≠ "OPTIONS" →
  classification req = Ok (requestData, c) →
  (absent (TWILIO_PHONE_NUMBER env) →
   serve env client req log = (Ok phone_number_apology, log))
  ∧ (absent (TWILIO_ACCOUNT_SID env) ∨ absent (TWILIO_AUTH_TOKEN env) →
     needs_provider_client (action c) = true →
     ∃ response,
       serve env client req log = (Ok response, log)
       ∧ is_spoken_apology response
       ∧ (¬ absent (TWILIO_PHONE_NUMBER env) → response = credentials_apology))
  ∧ is_spoken_apology phone_number_apology
  ∧ is_spoken_apology credentials_apology.
Proof.
  intros Hmethod Hc.
  pose proof (serve_classified env client req log _ _ Hmethod Hc) as Hserve.
  split; [|split; [|split]].
  - intros Hphone. rewrite Hserve. unfold try_catch_eff.
    now rewrite dispatch_without_phone_number.
  - intros Hcreds Hneeds. rewrite Hserve. unfold try_catch_eff.
    destruct (truthy (env_value (TWILIO_PHONE_NUMBER env))) eqn:Hphone.
    + exists credentials_apology.
      rewrite dispatch_without_credentials; try assumption.
      * split; [reflexivity|]. split; [apply credentials_apology_spoken | reflexivity].
      * unfold absent. rewrite Hphone. discriminate.
      * destruct (truthy (isClientInitiatedCall c)) eqn:Hflag; [|reflexivity].
        apply classification_classify in Hc.
        rewrite (classify_client_flag _ _ _ Hc Hflag) in Hneeds. discriminate Hneeds.
    + exists phone_number_apology.
      rewrite dispatch_without_phone_number by exact Hphone.
      split; [reflexivity|]. split; [apply phone_number_apology_spoken|].
      intros Hnot. contradiction.
  - apply phone_number_apology_spoken.
  - apply credentials_apology_spoken.
Qed.

Lemma missing_configuration_apology_witness :
  (serve Sample.env_without_phone_number Sample.provider
     (Sample.form_request [] "action=hangupAll") []
   = (Ok phone_number_apology, [])
   ∧ serve Sample.env_without_credentials Sample.provider
       (Sample.form_request [] "action=hangupAll") []
     = (Ok credentials_apology, []))
  ∧ is_spoken_apology phone_number_apology
  ∧ is_spoken_apology credentials_apology.
Proof.
  pose proof (missing_configuration_apology Sample.env_without_phone_number
                Sample.provider (Sample.form_request [] "action=hangupAll") [] _ _
                ltac:(discriminate) eq_refl) as (Hphone & _ & Hspoken).
  pose proof (missing_configuration_apology Sample.env_without_credentials
                Sample.provider (Sample.form_request [] "action=hangupAll") [] _ _
                ltac:(discriminate) eq_refl) as (_ & Hcreds & _).
  split; [split|exact Hspoken].
  - apply Hphone. reflexivity.
  - destruct (Hcreds (or_introl eq_refl) eq_refl) as (response & Hserve & _ & Hsame).
    rewrite Hserve. f_equal. f_equal. apply Hsame. discriminate.
Defined.

(** C7, the claim as stated fails: with the caller ID absent, a request
    whose JSON body is [null] is not answered with a spoken apology.
    Reading [requestData.action] throws before the configuration is
    looked at, and the top-level handler answers with a JSON body. *)
Lemma null_body_without_phone_number :
  serve Sample.env_without_phone_number Sample.provider Sample.null_request []
  = (Ok (top_level_catch
           (TypeError "Cannot read properties of null (reading 'action')")), [])
  ∧ content_type_of
      (top_level_catch (TypeError "Cannot read properties of null (reading 'action')"))
    = Some "application/json"
  ∧ markup_of
      (top_level_catch (TypeError "Cannot read properties of null (reading 'action')"))
    = None.
Proof. repeat split. Qed.


(** ** Dialling a client-initiated call *)

Lemma dispatch_client_call env client url_searchParams requestData c log callerId :
  TWILIO_PHONE_NUMBER env = Some callerId →
  Str.is_empty callerId = false →
  classify url_searchParams requestData = Ok c →
  strict_eq_str (action c) "clientCall" || truthy (isClientInitiatedCall c) = true →
  dispatch env client url_searchParams requestData c log
  = (handle_clientCall callerId requestData, log).
Proof.
  intros Henv Hcaller Hclassify Hclient. unfold dispatch. rewrite Henv. simpl.
  rewrite Hcaller. simpl.
  assert (action c = VStr "clientCall") as Haction.
  { apply orb_true_iff in Hclient as [H|H].
    - now apply strict_eq_str_true in H.
    - now apply (classify_client_flag _ _ _ Hclassify). }
  rewrite Haction. reflexivity.
Qed.

Ltac includes_search :=
  rewrite ?append_assoc;
  repeat first
    [ solve [apply includes_prefix; vm_compute; reflexivity]
    | apply includes_append_l ].

(** C5 (as the code has it).  For a client-initiated call carrying the
    phoneNumber 5551234567, the number is normalised to +5551234567 (a
    [+] before its digits, nothing else added).  The handler always
    returns markup.  When the lead reference converts to text and the
    builder accepts the caller ID and the callback URL made of it as
    attribute values, the markup holds a dial instruction to that number;
    otherwise the handler catches the failure and the markup is the
    spoken apology, with no dial instruction. *)
Theorem handle_clientCall_dials_plus_digits
  (TWILIO_PHONE_NUMBER : string) (requestData leadId : JsVal) :
  get_prop requestData "phoneNumber" = Ok (VStr "5551234567") →
  get_prop requestData "leadId" = Ok leadId →
  formattedPhoneNumber (VStr "5551234567") = Ok "+5551234567"
  ∧ ∃ markup,
      handle_clientCall TWILIO_PHONE_NUMBER requestData = Ok (xml_response markup)
      ∧ match to_string (js_or leadId (VStr "unknown")) with
        | Ok lead =>
            if writable TWILIO_PHONE_NUMBER && writable (dialStatus_url lead) then
              Str.includes markup "<Dial " = true
              ∧ Str.includes markup "<Number>+5551234567</Number></Dial>" = true
            else markup = sorry_markup
        | Throw _ => markup = sorry_markup
        end.
Proof.
  intros Hphone Hlead. split; [reflexivity|].
  unfold handle_clientCall. rewrite Hphone, Hlead.
  cbn [mbind Result_bind]. cbv zeta.
  change (truthy (VStr "5551234567")) with true.
  change (formattedPhoneNumber (VStr "5551234567")) with (Ok (A:=string) "+5551234567").
  cbn [negb mbind Result_bind]. say_constant. cbn [try_catch mbind Result_bind app].
  destruct (to_string (js_or leadId (VStr "unknown"))) as [lead|e];
    cbn [try_catch mbind Result_bind]; [|eexists; split; reflexivity].
  unfold TwiML.dial. cbn [TwiML.attributes snd].
  destruct (writable TWILIO_PHONE_NUMBER) eqn:Hcaller.
  2:{ destruct (attValue_unwritable _ Hcaller) as [e ->].
      cbn [try_catch mbind Result_bind andb]. eexists. split; reflexivity. }
  rewrite (attValue_writable _ Hcaller). cbn [mbind Result_bind andb].
  rewrite (attValue_writable (pretty DEFAULT_TIMEOUT)) by (vm_compute; reflexivity).
  cbn [mbind Result_bind].
  destruct (writable (dialStatus_url lead)) eqn:Hurl.
  2:{ destruct (attValue_unwritable _ Hurl) as [e ->].
      cbn [try_catch mbind Result_bind]. eexists. split; reflexivity. }
  rewrite (attValue_writable _ Hurl). cbn [mbind Result_bind].
  rewrite (attValue_writable "POST") by (vm_compute; reflexivity).
  cbn [mbind Result_bind app length]. unfold TwiML.number.
  rewrite (text_speakable "+5551234567") by (vm_compute; reflexivity).
  cbn [mbind Result_bind]. unfold debugTwiML. cbn [try_catch mbind Result_bind].
  eexists. split; [reflexivity|].
  cbn [alter list_alter TwiML.add_child app].
  unfold TwiML.toString. cbn [app map String.concat TwiML.print_verb TwiML.print_node
    TwiML.print_attributes TwiML.print_attribute fst snd].
  split; includes_search.
Qed.

Lemma handle_clientCall_dials_plus_digits_witness :
  formattedPhoneNumber (VStr "5551234567") = Ok "+5551234567"
  ∧ ∃ markup,
      handle_clientCall "+15550001111"
        (Sample.obj [ ("From", VStr "client:abc"); ("phoneNumber", VStr "5551234567") ])
      = Ok (xml_response markup)
      ∧ Str.includes markup "<Dial " = true
      ∧ Str.includes markup "<Number>+5551234567</Number></Dial>" = true.
Proof.
  apply (handle_clientCall_dials_plus_digits "+15550001111"
           (Sample.obj [ ("From", VStr "client:abc"); ("phoneNumber", VStr "5551234567") ])
           VUndef);
    reflexivity.
Defined.

(** C5, the claim as stated fails: for the example request of the
    specification the markup dials +5551234567; the text +15551234567
    does not occur in it. *)
Lemma client_call_markup_has_no_country_code :
  ∃ markup,
    serve Sample.env Sample.provider Sample.client_call_request []
    = (Ok (xml_response markup), [])
    ∧ Str.includes markup "<Number>+5551234567</Number>" = true
    ∧ Str.includes markup "+15551234567" = false.
Proof. eexists. split; [reflexivity|]. split; vm_compute; reflexivity. Qed.

(** ** Further properties of the handlers *)

(** X1.  The dial-result handler, outcome by outcome.  For [completed]
    and [failed] it speaks the message fixed for the outcome.  For [busy]
    and [no-answer] it speaks the fixed message when the call reference
    (the callId, else the leadId, else [unknown]) converts to text for
    the log, and throws otherwise.  For any other outcome it speaks the
    templated message naming the outcome ([unknown] when there is none),
    provided the outcome converts to text and the builder accepts the
    message; otherwise it throws. *)
Theorem handle_dialStatus_messages (requestData dialCallStatus callId leadId : JsVal) :
  get_prop requestData "DialCallStatus" = Ok dialCallStatus →
  get_prop requestData "callId" = Ok callId →
  get_prop requestData "leadId" = Ok leadId →
  let reference := js_or callId (js_or leadId (VStr "unknown")) in
  let says text :=
    handle_dialStatus requestData = Ok (xml_response (TwiML.toString [TwiML.Say text])) in
  (dialCallStatus = VStr "completed" →
   says "The call has ended. Thank you for using our service.")
  ∧ (dialCallStatus = VStr "failed" →
     says "The call failed to connect. Please check the number and try again.")
  ∧ (dialCallStatus = VStr "busy" →
     if converts reference
     then says "The number you called is busy. Please try again later."
     else rejects (handle_dialStatus requestData))
  ∧ (dialCallStatus = VStr "no-answer" →
     if converts reference
     then says "There was no answer. Please try again later."
     else rejects (handle_dialStatus requestData))
  ∧ (dialCallStatus ≠ VStr "completed" → dialCallStatus ≠ VStr "busy" →
     dialCallStatus ≠ VStr "no-answer" → dialCallStatus ≠ VStr "failed" →
     match to_string (js_or dialCallStatus (VStr "unknown")) with
     | Ok shown =>
         if speakable ("Call status is " +:+ shown +:+ ". Goodbye.")
         then says ("Call status is " +:+ shown +:+ ". Goodbye.")
         else rejects (handle_dialStatus requestData)
     | Throw _ => rejects (handle_dialStatus requestData)
     end).
Proof.
  intros Hstatus HcallId HleadId reference says. subst says. cbv beta.
  unfold handle_dialStatus. rewrite Hstatus, HcallId, HleadId.
  cbn [mbind Result_bind]. cbv zeta. fold reference.
  split; [|split; [|split; [|split]]].
  - intros ->. simpl strict_eq_str. cbn iota. say_constant. reflexivity.
  - intros ->. simpl strict_eq_str. cbn iota. say_constant. reflexivity.
  - intros ->. simpl strict_eq_str. cbn iota. say_constant. cbn [mbind Result_bind].
    destruct (converts reference) eqn:E.
    + rewrite log_template_converts by (cbn [forallb]; now rewrite E). reflexivity.
    + destruct (log_template_throws [reference]) as [e ->];
        [cbn [forallb]; now rewrite E | exact I].
  - intros ->. simpl strict_eq_str. cbn iota. say_constant. cbn [mbind Result_bind].
    destruct (converts reference) eqn:E.
    + rewrite log_template_converts by (cbn [forallb]; now rewrite E). reflexivity.
    + destruct (log_template_throws [reference]) as [e ->];
        [cbn [forallb]; now rewrite E | exact I].
  - intros H1 H2 H3 H4.
    repeat match goal with
           | H : dialCallStatus ≠ VStr ?lit |- _ =>
               assert (strict_eq_str dialCallStatus lit = false) as ->
                 by (apply not_true_is_false; intros E;
                     apply strict_eq_str_true in E; contradiction);
               clear H
           end.
    destruct (to_string (js_or dialCallStatus (VStr "unknown"))) as [shown|e];
      [|exact I].
    cbn [mbind Result_bind].
    destruct (speakable ("Call status is " +:+ shown +:+ ". Goodbye.")) eqn:E.
    + rewrite (say_speakable _ _ E). reflexivity.
    + destruct (say_unspeakable [] _ E) as [e ->]. exact I.
Qed.

Lemma handle_dialStatus_messages_witness :
  handle_dialStatus
    (Sample.obj [("action", VStr "dialStatus"); ("DialCallStatus", VStr "busy")])
  = Ok (xml_response
          (TwiML.toString
             [TwiML.Say "The number you called is busy. Please try again later."])).
Proof.
  exact (proj1 (proj2 (proj2
           (handle_dialStatus_messages
              (Sample.obj [("action", VStr "dialStatus"); ("DialCallStatus", VStr "busy")])
              (VStr "busy") VUndef VUndef eq_refl eq_refl eq_refl)))
           eq_refl).
Defined.

Lemma log_template_one_throws (v : JsVal) :
  converts v = false → ∃ e, log_template [v] = Throw e.
Proof. intros E. apply log_template_throws. cbn [forallb]. now rewrite E. Qed.

(** X3.  [checkStatus] on an identifier that is no sentinel.  When the
    identifier converts to text for the log, the handler issues exactly
    one fetch to the provider and relays the status it answers, verbatim;
    when the fetch fails, the answer is the failure payload with the
    provider's message.  When the identifier does not convert, the log
    line throws in the [try] and again in the [catch]: the handler
    throws, and nothing is asked of the provider. *)
Theorem handle_checkStatus_relays
  (client : Provider) (requestData callSid : JsVal) (log : Log) :
  get_prop requestData "callSid" = Ok callSid →
  truthy callSid = true →
  strict_eq_str callSid "pending-sid" || strict_eq_str callSid "browser-call" = false →
  if converts callSid then
    ∃ response,
      handle_checkStatus client requestData log = (Ok response, log ++ [CallsFetch callSid])
      ∧ match fetch_answer client log callSid with
        | Ok call =>
            response = json_response
                         [ ("success", VBool true); ("status", VStr (Call.status call)) ]
        | Throw error =>
            response = json_response
                         [ ("success", VBool false); ("error", VStr (message error)) ]
        end
  else
    ∃ error, handle_checkStatus client requestData log = (Throw error, log).
Proof.
  intros Hget Htruthy Hsentinel.
  unfold handle_checkStatus, lift, mbind, Eff_bind. rewrite Hget, Htruthy.
  cbn [negb]. unfold try_catch_eff. rewrite Hsentinel.
  destruct (converts callSid) eqn:Hconv.
  - rewrite (log_template_converts [callSid]) by (cbn [forallb]; now rewrite Hconv).
    unfold calls_fetch.
    destruct (fetch_answer client log callSid) as [call|error].
    + rewrite log_template_converts by (cbn [forallb]; now rewrite Hconv).
      eexists. split; reflexivity.
    + eexists. split; reflexivity.
  - destruct (log_template_one_throws callSid Hconv) as [e ->]. eauto.
Qed.

Lemma handle_checkStatus_relays_witness :
  ∃ response,
    handle_checkStatus Sample.provider (Sample.obj [("callSid", VStr "CA1")]) []
    = (Ok response, [] ++ [CallsFetch (VStr "CA1")])
    ∧ match fetch_answer Sample.provider [] (VStr "CA1") with
      | Ok call =>
          response = json_response
                       [ ("success", VBool true); ("status", VStr (Call.status call)) ]
      | Throw error =>
          response = json_response
                       [ ("success", VBool false); ("error", VStr (message error)) ]
      end.
Proof.
  apply (handle_checkStatus_relays Sample.provider _ (VStr "CA1") []); reflexivity.
Defined.
(** X4.  The formatting of a destination: a number that starts with [+]
    or holds [client:] is dialled as it is; any other is dialled as [+]
    followed by its decimal digits, everything else removed. *)
Theorem formattedPhoneNumber_spec (s : string) :
  formattedPhoneNumber (VStr s)
  = Ok (if Str.startsWith s "+" || Str.includes s "client:" then s
        else "+" +:+ Str.strip_non_digits s)
  ∧ Forall (fun c => Str.is_digit c = true)
      (String.list_ascii_of_string (Str.strip_non_digits s)).
Proof.
  split.
  - unfold formattedPhoneNumber. cbn [call_startsWith mbind Result_bind].
    destruct (Str.startsWith s "+"); [reflexivity|].
    cbn [call_includes mbind Result_bind]. destruct (Str.includes s "client:"); reflexivity.
  - induction s as [|c s IH]; simpl; [constructor|].
    destruct (Str.is_digit c) eqn:E; [constructor; assumption | assumption].
Qed.

(** The status callbacks of the specification's examples, end to end:
    with CallSid CA123 and no explicit action, the status [completed] is
    answered with the closing message and the status [ringing] with the
    empty document; the provider is not called. *)
Lemma serve_status_callback_examples :
  serve Sample.env Sample.provider
    (Sample.form_request [] "CallSid=CA123&CallStatus=completed") []
  = (Ok (xml_response
           (TwiML.toString [TwiML.Say "Thank you for using our service. Goodbye."])), [])
  ∧ serve Sample.env Sample.provider
      (Sample.form_request [] "CallSid=CA123&CallStatus=ringing") []
    = (Ok (xml_response (TwiML.toString [])), [])
  ∧ (classification (Sample.form_request [] "CallSid=CA123&CallStatus=completed")
       ≫= λ rc, Ok (action rc.2)) = Ok (VStr "statusCallback").
Proof. repeat split. Qed.

(** X6.  A conference callback wins over the generic status inference:
    when a ConferenceSid is present and the request is no client call
    (no From field), the action is [conferenceStatus], even with a
    CallSid and a CallStatus present (provided that they convert to text
    for the log), and whatever action was given. *)
Theorem classify_conference_status
  (url_searchParams : list (string * string))
  (requestData ConferenceSid From CallSid CallStatus : JsVal) :
  get_prop requestData "ConferenceSid" = Ok ConferenceSid →
  truthy ConferenceSid = true →
  get_prop requestData "From" = Ok From →
  truthy From = false →
  get_prop requestData "CallSid" = Ok CallSid →
  get_prop requestData "CallStatus" = Ok CallStatus →
  (truthy CallSid && truthy CallStatus = true →
   converts CallSid && converts CallStatus = true) →
  ∃ c, classify url_searchParams requestData = Ok c
       ∧ action c = VStr "conferenceStatus"
       ∧ truthy (isClientInitiatedCall c) = false.
Proof.
  intros Hconf Htruthy HFrom Hfalsy HSid HStatus Hlog.
  destruct requestData as [| | | | | |o|]; try discriminate Hconf;
    try (simpl in Hconf; injection Hconf as <-; discriminate Htruthy).
  simpl in Hconf, HFrom, HSid, HStatus.
  injection Hconf as Hconf. injection HFrom as HFrom.
  injection HSid as HSid. injection HStatus as HStatus.
  unfold classify. cbn [get_prop mbind Result_bind]. cbv zeta.
  rewrite Hconf, HFrom, HSid, HStatus, Hfalsy, detailed_status_logged.
  assert ((if truthy CallSid && truthy CallStatus
           then log_detailed_status CallSid CallStatus else Ok ()) = Ok ()) as ->.
  { destruct (truthy CallSid && truthy CallStatus); [|reflexivity].
    apply log_detailed_status_converts, Hlog. reflexivity. }
  assert (∀ x, js_or ConferenceSid x = ConferenceSid) as Hor
    by (intros x; unfold js_or; now rewrite Htruthy).
  cbn [mbind Result_bind]. rewrite !Hor, Htruthy. cbn [mbind Result_bind].
  rewrite Htruthy, Hfalsy.
  eexists. split; [reflexivity|]. split; [reflexivity | exact Hfalsy].
Qed.

Lemma classify_conference_status_witness :
  ∃ c, classify []
         (Sample.obj [ ("ConferenceSid", VStr "CF1");
                       ("CallSid", VStr "CA123");
                       ("CallStatus", VStr "completed") ]) = Ok c
       ∧ action c = VStr "conferenceStatus"
       ∧ truthy (isClientInitiatedCall c) = false.
Proof.
  apply (classify_conference_status [] _ (VStr "CF1") VUndef (VStr "CA123")
           (VStr "completed")); reflexivity.
Defined.

Lemma js_or_strings (a b : string) : ∃ s, js_or (VStr a) (VStr b) = VStr s.
Proof. unfold js_or. destruct (truthy (VStr a)); eauto. Qed.

Lemma converts_defaulted (v : JsVal) (fallback : string) :
  converts (js_or v (VStr fallback)) = converts v.
Proof.
  unfold js_or. destruct (truthy v) eqn:E; [reflexivity|].
  symmetry. now apply falsy_converts.
Qed.

(** X7.  [makeCall] without a destination answers the validation error
    and calls nothing.  With a string destination, when the client name
    and the lead reference convert to text and the builder accepts the
    caller ID and the formatted number, it places exactly one create
    request, carrying the markup that dials the formatted number with the
    caller ID and the 20-second timeout, and the status-callback URL of
    the lead; it answers with the identifier the provider assigned, or
    with the failure payload when the provider rejects the request.
    When one of the conversions fails or the builder rejects a value, the
    handler catches the failure: it answers a failure payload and places
    no call. *)
Theorem handle_makeCall_places_one_call
  (client : Provider) (TWILIO_PHONE_NUMBER : string) (requestData : JsVal)
  (phoneNumber browserClientName leadId : JsVal) (log : Log) :
  get_prop requestData "phoneNumber" = Ok phoneNumber →
  get_prop requestData "browserClientName" = Ok browserClientName →
  get_prop requestData "leadId" = Ok leadId →
  (truthy phoneNumber = false →
   handle_makeCall client TWILIO_PHONE_NUMBER requestData log
   = (Ok (json_response
            [ ("success", VBool false); ("error", VStr "Phone number is required") ]),
      log))
  ∧ (∀ s formatted,
       phoneNumber = VStr s → truthy phoneNumber = true →
       formattedPhoneNumber phoneNumber = Ok formatted →
       (∀ callId,
          converts browserClientName = true →
          to_string leadId = Ok callId →
          writable TWILIO_PHONE_NUMBER = true →
          speakable formatted = true →
          let opts :=
            {| twiml :=
                 TwiML.toString
                   [ TwiML.Say "Connecting to the phone number. Please wait.";
                     TwiML.Dial [ ("callerId", TWILIO_PHONE_NUMBER); ("timeout", "20") ]
                       [TwiML.Number formatted] ];
               to := formatted;
               from := TWILIO_PHONE_NUMBER;
               statusCallback := dialer_webhook_url callId |} in
          ∃ response,
            handle_makeCall client TWILIO_PHONE_NUMBER requestData log
            = (Ok response, log ++ [CallsCreate opts])
            ∧ match create_answer client log opts with
              | Ok call =>
                  response = json_response
                               [ ("success", VBool true);
                                 ("callSid", VStr (Call.sid call));
                                 ("message", VStr "Direct outbound call placed");
                                 ("leadId", leadId) ]
              | Throw error =>
                  response = json_response
                               [ ("success", VBool false);
                                 ("error", js_or (VStr (message error))
                                             (VStr "Failed to make call")) ]
              end)
       ∧ (converts browserClientName && converts leadId
          && writable TWILIO_PHONE_NUMBER && speakable formatted = false →
          ∃ shown,
            handle_makeCall client TWILIO_PHONE_NUMBER requestData log
            = (Ok (json_response [ ("success", VBool false); ("error", VStr shown) ]),
               log))).
Proof.
  intros Hphone Hname Hlead. split.
  - intros Hfalsy. unfold handle_makeCall, lift, mbind, Eff_bind.
    rewrite Hphone, Hname, Hlead, Hfalsy. reflexivity.
  - intros s formatted -> Htruthy Hformatted.
    assert (handle_makeCall client TWILIO_PHONE_NUMBER requestData log
            = try_catch_eff
                (_ ← lift (log_template [js_or browserClientName (VStr "not provided")]);
                 _ ← lift (log_template [js_or leadId (VStr "not provided")]);
                 '(twiml, dial) ←
                   lift (TwiML.dial
                           [TwiML.Say "Connecting to the phone number. Please wait."]
                           [ ("callerId", TWILIO_PHONE_NUMBER); ("timeout", "20") ] None);
                 twiml ← lift (TwiML.number twiml dial formatted);
                 callId ← lift (to_string leadId);
                 call ← calls_create client
                          {| twiml := TwiML.toString twiml;
                             to := formatted;
                             from := TWILIO_PHONE_NUMBER;
                             statusCallback := dialer_webhook_url callId |};
                 mret (json_response
                         [ ("success", VBool true);
                           ("callSid", VStr (Call.sid call));
                           ("message", VStr "Direct outbound call placed");
                           ("leadId", leadId) ]))
                (fun error =>
                   mret (json_response
                           [ ("success", VBool false);
                             ("error", js_or (VStr (message error))
                                         (VStr "Failed to make call")) ]))
                log) as ->.
    { unfold handle_makeCall, lift, mbind, Eff_bind at 1 2 3.
      rewrite Hphone, Hname, Hlead, Htruthy. cbn [negb].
      unfold try_catch_eff, mbind, Eff_bind.
      rewrite (log_template_converts [VStr s; VStr TWILIO_PHONE_NUMBER]) by reflexivity.
      destruct (log_template [js_or browserClientName _]); [|reflexivity].
      destruct (log_template [js_or leadId _]); [|reflexivity].
      rewrite Hformatted. say_constant. cbn [app].
      change (pretty DEFAULT_TIMEOUT) with "20".
      destruct (TwiML.dial _ _ _) as [[twiml dial]|e]; [|reflexivity].
      destruct (TwiML.number _ _ _) as [twiml'|e]; [|reflexivity].
      reflexivity. }
    assert (∀ e : JsError, ∃ shown,
              js_or (VStr (message e)) (VStr "Failed to make call") = VStr shown)
      as Hshown by (intros e; apply js_or_strings).
    unfold try_catch_eff, lift, mbind, Eff_bind. split.
    + intros callId Hclient Hid Hcaller Hnumber.
      assert (converts leadId = true) as Hlid by (unfold converts; now rewrite Hid).
      rewrite !log_template_converts
        by (cbn [forallb]; rewrite converts_defaulted, ?Hclient, ?Hlid; reflexivity).
      unfold TwiML.dial. cbn [TwiML.attributes snd].
      rewrite (attValue_writable _ Hcaller). cbn [mbind Result_bind].
      rewrite (attValue_writable "20") by (vm_compute; reflexivity).
      cbn [mbind Result_bind app length]. unfold TwiML.number.
      rewrite (text_speakable _ Hnumber). cbn [mbind Result_bind].
      rewrite Hid. cbn [alter list_alter TwiML.add_child app].
      unfold calls_create.
      destruct (create_answer client log _) as [call|error];
        eexists; split; reflexivity.
    + intros Hfail.
      destruct (converts browserClientName) eqn:Hclient.
      2:{ destruct (log_template_one_throws (js_or browserClientName (VStr "not provided")))
            as [e ->]; [now rewrite converts_defaulted|].
          destruct (Hshown e) as [shown ->]. eauto. }
      rewrite (log_template_converts [js_or browserClientName _])
        by (cbn [forallb]; now rewrite converts_defaulted, Hclient).
      destruct (converts leadId) eqn:Hid.
      2:{ destruct (log_template_one_throws (js_or leadId (VStr "not provided")))
            as [e ->]; [now rewrite converts_defaulted|].
          destruct (Hshown e) as [shown ->]. eauto. }
      rewrite (log_template_converts [js_or leadId _])
        by (cbn [forallb]; now rewrite converts_defaulted, Hid).
      unfold TwiML.dial. cbn [TwiML.attributes snd].
      destruct (writable TWILIO_PHONE_NUMBER) eqn:Hcaller.
      2:{ destruct (attValue_unwritable _ Hcaller) as [e ->]. cbn [mbind Result_bind].
          destruct (Hshown e) as [shown ->]. eauto. }
      rewrite (attValue_writable _ Hcaller). cbn [mbind Result_bind].
      rewrite (attValue_writable "20") by (vm_compute; reflexivity).
      cbn [mbind Result_bind app length]. unfold TwiML.number.
      cbn [andb] in Hfail. destruct (text_unspeakable _ Hfail) as [e ->].
      cbn [mbind Result_bind]. destruct (Hshown e) as [shown ->]. eauto.
Qed.

Lemma handle_makeCall_places_one_call_witness :
  ∃ response,
    handle_makeCall Sample.provider "+15550001111"
      (Sample.obj [ ("action", VStr "makeCall");
                    ("phoneNumber", VStr "(555) 123-4567");
                    ("leadId", VNum 42) ]) []
    = (Ok response,
       [] ++ [CallsCreate
                {| twiml :=
                     TwiML.toString
                       [ TwiML.Say "Connecting to the phone number. Please wait.";
                         TwiML.Dial [ ("callerId", "+15550001111"); ("timeout", "20") ]
                           [TwiML.Number "+5551234567"] ];
                   to := "+5551234567";
                   from := "+15550001111";
                   statusCallback := dialer_webhook_url "42" |}])
    ∧ response = json_response
                   [ ("success", VBool true);
                     ("callSid", VStr "CA9");
                     ("message", VStr "Direct outbound call placed");
                     ("leadId", VNum 42) ].
Proof.
  destruct (handle_makeCall_places_one_call Sample.provider "+15550001111"
              (Sample.obj [ ("action", VStr "makeCall");
                            ("phoneNumber", VStr "(555) 123-4567");
                            ("leadId", VNum 42) ])
              (VStr "(555) 123-4567") VUndef (VNum 42) [] eq_refl eq_refl eq_refl)
    as [_ Hplace].
  destruct (Hplace "(555) 123-4567" "+5551234567" eq_refl eq_refl eq_refl)
    as [Hone _].
  destruct (Hone "42" eq_refl eq_refl eq_refl eq_refl) as (response & Hrun & Hanswer).
  exists response. split; [exact Hrun | exact Hanswer].
Defined.
(** X8.  End to end: with the configuration present and the client
    initialised, a request classified as [checkStatus] whose callSid is
    a sentinel is answered [{success:true, status:"pending"}], and the
    provider receives no request. *)
Theorem serve_checkStatus_sentinel
  (env : Env) (client : Provider) (req : Request) (log : Log)
  (requestData : JsVal) (c : Classified) (accountSid authToken phoneNumber : string) :
  method req ≠ "OPTIONS" →
  classification req = Ok (requestData, c) →
  action c = VStr "checkStatus" →
  TWILIO_ACCOUNT_SID env = Some accountSid → Str.is_empty accountSid = false →
  TWILIO_AUTH_TOKEN env = Some authToken → Str.is_empty authToken = false →
  TWILIO_PHONE_NUMBER env = Some phoneNumber → Str.is_empty phoneNumber = false →
  twilio_init client accountSid authToken = Ok () →
  get_prop requestData "callSid" = Ok (VStr "pending-sid")
  ∨ get_prop requestData "callSid" = Ok (VStr "browser-call") →
  serve env client req log
  = (Ok (json_response [ ("success", VBool true); ("status", VStr "pending") ]), log).
Proof.
  intros Hmethod Hc Haction Hsid Hsid' Htoken Htoken' Hphone Hphone' Hinit Hsentinel.
  rewrite (serve_classified env client req log _ _ Hmethod Hc).
  assert (truthy (isClientInitiatedCall c) = false) as Hflag.
  { destruct (truthy (isClientInitiatedCall c)) eqn:E; [|reflexivity].
    apply classification_classify in Hc.
    rewrite (classify_client_flag _ _ _ Hc E) in Haction. discriminate Haction. }
  unfold try_catch_eff, dispatch.
  rewrite Haction, Hflag, Hsid, Htoken, Hphone. cbv zeta. cbn [env_value truthy].
  rewrite Hsid', Htoken', Hphone'. simpl.
  unfold mbind, Eff_bind, lift. rewrite Hinit. simpl.
  unfold handle_checkStatus, lift, mbind, Eff_bind.
  destruct Hsentinel as [-> | ->]; reflexivity.
Qed.

Lemma serve_checkStatus_sentinel_witness :
  serve Sample.env Sample.provider
    (Sample.form_request [("action", "checkStatus")] "callSid=pending-sid") []
  = (Ok (json_response [ ("success", VBool true); ("status", VStr "pending") ]), []).
Proof.
  eapply (serve_checkStatus_sentinel Sample.env Sample.provider);
    [ discriminate | reflexivity | reflexivity | reflexivity | reflexivity
    | reflexivity | reflexivity | reflexivity | reflexivity | reflexivity
    | left; reflexivity ].
Defined.

(** ** The requests a run issues to the provider *)

Lemma requests_ret {A} (P : Log → Prop) (a : A) : P [] → requests P (mret a).
Proof. intros H log. exists []. split; [symmetry; apply app_nil_r | exact H]. Qed.

Lemma requests_lift {A} (P : Log → Prop) (r : Result A) : P [] → requests P (lift r).
Proof. intros H log. exists []. split; [symmetry; apply app_nil_r | exact H]. Qed.

Lemma requests_weaken {A} (P P' : Log → Prop) (m : Eff A) :
  (∀ added, P added → P' added) → requests P m → requests P' m.
Proof. intros Himp Hm log. destruct (Hm log) as (added & Heq & HP). eauto. Qed.

(** A computation that issues nothing, followed by one that issues
    requests satisfying [P]. *)
Lemma requests_bind_quiet {A B} (P : Log → Prop) (m : Eff A) (f : A → Eff B) :
  P [] → requests (fun added => added = []) m → (∀ a, requests P (f a)) →
  requests P (m ≫= f).
Proof.
  intros Hnil Hm Hf log. unfold mbind, Eff_bind.
  destruct (Hm log) as (added & Heq & ->). rewrite app_nil_r in Heq.
  destruct (m log) as [[a|e] log']; simpl in Heq; subst log'.
  - apply Hf.
  - exists []. split; [symmetry; apply app_nil_r | exact Hnil].
Qed.

(** A computation that issues requests satisfying [P], followed by one
    that issues nothing. *)
Lemma requests_then_quiet {A B} (P : Log → Prop) (m : Eff A) (f : A → Eff B) :
  requests P m → (∀ a, requests (fun added => added = []) (f a)) →
  requests P (m ≫= f).
Proof.
  intros Hm Hf log. unfold mbind, Eff_bind.
  destruct (Hm log) as (added & Heq & HP).
  destruct (m log) as [[a|e] log']; simpl in Heq; subst log'.
  - destruct (Hf a (log ++ added)) as (added' & Heq' & ->).
    rewrite app_nil_r in Heq'. exists added. split; assumption.
  - exists added. split; [reflexivity | exact HP].
Qed.

Lemma requests_try_catch_quiet {A} (P : Log → Prop) (body : Eff A)
  (handler : JsError → Eff A) :
  requests P body → (∀ e, requests (fun added => added = []) (handler e)) →
  requests P (try_catch_eff body handler).
Proof.
  intros Hb Hh log. unfold try_catch_eff. destruct (Hb log) as (added & Heq & HP).
  destruct (body log) as [[a|e] log']; simpl in Heq; subst log'.
  - exists added. split; [reflexivity | exact HP].
  - destruct (Hh e (log ++ added)) as (added' & Heq' & ->).
    rewrite app_nil_r in Heq'. exists added. split; assumption.
Qed.

Ltac quiet :=
  repeat first
    [ apply requests_ret; reflexivity
    | apply requests_lift; reflexivity
    | apply requests_bind_quiet; [reflexivity | | intros ?]
    | match goal with |- requests _ (match ?x with _ => _ end) => destruct x end ].

Ltac quiet_prefix :=
  repeat first
    [ apply requests_bind_quiet; [now left | apply requests_lift; reflexivity | intros ?]
    | match goal with
      | |- requests _ (match ?x with (_, _) => _ end) => destruct x
      end ].

Lemma handle_makeCall_requests client callerId requestData :
  requests (fun added => added = [] ∨ ∃ opts, added = [CallsCreate opts])
    (handle_makeCall client callerId requestData).
Proof.
  unfold handle_makeCall. quiet_prefix.
  destruct (negb _); [apply requests_ret; now left|].
  apply requests_try_catch_quiet; [|intros e; quiet].
  quiet_prefix. apply requests_then_quiet; [|intros call; quiet].
  intros log. unfold calls_create. eexists. split; [reflexivity | right; eauto].
Qed.

Lemma handle_checkStatus_requests client requestData :
  requests (fun added => added = [] ∨ ∃ callSid, added = [CallsFetch callSid])
    (handle_checkStatus client requestData).
Proof.
  unfold handle_checkStatus. quiet_prefix.
  destruct (negb _); [apply requests_ret; now left|].
  apply requests_try_catch_quiet; [|intros e; quiet].
  quiet_prefix.
  destruct (_ || _); [apply requests_ret; now left|].
  apply requests_then_quiet; [|intros call; quiet].
  intros log. unfold calls_fetch. eexists. split; [reflexivity | right; eauto].
Qed.

Lemma handle_endCall_requests client requestData :
  requests (fun added => added = [] ∨ ∃ callSid, added = [CallsUpdate callSid])
    (handle_endCall client requestData).
Proof.
  unfold handle_endCall. quiet_prefix.
  destruct (negb _); [apply requests_ret; now left|].
  apply requests_try_catch_quiet; [|intros e; quiet].
  quiet_prefix.
  destruct (strict_eq_str _ _); [apply requests_ret; now left|].
  apply requests_then_quiet; [|intros promise; unfold await; quiet].
  intros log. unfold calls_update. eexists. split; [reflexivity | right; eauto].
Qed.

Lemma handle_hangupAll_requests client :
  requests (fun added => added = [CallsList]
                         ∨ ∃ calls, added = CallsList :: terminate_instructions calls)
    (handle_hangupAll client).
Proof.
  intros log. unfold handle_hangupAll, try_catch_eff, mbind, Eff_bind, calls_list.
  destruct (list_answer client log) as [calls|e].
  - rewrite map_eff_updates. exists (CallsList :: terminate_instructions calls).
    split; [|right; eauto]. unfold Promise_all.
    destruct (first_rejection _) as [[t e]|]; simpl; now rewrite <- app_assoc.
  - exists [CallsList]. split; [reflexivity | now left].
Qed.

Lemma allowed_requests_none (action : JsVal) : allowed_requests action [].
Proof. now left. Qed.

Lemma requests_nothing {A} (action : JsVal) (m : Eff A) :
  requests (fun added => added = []) m → requests (allowed_requests action) m.
Proof. apply requests_weaken. intros added ->. apply allowed_requests_none. Qed.

Lemma dispatch_requests env client url_searchParams requestData c :
  requests (allowed_requests (action c))
    (dispatch env client url_searchParams requestData c).
Proof.
  unfold dispatch. cbv zeta.
  destruct (negb _);
    [apply requests_nothing; quiet|].
  destruct (strict_eq_str (action c) "conferenceStatus");
    [apply requests_ret, allowed_requests_none|].
  destruct (_ || _); [apply requests_lift, allowed_requests_none|].
  destruct (strict_eq_str (action c) "getConfig");
    [apply requests_ret, allowed_requests_none|].
  destruct (_ || _);
    [apply requests_nothing; quiet|].
  apply requests_bind_quiet;
    [apply allowed_requests_none | apply requests_lift; reflexivity | intros _].
  destruct (strict_eq_str (action c) "makeCall") eqn:EmakeCall.
  { eapply requests_weaken; [|apply handle_makeCall_requests].
    intros added [->|H]; [apply allowed_requests_none | right; left; now split]. }
  apply requests_bind_quiet;
    [apply allowed_requests_none | apply requests_lift; reflexivity | intros isStatus].
  destruct isStatus; [apply requests_lift, allowed_requests_none|].
  destruct (strict_eq_str (action c) "dialStatus");
    [apply requests_lift, allowed_requests_none|].
  destruct (strict_eq_str (action c) "checkStatus") eqn:EcheckStatus.
  { eapply requests_weaken; [|apply handle_checkStatus_requests].
    intros added [->|H]; [apply allowed_requests_none | right; right; left; now split]. }
  destruct (strict_eq_str (action c) "endCall") eqn:EendCall.
  { eapply requests_weaken; [|apply handle_endCall_requests].
    intros added [->|H];
      [apply allowed_requests_none | right; right; right; left; now split]. }
  destruct (strict_eq_str (action c) "hangupAll") eqn:EhangupAll.
  { eapply requests_weaken; [|apply handle_hangupAll_requests].
    intros added H. right; right; right; right. now split. }
  apply requests_lift, allowed_requests_none.
Qed.

(** X9.  What a run asks of the provider.  [serve] always returns a
    response; it never removes or alters a request issued before, and
    the requests it adds are those the resolved action warrants: one
    create for makeCall, one fetch for checkStatus, one update for
    endCall, the listing and one update per listed call for hangupAll,
    and none at all for every other action (status, dial and conference
    callbacks, client calls, getConfig, unknown actions), for a
    preflight, and for a request whose classification throws. *)
Theorem serve_requests (env : Env) (client : Provider) (req : Request) (log : Log) :
  ∃ response added,
    serve env client req log = (Ok response, log ++ added)
    ∧ match classification req with
      | Ok (requestData, c) => allowed_requests (action c) added
      | Throw _ => added = []
      end.
Proof.
  unfold serve, classification.
  destruct (String.eqb (method req) "OPTIONS").
  - exists preflight_response, []. split; [unfold mret, Eff_ret; now rewrite app_nil_r|].
    destruct (parse_body req) as [rd|e]; [|reflexivity]. cbn [mbind Result_bind].
    destruct (classify _ rd) as [c|e]; [apply allowed_requests_none | reflexivity].
  - unfold try_catch_eff, mbind at 1 2, Eff_bind, lift.
    destruct (parse_body req) as [rd|e]; cbn [mbind Result_bind].
    + destruct (classify (searchParams req) rd) as [c|e]; cbn [mbind Result_bind].
      * destruct (dispatch_requests env client (searchParams req) rd c log)
          as (added & Heq & Hallowed).
        destruct (dispatch env client (searchParams req) rd c log) as [[r|e] log'];
          simpl in Heq; subst log'; eauto.
      * eexists _, []. split; [unfold mret, Eff_ret; now rewrite app_nil_r | reflexivity].
    + eexists _, []. split; [unfold mret, Eff_ret; now rewrite app_nil_r | reflexivity].
Qed.
(** ** The shape of every answer *)

Lemma xml_response_well_shaped (markup : string) : well_shaped (xml_response markup).
Proof. exists "text/xml". split; [reflexivity|]. left. eauto. Qed.

Lemma json_response_well_shaped (fields : list (string * JsVal)) (b : bool) :
  ("success", VBool b) ∈ fields →
  (b = false → ∃ shown, ("error", VStr shown) ∈ fields) →
  well_shaped (json_response fields).
Proof.
  intros Hsuccess Herror. exists "application/json". split; [reflexivity|]. right.
  split; [reflexivity|]. eexists _, b. split; [reflexivity|]. split.
  - apply list_elem_of_filter. split; [reflexivity | exact Hsuccess].
  - intros Hb. destruct (Herror Hb) as [shown Hin]. exists shown.
    apply list_elem_of_filter. split; [reflexivity | exact Hin].
Qed.

Ltac failure_payload :=
  apply (json_response_well_shaped _ false);
  [ apply list_elem_of_here
  | intros _; eexists; apply list_elem_of_further, list_elem_of_here ].

Ltac success_payload :=
  apply (json_response_well_shaped _ true);
  [ solve [repeat first [apply list_elem_of_here | apply list_elem_of_further]]
  | discriminate ].

Ltac shaped :=
  cbv zeta;
  repeat first
    [ apply xml_response_well_shaped
    | failure_payload
    | success_payload
    | returns_step; cbv beta zeta ].

Lemma handle_clientCall_shape callerId requestData :
  returns_r well_shaped (handle_clientCall callerId requestData).
Proof. unfold handle_clientCall, debugTwiML. shaped. Qed.

Lemma handle_makeCall_shape client callerId requestData :
  returns well_shaped (handle_makeCall client callerId requestData).
Proof.
  unfold handle_makeCall, debugTwiML. shaped.
  destruct (js_or_strings (message e) "Failed to make call") as [s ->]. failure_payload.
Qed.

Lemma handle_statusCallback_shape url_searchParams requestData :
  returns_r well_shaped (handle_statusCallback url_searchParams requestData).
Proof. unfold handle_statusCallback. shaped. Qed.

Lemma handle_dialStatus_shape requestData :
  returns_r well_shaped (handle_dialStatus requestData).
Proof. unfold handle_dialStatus. shaped. Qed.

Lemma handle_checkStatus_shape client requestData :
  returns well_shaped (handle_checkStatus client requestData).
Proof. unfold handle_checkStatus. shaped. Qed.

Lemma handle_endCall_shape client requestData :
  returns well_shaped (handle_endCall client requestData).
Proof. unfold handle_endCall. shaped. Qed.

Lemma handle_hangupAll_shape client :
  returns well_shaped (handle_hangupAll client).
Proof.
  unfold handle_hangupAll. shaped.
  destruct (js_or_strings (message e) "Failed to hang up all calls") as [s ->].
  failure_payload.
Qed.

Lemma handle_otherwise_shape callerId action requestData :
  returns_r well_shaped (handle_otherwise callerId action requestData).
Proof. unfold handle_otherwise, debugTwiML, unknown_action_response. shaped. Qed.

Lemma dispatch_shape env client url_searchParams requestData c :
  returns well_shaped (dispatch env client url_searchParams requestData c).
Proof.
  unfold dispatch, handle_getConfig. cbv zeta.
  repeat first
    [ apply returns_lift, handle_clientCall_shape
    | apply handle_makeCall_shape
    | apply returns_lift, handle_statusCallback_shape
    | apply returns_lift, handle_dialStatus_shape
    | apply handle_checkStatus_shape
    | apply handle_endCall_shape
    | apply handle_hangupAll_shape
    | apply returns_lift, handle_otherwise_shape
    | apply xml_response_well_shaped
    | success_payload
    | returns_step ].
Qed.

Lemma top_level_catch_shape (error : JsError) : well_shaped (top_level_catch error).
Proof.
  unfold top_level_catch. destruct (_ && _); [apply xml_response_well_shaped|].
  destruct (js_or_strings (message error) "An unexpected error occurred") as [s ->].
  exists "application/json". split; [reflexivity|]. right. split; [reflexivity|].
  eexists _, false. split; [reflexivity|]. split; [apply list_elem_of_here|].
  intros _. eexists. apply list_elem_of_further, list_elem_of_here.
Qed.

(** X10.  The shape of every answer.  Whatever the request (other than
    a preflight), the configuration and the provider's answers, the
    response carries the four CORS headers followed by a content type,
    and that type agrees with the body: a markup text under text/xml, or
    under application/json a payload that has a boolean [success] field
    and, whenever [success] is false, a string [error] field. *)
Theorem serve_well_shaped
  (env : Env) (client : Provider) (req : Request) (log : Log) :
  method req ≠ "OPTIONS" →
  ∃ response log',
    serve env client req log = (Ok response, log') ∧ well_shaped response.
Proof.
  intros Hmethod. unfold serve. apply String.eqb_neq in Hmethod. rewrite Hmethod.
  apply (try_catch_eff_total well_shaped).
  - returns_step. returns_step. apply dispatch_shape.
  - apply top_level_catch_shape.
Qed.

Lemma serve_well_shaped_witness :
  ∃ response log',
    serve Sample.env Sample.provider
      (Sample.form_request [("action", "hangupAll")] EmptyString) []
    = (Ok response, log')
    ∧ well_shaped response.
Proof.
  apply (serve_well_shaped Sample.env Sample.provider
           (Sample.form_request [("action", "hangupAll")] EmptyString) []).
  discriminate.
Defined.

(** ** The order of the classification rules *)

Lemma get_prop_object (o : gmap string JsVal) (key : string) :
  get_prop (VObj o) key = Ok (field o key).
Proof. reflexivity. Qed.

(** X11.  Classification when no heuristic fires.  For a parameter map
    with no CallSid, no ConferenceSid, no StatusCallbackEvent and no
    From, the action is the URL's [action] parameter when it is
    non-empty; else the body's [action] field when it is truthy; else
    [incomingCall] when a phoneNumber is present; else it stays what the
    URL gave ([null], or the empty text).  A URL action is never
    replaced by the body's. *)
Theorem classify_explicit_action
  (url_searchParams : list (string * string)) (o : gmap string JsVal) :
  truthy (field o "CallSid") = false →
  truthy (field o "ConferenceSid") = false →
  field o "StatusCallbackEvent" = VUndef →
  truthy (field o "From") = false →
  let fromUrl := URLSearchParams.get url_searchParams "action" in
  ∃ c, classify url_searchParams (VObj o) = Ok c
       ∧ truthy (isClientInitiatedCall c) = false
       ∧ action c
         = (if truthy fromUrl then fromUrl
            else if truthy (field o "action") then field o "action"
            else if truthy (field o "phoneNumber") then VStr "incomingCall"
            else fromUrl).
Proof.
  intros HCallSid HConf Hevent HFrom fromUrl.
  unfold classify. rewrite !get_prop_object. cbn [mbind Result_bind]. fold fromUrl.
  assert (∀ x, truthy (js_and (field o "CallSid") x) = false) as Hand
    by (intros x; unfold js_and; now rewrite HCallSid).
  assert (∀ b, js_or (field o "ConferenceSid") (VBool b) = VBool b) as Hor
    by (intros b; unfold js_or; now rewrite HConf).
  cbv zeta. rewrite !Hand, !Hor, Hevent, HFrom.
  cbn [andb truthy call_includes_opt mbind Result_bind].
  match goal with
  | |- context [strict_eq_str ?r "conferenceStatus"] => set (resolved := r)
  end.
  assert (resolved
          = (if truthy fromUrl then fromUrl
             else if truthy (field o "action") then field o "action"
             else if truthy (field o "phoneNumber") then VStr "incomingCall"
             else fromUrl)) as Hresolved.
  { subst resolved. destruct (truthy fromUrl) eqn:E1; simpl.
    - rewrite E1. reflexivity.
    - destruct (truthy (field o "action")) eqn:E2; simpl.
      + rewrite E2. reflexivity.
      + rewrite E1. reflexivity. }
  rewrite <- Hresolved.
  destruct (strict_eq_str resolved "conferenceStatus") eqn:Econf;
    cbn [mbind Result_bind]; (eexists; split; [reflexivity|]; split; [exact HFrom|]);
    cbn [action]; rewrite HFrom; cbn [truthy].
  - apply strict_eq_str_true in Econf. now rewrite Econf.
  - reflexivity.
Qed.

Lemma classify_explicit_action_witness :
  ∃ c, classify [("action", "getConfig")]
         (VObj (list_to_map [("action", VStr "hangupAll")])) = Ok c
       ∧ truthy (isClientInitiatedCall c) = false
       ∧ action c = VStr "getConfig".
Proof.
  apply (classify_explicit_action [("action", "getConfig")]
           (list_to_map [("action", VStr "hangupAll")])); reflexivity.
Defined.

(** X12.  The status inference overrides an explicit action.  When a
    CallSid comes with a CallStatus, a call-progress CallbackSource or a
    statusCallback flag (in the URL or in the body), the CallSid and the
    CallStatus (when there is one) convert to text for the log, and the
    request is neither a conference callback nor a client call, the
    action is [statusCallback], whatever action the URL or the body asked
    for: a request to the dial-result URL [?action=dialStatus] that
    carries a CallSid and a CallStatus is a status callback, not a dial
    result. *)
Theorem classify_status_callback
  (url_searchParams : list (string * string)) (o : gmap string JsVal) :
  truthy (field o "CallSid") = true →
  truthy (field o "CallStatus") = true
  ∨ field o "CallbackSource" = VStr "call-progress-events"
  ∨ truthy (URLSearchParams.get url_searchParams "statusCallback") = true
  ∨ truthy (field o "statusCallback") = true →
  (truthy (field o "CallStatus") = true →
   converts (field o "CallSid") && converts (field o "CallStatus") = true) →
  truthy (field o "ConferenceSid") = false →
  field o "StatusCallbackEvent" = VUndef →
  truthy (field o "From") = false →
  ∃ c, classify url_searchParams (VObj o) = Ok c
       ∧ action c = VStr "statusCallback"
       ∧ truthy (isClientInitiatedCall c) = false.
Proof.
  intros HCallSid Hstatus Hlog HConf Hevent HFrom.
  unfold classify. rewrite !get_prop_object. cbn [mbind Result_bind]. cbv zeta.
  rewrite detailed_status_logged, HCallSid. cbn [andb].
  assert ((if truthy (field o "CallStatus")
           then log_detailed_status (field o "CallSid") (field o "CallStatus")
           else Ok ()) = Ok ()) as ->.
  { destruct (truthy (field o "CallStatus")); [|reflexivity].
    apply log_detailed_status_converts, Hlog. reflexivity. }
  assert (truthy
            (js_and (field o "CallSid")
               (js_or (field o "CallStatus")
                  (js_or (VBool (strict_eq_str (field o "CallbackSource")
                                   "call-progress-events"))
                     (js_or (URLSearchParams.get url_searchParams "statusCallback")
                        (field o "statusCallback"))))) = true) as ->.
  { unfold js_and. rewrite HCallSid. unfold js_or.
    destruct (truthy (field o "CallStatus")) eqn:E1; [exact E1|].
    destruct Hstatus as [H|[H|[H|H]]]; [discriminate H| | |].
    - rewrite H. reflexivity.
    - destruct (truthy (VBool _)) eqn:E2; [exact E2|]. now rewrite H.
    - destruct (truthy (VBool _)) eqn:E2; [exact E2|].
      destruct (truthy (URLSearchParams.get _ _)) eqn:E3; [exact E3 | exact H]. }
  cbn [mbind Result_bind].
  rewrite Hevent, HFrom. unfold js_or at 1. rewrite HConf.
  cbn [strict_eq_str String.eqb truthy call_includes_opt mbind Result_bind].
  change (strict_eq_str (VStr "statusCallback") "conferenceStatus") with false.
  cbn [truthy call_includes_opt mbind Result_bind]. rewrite HFrom.
  eexists. split; [reflexivity|]. split; [reflexivity | exact HFrom].
Qed.

Lemma classify_status_callback_witness :
  ∃ c, classify [("action", "dialStatus"); ("leadId", "42")]
         (VObj (list_to_map [ ("CallSid", VStr "CA123");
                              ("CallStatus", VStr "in-progress");
                              ("DialCallStatus", VStr "busy") ])) = Ok c
       ∧ action c = VStr "statusCallback"
       ∧ truthy (isClientInitiatedCall c) = false.
Proof.
  apply (classify_status_callback [("action", "dialStatus"); ("leadId", "42")]
           (list_to_map [ ("CallSid", VStr "CA123");
                          ("CallStatus", VStr "in-progress");
                          ("DialCallStatus", VStr "busy") ]));
    first [reflexivity | left; reflexivity].
Defined.
(** ** The configuration gates of the dispatch *)

Lemma client_flag_off (req : Request) requestData c (name : string) :
  classification req = Ok (requestData, c) →
  action c = VStr name → name ≠ "clientCall" →
  truthy (isClientInitiatedCall c) = false.
Proof.
  intros Hc Haction Hname.
  destruct (truthy (isClientInitiatedCall c)) eqn:E; [|reflexivity].
  apply classification_classify in Hc.
  rewrite (classify_client_flag _ _ _ Hc E) in Haction. congruence.
Qed.

(** X13.  Actions served before the credentials are looked at.  With a
    caller ID configured, a request resolved to [getConfig] is answered
    with the caller ID, and one resolved to [conferenceStatus] with the
    empty markup document, whether or not the account credentials are
    set; the provider library is not even initialised, and no request is
    issued. *)
Theorem serve_before_credentials
  (env : Env) (client : Provider) (req : Request) (log : Log)
  (requestData : JsVal) (c : Classified) (callerId : string) :
  method req ≠ "OPTIONS" →
  classification req = Ok (requestData, c) →
  TWILIO_PHONE_NUMBER env = Some callerId →
  Str.is_empty callerId = false →
  (action c = VStr "getConfig" →
   serve env client req log
   = (Ok (json_response
            [ ("twilioPhoneNumber", VStr callerId); ("success", VBool true) ]), log))
  ∧ (action c = VStr "conferenceStatus" →
     serve env client req log = (Ok (xml_response (TwiML.toString [])), log)).
Proof.
  intros Hmethod Hc Hphone Hcaller.
  rewrite (serve_classified env client req log _ _ Hmethod Hc).
  unfold try_catch_eff, dispatch. rewrite Hphone. cbv zeta. cbn [env_value truthy].
  rewrite Hcaller. cbn [negb]. split; intros Haction.
  - rewrite (client_flag_off req _ _ _ Hc Haction) by discriminate.
    rewrite Haction. reflexivity.
  - rewrite Haction. reflexivity.
Qed.

Lemma serve_before_credentials_witness :
  serve Sample.env_without_credentials Sample.provider_refusing_credentials
    (Sample.form_request [("action", "getConfig")] EmptyString) []
  = (Ok (json_response
           [ ("twilioPhoneNumber", VStr "+15550001111"); ("success", VBool true) ]), [])
  ∧ serve Sample.env_without_credentials Sample.provider_refusing_credentials
      (Sample.form_request [] "ConferenceSid=CF1&CallSid=CA1&CallStatus=completed") []
    = (Ok (xml_response (TwiML.toString [])), []).
Proof.
  split.
  - eapply (serve_before_credentials Sample.env_without_credentials);
      [discriminate | reflexivity | reflexivity | reflexivity | reflexivity].
  - eapply (serve_before_credentials Sample.env_without_credentials);
      [discriminate | reflexivity | reflexivity | reflexivity | reflexivity].
Defined.

(** X14.  Every other action needs the credentials, the callbacks
    included.  With a caller ID but without the account identifier or the
    auth secret, a request whose resolved action is none of
    [conferenceStatus], [clientCall] and [getConfig] is answered with the
    spoken credentials apology: a status callback, a dial-result callback
    or an unknown action just as makeCall.  Nothing is asked of the
    provider. *)
Theorem serve_without_credentials
  (env : Env) (client : Provider) (req : Request) (log : Log)
  (requestData : JsVal) (c : Classified) :
  method req ≠ "OPTIONS" →
  classification req = Ok (requestData, c) →
  present (TWILIO_PHONE_NUMBER env) →
  absent (TWILIO_ACCOUNT_SID env) ∨ absent (TWILIO_AUTH_TOKEN env) →
  strict_eq_str (action c) "conferenceStatus" = false →
  strict_eq_str (action c) "clientCall" = false →
  strict_eq_str (action c) "getConfig" = false →
  serve env client req log = (Ok credentials_apology, log).
Proof.
  intros Hmethod Hc Hphone Hcreds Hconf Hclient Hconfig.
  rewrite (serve_classified env client req log _ _ Hmethod Hc).
  assert (truthy (isClientInitiatedCall c) = false) as Hflag.
  { destruct (truthy (isClientInitiatedCall c)) eqn:E; [|reflexivity].
    apply classification_classify in Hc.
    rewrite (classify_client_flag _ _ _ Hc E) in Hclient. discriminate Hclient. }
  unfold try_catch_eff, dispatch, present, absent in *. cbv zeta.
  rewrite Hphone, Hconf, Hclient, Hflag, Hconfig. cbn [negb orb].
  assert (negb (truthy (env_value (TWILIO_ACCOUNT_SID env)))
          || negb (truthy (env_value (TWILIO_AUTH_TOKEN env))) = true) as ->.
  { destruct Hcreds as [-> | ->]; [reflexivity | apply orb_true_r]. }
  reflexivity.
Qed.

Lemma serve_without_credentials_witness :
  serve Sample.env_without_credentials Sample.provider
    (Sample.form_request [] "CallSid=CA123&CallStatus=ringing") []
  = (Ok credentials_apology, []).
Proof.
  eapply (serve_without_credentials Sample.env_without_credentials);
    [ discriminate | reflexivity | reflexivity | left; reflexivity
    | reflexivity | reflexivity | reflexivity ].
Defined.

(** X15.  A provider library that refuses the credentials.  With the
    configuration present, when initialising the client throws, a request
    whose resolved action is none of [conferenceStatus], [clientCall] and
    [getConfig] is answered by the top-level handler with that error,
    before any handler runs and without a request to the provider. *)
Theorem serve_client_initialisation_fails
  (env : Env) (client : Provider) (req : Request) (log : Log)
  (requestData : JsVal) (c : Classified)
  (accountSid authToken : string) (error : JsError) :
  method req ≠ "OPTIONS" →
  classification req = Ok (requestData, c) →
  present (TWILIO_PHONE_NUMBER env) →
  TWILIO_ACCOUNT_SID env = Some accountSid → Str.is_empty accountSid = false →
  TWILIO_AUTH_TOKEN env = Some authToken → Str.is_empty authToken = false →
  twilio_init client accountSid authToken = Throw error →
  strict_eq_str (action c) "conferenceStatus" = false →
  strict_eq_str (action c) "clientCall" = false →
  strict_eq_str (action c) "getConfig" = false →
  serve env client req log = (Ok (top_level_catch error), log).
Proof.
  intros Hmethod Hc Hphone Hsid Hsid' Htoken Htoken' Hinit Hconf Hclient Hconfig.
  rewrite (serve_classified env client req log _ _ Hmethod Hc).
  assert (truthy (isClientInitiatedCall c) = false) as Hflag.
  { destruct (truthy (isClientInitiatedCall c)) eqn:E; [|reflexivity].
    apply classification_classify in Hc.
    rewrite (classify_client_flag _ _ _ Hc E) in Hclient. discriminate Hclient. }
  unfold try_catch_eff, dispatch, present in *. cbv zeta.
  rewrite Hphone, Hconf, Hclient, Hflag, Hconfig, Hsid, Htoken.
  cbn [negb orb env_value truthy env_text from_option id]. rewrite Hsid', Htoken'. cbn [negb orb].
  unfold mbind, Eff_bind, lift. rewrite Hinit. reflexivity.
Qed.

Lemma serve_client_initialisation_fails_witness :
  serve Sample.env Sample.provider_refusing_credentials
    (Sample.form_request [] "CallSid=CA123&CallStatus=completed") []
  = (Ok (top_level_catch (mkError "accountSid must start with AC")), []).
Proof.
  eapply (serve_client_initialisation_fails Sample.env
            Sample.provider_refusing_credentials);
    [ discriminate | reflexivity | reflexivity | reflexivity | reflexivity
    | reflexivity | reflexivity | reflexivity | reflexivity | reflexivity
    | reflexivity ].
Defined.
(** ** The final branch: bare client calls and unknown actions *)

Lemma classify_flag_value url_searchParams requestData c (From phoneNumber : JsVal) :
  classify url_searchParams requestData = Ok c →
  get_prop requestData "From" = Ok From →
  get_prop requestData "phoneNumber" = Ok phoneNumber →
  (truthy From = false → isClientInitiatedCall c = From)
  ∧ (∀ caller, From = VStr caller → truthy From = true →
     isClientInitiatedCall c
     = js_and (VBool (Str.startsWith caller "client:")) phoneNumber).
Proof.
  unfold classify. intros H HFrom Hphone. bind_inv H. cbv zeta in H.
  injection H as <-. cbn [isClientInitiatedCall].
  repeat match goal with
         | H1 : get_prop requestData ?k = Ok ?a, H2 : get_prop requestData ?k = Ok ?b |- _ =>
             rewrite H1 in H2; injection H2 as ->
         end.
  split.
  - intros Hfalsy.
    match goal with
    | Hflag : (if truthy ?v then _ else _) = Ok _ |- _ =>
        rewrite Hfalsy in Hflag; now injection Hflag as <-
    end.
  - intros caller -> Htruthy.
    match goal with
    | Hflag : (if truthy ?v then _ else _) = Ok _ |- _ =>
        rewrite Htruthy in Hflag; cbn [call_startsWith mbind Result_bind] in Hflag;
        now injection Hflag as <-
    end.
Qed.

(** X16.  A client caller in the final branch has no number.  When a
    request has been classified without the client-call flag although
    its From field starts with [client:], its phoneNumber is missing or
    empty; the final branch then speaks the no-number message, pauses
    and hangs up.  So after classification the dial instruction of the
    final branch is never produced. *)
Theorem bare_client_call_has_no_number
  (url_searchParams : list (string * string)) (requestData : JsVal) (c : Classified)
  (caller : string) (TWILIO_PHONE_NUMBER : string) (resolved : JsVal) :
  classify url_searchParams requestData = Ok c →
  truthy (isClientInitiatedCall c) = false →
  get_prop requestData "From" = Ok (VStr caller) →
  Str.startsWith caller "client:" = true →
  (∃ phoneNumber,
     get_prop requestData "phoneNumber" = Ok phoneNumber ∧ truthy phoneNumber = false)
  ∧ handle_otherwise TWILIO_PHONE_NUMBER resolved requestData
    = Ok (xml_response
            (TwiML.toString
               [ TwiML.Say "No phone number was provided for this call. Please specify a phone number to call.";
                 TwiML.Pause [("length", "1")];
                 TwiML.Hangup ])).
Proof.
  intros Hclassify Hflag HFrom Hprefix.
  assert (truthy (VStr caller) = true) as Hcaller
    by (destruct caller; [discriminate Hprefix | reflexivity]).
  assert (∃ phoneNumber, get_prop requestData "phoneNumber" = Ok phoneNumber)
    as [phoneNumber Hphone]
    by (destruct requestData; try discriminate HFrom; eauto).
  destruct (classify_flag_value _ _ _ _ _ Hclassify HFrom Hphone) as [_ Hvalue].
  rewrite (Hvalue caller eq_refl Hcaller), Hprefix in Hflag.
  unfold js_and in Hflag. cbn [truthy] in Hflag.
  split; [eauto|].
  unfold handle_otherwise. rewrite HFrom. cbn [mbind Result_bind].
  rewrite Hcaller. cbn [call_startsWith mbind Result_bind]. rewrite Hprefix, Hphone.
  cbn [mbind Result_bind]. rewrite Hflag. reflexivity.
Qed.

Lemma bare_client_call_has_no_number_witness :
  (∃ phoneNumber,
     get_prop (Sample.obj [("From", VStr "client:abc"); ("phoneNumber", VStr EmptyString)])
       "phoneNumber" = Ok phoneNumber
     ∧ truthy phoneNumber = false)
  ∧ handle_otherwise "+15550001111" VNull
      (Sample.obj [("From", VStr "client:abc"); ("phoneNumber", VStr EmptyString)])
    = Ok (xml_response
            (TwiML.toString
               [ TwiML.Say "No phone number was provided for this call. Please specify a phone number to call.";
                 TwiML.Pause [("length", "1")];
                 TwiML.Hangup ])).
Proof.
  eapply (bare_client_call_has_no_number [] _ _ "client:abc"); reflexivity.
Defined.

(** X17.  Unknown actions.  With the configuration present and the
    client initialised, a request resolved to a non-empty action name
    that [serve] has no branch for, and that is no client caller, is
    answered with the JSON diagnostic naming that action; nothing is
    asked of the provider.  The name [incomingCall], which the classifier
    itself gives to a request that carries only a phoneNumber, is one of
    them. *)
Theorem serve_unknown_action
  (env : Env) (client : Provider) (req : Request) (log : Log)
  (o : gmap string JsVal) (c : Classified) (name accountSid authToken : string) :
  method req ≠ "OPTIONS" →
  classification req = Ok (VObj o, c) →
  action c = VStr name →
  Str.is_empty name = false →
  is_handled name = false →
  truthy (field o "From") = false →
  present (TWILIO_PHONE_NUMBER env) →
  TWILIO_ACCOUNT_SID env = Some accountSid → Str.is_empty accountSid = false →
  TWILIO_AUTH_TOKEN env = Some authToken → Str.is_empty authToken = false →
  twilio_init client accountSid authToken = Ok () →
  serve env client req log
  = (Ok (json_response
           [ ("success", VBool false);
             ("error",
              VStr ("The requested action " +:+ name +:+ " is not supported.")) ]),
     log).
Proof.
  intros Hmethod Hc Haction Hname Hnot HFrom Hphone Hsid Hsid' Htoken Htoken' Hinit.
  rewrite (serve_classified env client req log _ _ Hmethod Hc).
  unfold is_handled, handled_actions in Hnot. cbn [existsb] in Hnot.
  repeat (apply orb_false_iff in Hnot as [? Hnot]).
  assert (truthy (isClientInitiatedCall c) = false) as Hflag.
  { apply (client_flag_off req _ _ name Hc Haction). intros ->. discriminate. }
  unfold try_catch_eff, dispatch, present in *. cbv zeta.
  rewrite Hphone, Haction, Hflag, Hsid, Htoken. cbn [strict_eq_str].
  repeat match goal with
         | Hk : String.eqb name _ = false |- _ => rewrite Hk; clear Hk
         end.
  cbn [negb orb env_value truthy env_text from_option id]. rewrite Hsid', Htoken', Hname.
  cbn [negb orb]. unfold mbind, Eff_bind, lift. rewrite Hinit.
  unfold handle_otherwise, field in *. cbn [get_prop mbind Result_bind].
  rewrite HFrom. reflexivity.
Qed.

Lemma serve_unknown_action_witness :
  serve Sample.env Sample.provider (Sample.form_request [] "phoneNumber=5551234567") []
  = (Ok (json_response
           [ ("success", VBool false);
             ("error",
              VStr "The requested action incomingCall is not supported.") ]),
     []).
Proof.
  eapply (serve_unknown_action Sample.env Sample.provider
            (Sample.form_request [] "phoneNumber=5551234567") [] _ _ "incomingCall");
    [ discriminate | reflexivity | reflexivity | reflexivity | reflexivity
    | reflexivity | reflexivity | reflexivity | reflexivity | reflexivity
    | reflexivity | reflexivity ].
Defined.
(** ** Destinations *)

Lemma starts_with_plus (s : string) : Str.startsWith ("+" +:+ s) "+" = true.
Proof. unfold Str.startsWith. apply (prefix_append "+" s). Qed.

(** X18.  Formatting is idempotent.  The formatted destination either
    starts with [+] or holds [client:], and formatting it again leaves
    it as it is: the markup's number and the number given to the
    provider as [to] never differ by a second pass. *)
Theorem formattedPhoneNumber_idempotent (s formatted : string) :
  formattedPhoneNumber (VStr s) = Ok formatted →
  (Str.startsWith formatted "+" || Str.includes formatted "client:") = true
  ∧ formattedPhoneNumber (VStr formatted) = Ok formatted.
Proof.
  unfold formattedPhoneNumber. cbn [call_startsWith call_includes mbind Result_bind].
  destruct (Str.startsWith s "+") eqn:Eplus.
  - intros [= <-]. rewrite Eplus. split; reflexivity.
  - cbn [mbind Result_bind]. destruct (Str.includes s "client:") eqn:Eclient.
    + intros [= <-]. rewrite Eplus, Eclient. cbn [mbind Result_bind negb andb].
      split; [apply orb_true_r | reflexivity].
    + intros [= <-]. rewrite starts_with_plus. split; reflexivity.
Qed.

Lemma formattedPhoneNumber_idempotent_witness :
  (Str.startsWith "+5551234567" "+" || Str.includes "+5551234567" "client:") = true
  ∧ formattedPhoneNumber (VStr "+5551234567") = Ok "+5551234567".
Proof.
  apply (formattedPhoneNumber_idempotent "(555) 123-4567" "+5551234567"). reflexivity.
Defined.

(** X19.  A destination that is no string.  When the phoneNumber field
    is truthy but not a string (a number, an array, an object, a file),
    [makeCall] places no call and answers a failure payload: the handler
    catches whatever is thrown.  When the destination, the client name
    and the lead reference convert to text for the log, what is thrown is
    the failure of the formatting, and the payload carries its message.
    The client-call handler does not catch that failure: the error leaves
    the handler, for the top-level handler to answer. *)
Theorem non_string_destination
  (client : Provider) (TWILIO_PHONE_NUMBER : string)
  (requestData phoneNumber browserClientName leadId : JsVal) (log : Log) :
  get_prop requestData "phoneNumber" = Ok phoneNumber →
  get_prop requestData "browserClientName" = Ok browserClientName →
  get_prop requestData "leadId" = Ok leadId →
  truthy phoneNumber = true →
  (∀ s, phoneNumber ≠ VStr s) →
  (∃ shown,
     handle_makeCall client TWILIO_PHONE_NUMBER requestData log
     = (Ok (json_response [ ("success", VBool false); ("error", VStr shown) ]), log)
     ∧ (converts phoneNumber && converts browserClientName && converts leadId = true →
        shown = "phoneNumber.startsWith is not a function"))
  ∧ handle_clientCall TWILIO_PHONE_NUMBER requestData
    = Throw (TypeError "phoneNumber.startsWith is not a function").
Proof.
  intros Hphone Hname Hlead Htruthy Hnot.
  assert (formattedPhoneNumber phoneNumber
          = Throw (TypeError "phoneNumber.startsWith is not a function")) as Hformat.
  { destruct phoneNumber; try discriminate Htruthy; try reflexivity.
    exfalso. eapply Hnot. reflexivity. }
  assert (∀ e : JsError, ∃ shown,
            js_or (VStr (message e)) (VStr "Failed to make call") = VStr shown)
    as Hshown by (intros e; apply js_or_strings).
  split.
  - unfold handle_makeCall, lift, mbind, Eff_bind. rewrite Hphone, Hname, Hlead.
    rewrite Htruthy. cbn [negb]. unfold try_catch_eff, mbind, Eff_bind.
    destruct (converts phoneNumber) eqn:C1.
    2:{ destruct (log_template_throws [phoneNumber; VStr TWILIO_PHONE_NUMBER]) as [e ->];
          [cbn [forallb]; now rewrite C1|].
        destruct (Hshown e) as [shown ->]. exists shown. split; [reflexivity|].
        discriminate. }
    rewrite (log_template_converts [phoneNumber; VStr TWILIO_PHONE_NUMBER])
      by (cbn [forallb]; now rewrite C1).
    destruct (converts browserClientName) eqn:C2.
    2:{ destruct (log_template_one_throws (js_or browserClientName (VStr "not provided")))
          as [e ->]; [now rewrite converts_defaulted|].
        destruct (Hshown e) as [shown ->]. exists shown. split; [reflexivity|].
        discriminate. }
    rewrite (log_template_converts [js_or browserClientName _])
      by (cbn [forallb]; now rewrite converts_defaulted, C2).
    destruct (converts leadId) eqn:C3.
    2:{ destruct (log_template_one_throws (js_or leadId (VStr "not provided")))
          as [e ->]; [now rewrite converts_defaulted|].
        destruct (Hshown e) as [shown ->]. exists shown. split; [reflexivity|].
        discriminate. }
    rewrite (log_template_converts [js_or leadId _])
      by (cbn [forallb]; now rewrite converts_defaulted, C3).
    rewrite Hformat. eexists. split; reflexivity.
  - unfold handle_clientCall. rewrite Hphone, Hlead.
    cbn [mbind Result_bind]. rewrite Htruthy. cbn [negb]. rewrite Hformat. reflexivity.
Qed.

Lemma non_string_destination_witness :
  handle_makeCall Sample.provider "+15550001111"
    (Sample.obj [("action", VStr "makeCall"); ("phoneNumber", VNum 5551234567)]) []
  = (Ok (json_response
           [ ("success", VBool false);
             ("error", VStr "phoneNumber.startsWith is not a function") ]), [])
  ∧ handle_clientCall "+15550001111"
      (Sample.obj [("action", VStr "makeCall"); ("phoneNumber", VNum 5551234567)])
    = Throw (TypeError "phoneNumber.startsWith is not a function").
Proof.
  destruct (non_string_destination Sample.provider "+15550001111"
              (Sample.obj [("action", VStr "makeCall"); ("phoneNumber", VNum 5551234567)])
              (VNum 5551234567) VUndef VUndef [] eq_refl eq_refl eq_refl eq_refl
              ltac:(discriminate))
    as [(shown & Hrun & Hmessage) Hclient].
  split; [|exact Hclient].
  rewrite Hrun, (Hmessage eq_refl). reflexivity.
Defined.

(** ** Ending calls *)

(** X20.  [endCall] on an identifier other than [browser-call] (the
    placeholder [pending-sid] included).  When the identifier converts to
    text for the log, the handler issues exactly one update to the
    provider for that identifier; it answers [Call ended] when the update
    succeeds and the failure payload with the provider's message when it
    fails.  When the identifier does not convert, the log line throws in
    the [try] and again in the [catch]: the handler throws and issues
    nothing.  Without an identifier it answers the validation error and
    issues nothing. *)
Theorem handle_endCall_terminates
  (client : Provider) (requestData callSid : JsVal) (log : Log) :
  get_prop requestData "callSid" = Ok callSid →
  (truthy callSid = false →
   handle_endCall client requestData log
   = (Ok (json_response
            [ ("success", VBool false);
              ("error", VStr "Call SID is required to end a call") ]), log))
  ∧ (truthy callSid = true → strict_eq_str callSid "browser-call" = false →
     if converts callSid then
       ∃ response,
         handle_endCall client requestData log
         = (Ok response, log ++ [CallsUpdate callSid])
         ∧ match (update_answer client log callSid).2 with
           | Ok _ =>
               response = json_response
                            [ ("success", VBool true); ("message", VStr "Call ended") ]
           | Throw error =>
               response = json_response
                            [ ("success", VBool false); ("error", VStr (message error)) ]
           end
     else
       ∃ error, handle_endCall client requestData log = (Throw error, log)).
Proof.
  intros Hget. split.
  - intros Hfalsy. unfold handle_endCall, lift, mbind, Eff_bind.
    rewrite Hget, Hfalsy. reflexivity.
  - intros Htruthy Hsentinel. unfold handle_endCall, lift, mbind, Eff_bind.
    rewrite Hget, Htruthy. cbn [negb]. unfold try_catch_eff. rewrite Hsentinel.
    destruct (converts callSid) eqn:Hconv.
    + rewrite (log_template_converts [callSid]) by (cbn [forallb]; now rewrite Hconv).
      unfold calls_update, await, lift.
      destruct (update_answer client log callSid) as [t [u|error]];
        eexists; split; reflexivity.
    + destruct (log_template_one_throws callSid Hconv) as [e ->]. eauto.
Qed.

Lemma handle_endCall_terminates_witness :
  ∃ response,
    handle_endCall Sample.provider (Sample.obj [("callSid", VStr "pending-sid")]) []
    = (Ok response, [] ++ [CallsUpdate (VStr "pending-sid")])
    ∧ response = json_response
                   [ ("success", VBool true); ("message", VStr "Call ended") ].
Proof.
  destruct (handle_endCall_terminates Sample.provider
              (Sample.obj [("callSid", VStr "pending-sid")]) (VStr "pending-sid") []
              eq_refl) as [_ Hend].
  destruct (Hend eq_refl eq_refl) as (response & Hrun & Hanswer).
  exists response. split; [exact Hrun | exact Hanswer].
Defined.

(** X21.  [hangupAll] when there is nothing to hang up.  When the
    provider's listing fails, no terminate instruction is issued and the
    answer is the failure payload with the listing's message (or
    [Failed to hang up all calls] for an empty one); when it lists no
    call, the answer reports zero terminated calls.  In both cases the
    listing is the only request. *)
Theorem handle_hangupAll_nothing_to_do (client : Provider) (log : Log) :
  (∀ error, list_answer client log = Throw error →
   handle_hangupAll client log
   = (Ok (json_response
            [ ("success", VBool false);
              ("error", VStr (if Str.is_empty (message error)
                              then "Failed to hang up all calls"
                              else message error)) ]),
      log ++ [CallsList]))
  ∧ (list_answer client log = Ok [] →
     handle_hangupAll client log
     = (Ok (json_response
              [ ("success", VBool true);
                ("message", VStr "Terminated 0 active calls") ]),
        log ++ [CallsList])).
Proof.
  split.
  - intros [m] Hlist.
    unfold handle_hangupAll, try_catch_eff, mbind, Eff_bind, calls_list.
    rewrite Hlist. destruct m; reflexivity.
  - intros Hlist.
    unfold handle_hangupAll, try_catch_eff, mbind, Eff_bind, calls_list.
    rewrite Hlist. reflexivity.
Qed.

Lemma handle_hangupAll_nothing_to_do_witness :
  handle_hangupAll Sample.provider_unreachable []
  = (Ok (json_response
           [ ("success", VBool false); ("error", VStr "connect ECONNREFUSED") ]),
     [] ++ [CallsList])
  ∧ handle_hangupAll Sample.provider_idle []
    = (Ok (json_response
             [ ("success", VBool true); ("message", VStr "Terminated 0 active calls") ]),
       [] ++ [CallsList]).
Proof.
  split.
  - apply (proj1 (handle_hangupAll_nothing_to_do Sample.provider_unreachable [])
             (mkError "connect ECONNREFUSED")).
    reflexivity.
  - apply (proj2 (handle_hangupAll_nothing_to_do Sample.provider_idle [])).
    reflexivity.
Defined.

(** ** Repeated parameters *)

(** The assignments keep, for each key, the value of its last entry. *)
Lemma assign_all_last (before after : list (string * JsVal)) (key : string) (v : JsVal)
  (obj : gmap string JsVal) :
  key ∉ map fst after →
  assign_all (before ++ (key, v) :: after) obj !! key = Some v.
Proof.
  intros Hafter. unfold assign_all. rewrite fold_left_app. simpl.
  change (assign_all after
            (<[key:=v]> (fold_left (λ acc kv, <[kv.1:=kv.2]> acc) before obj)) !! key
          = Some v).
  rewrite assign_all_other by exact Hafter. apply lookup_insert_eq.
Qed.

Lemma as_values_keys (entries : list (string * string)) :
  map fst (as_values entries) = map fst entries.
Proof. unfold as_values. rewrite map_map. reflexivity. Qed.

(** X22.  The merged parameters of a status callback, for a key the body
    does not give: it holds the value of the key's last occurrence in the
    URL query (a repeated parameter is overwritten by the later one), and
    it is absent when the URL does not give it either. *)
Theorem callbackData_from_url
  (url_searchParams : list (string * string)) (requestData : JsVal) (key : string) :
  own_props requestData !! key = None →
  (∀ before after value,
     url_searchParams = before ++ (key, value) :: after →
     key ∉ map fst after →
     callbackData url_searchParams requestData !! key = Some (VStr value))
  ∧ (key ∉ map fst url_searchParams →
     callbackData url_searchParams requestData !! key = None).
Proof.
  intros Hbody. unfold callbackData, object_spread. simpl.
  split.
  - intros before after value -> Hafter.
    rewrite lookup_union_r by exact Hbody. rewrite lookup_union_l by apply lookup_empty.
    unfold as_values. rewrite map_app. simpl.
    apply assign_all_last. rewrite <- as_values_keys in Hafter. exact Hafter.
  - intros Hnot.
    rewrite lookup_union_r by exact Hbody. rewrite lookup_union_l by apply lookup_empty.
    rewrite assign_all_other; [apply lookup_empty|]. now rewrite as_values_keys.
Qed.

Lemma callbackData_from_url_witness :
  callbackData [("CallStatus", "ringing"); ("leadId", "7"); ("CallStatus", "completed")]
    (Sample.obj [("CallSid", VStr "CA123")]) !! "CallStatus"
  = Some (VStr "completed").
Proof.
  apply (proj1 (callbackData_from_url
                  [("CallStatus", "ringing"); ("leadId", "7"); ("CallStatus", "completed")]
                  (Sample.obj [("CallSid", VStr "CA123")]) "CallStatus" eq_refl)
           [("CallStatus", "ringing"); ("leadId", "7")] [] "completed").
  - reflexivity.
  - apply not_elem_of_nil.
Defined.

(** X23.  The fields of a form body.  For a body declared a form that
    the platform decodes, the normalised map holds every field of the
    form and nothing else; a field sent more than once keeps the value
    sent last. *)
Theorem parse_body_form_fields (req : Request) (formData : list (string * JsVal)) :
  Str.includes (default EmptyString (content_type req)) "application/json" = false →
  Str.includes (default EmptyString (content_type req)) "application/x-www-form-urlencoded"
  || Str.includes (default EmptyString (content_type req)) "multipart/form-data" = true →
  body_formData req = Ok formData →
  ∃ requestData,
    parse_body req = Ok (VObj requestData)
    ∧ (∀ key, key ∈ map fst formData ↔ is_Some (requestData !! key))
    ∧ (∀ before after key value,
         formData = before ++ (key, value) :: after →
         key ∉ map fst after →
         requestData !! key = Some value).
Proof.
  intros Hjson Hform Hdata. unfold parse_body. rewrite Hjson, Hform, Hdata.
  cbn [try_catch mbind Result_bind]. eexists. split; [reflexivity|]. split.
  - intros key. split.
    + intros Hin. destruct (assign_all_lookup formData ∅ key Hin) as (v & Hv & _).
      rewrite Hv. eauto.
    + intros Hsome. destruct (decide (key ∈ map fst formData)) as [Hin|Hnot]; [exact Hin|].
      rewrite assign_all_other in Hsome by exact Hnot.
      rewrite lookup_empty in Hsome. now destruct Hsome.
  - intros before after key value -> Hafter. now apply assign_all_last.
Qed.

Lemma parse_body_form_fields_witness :
  ∃ requestData,
    parse_body (Sample.form_request [] "CallStatus=ringing&CallStatus=completed")
    = Ok (VObj requestData)
    ∧ requestData !! "CallStatus" = Some (VStr "completed").
Proof.
  destruct (parse_body_form_fields
              (Sample.form_request [] "CallStatus=ringing&CallStatus=completed")
              [("CallStatus", VStr "ringing"); ("CallStatus", VStr "completed")]
              eq_refl eq_refl eq_refl) as (requestData & Hparse & _ & Hlast).
  exists requestData. split; [exact Hparse|].
  apply (Hlast [("CallStatus", VStr "ringing")] []); [reflexivity | apply not_elem_of_nil].
Defined.

(** ** Status callbacks, end to end *)

Lemma falsy_is_no_name (v : JsVal) (name : string) :
  truthy v = false → Str.is_empty name = false → strict_eq_str v name = false.
Proof.
  destruct v as [| | | |s| | |]; simpl; try reflexivity.
  destruct s; [|discriminate]. destruct name; [discriminate | reflexivity].
Qed.

(** X24.  Which requests the status callback handler answers.  With the
    configuration present and the client initialised, a request resolved
    to [statusCallback] is answered by the status callback handler; so is
    a request with no action at all that carries a CallSid, even without
    any status field.  What the handler returns is the answer; what it
    throws is answered by the top-level handler.  Nothing is asked of the
    provider. *)
Theorem serve_status_callback
  (env : Env) (client : Provider) (req : Request) (log : Log)
  (requestData : JsVal) (c : Classified) (accountSid authToken : string) :
  method req ≠ "OPTIONS" →
  classification req = Ok (requestData, c) →
  present (TWILIO_PHONE_NUMBER env) →
  TWILIO_ACCOUNT_SID env = Some accountSid → Str.is_empty accountSid = false →
  TWILIO_AUTH_TOKEN env = Some authToken → Str.is_empty authToken = false →
  twilio_init client accountSid authToken = Ok () →
  action c = VStr "statusCallback"
  ∨ (truthy (action c) = false
     ∧ ∃ CallSid, get_prop requestData "CallSid" = Ok CallSid ∧ truthy CallSid = true) →
  serve env client req log
  = (Ok match handle_statusCallback (searchParams req) requestData with
        | Ok response => response
        | Throw error => top_level_catch error
        end,
     log).
Proof.
  intros Hmethod Hc Hphone Hsid Hsid' Htoken Htoken' Hinit Hcases.
  rewrite (serve_classified env client req log _ _ Hmethod Hc).
  assert (truthy (isClientInitiatedCall c) = false) as Hflag.
  { destruct (truthy (isClientInitiatedCall c)) eqn:E; [|reflexivity].
    apply classification_classify in Hc.
    pose proof (classify_client_flag _ _ _ Hc E) as Haction.
    destruct Hcases as [H|[H _]]; rewrite Haction in H; discriminate H. }
  unfold try_catch_eff, dispatch, present in *. cbv zeta.
  rewrite Hphone, Hflag, Hsid, Htoken.
  cbn [negb orb env_value truthy env_text from_option id].
  rewrite Hsid', Htoken'. cbn [negb orb].
  destruct Hcases as [Haction | (Hfalsy & CallSid & HCallSid & Htruthy)].
  - rewrite Haction. simpl strict_eq_str. cbn [orb].
    unfold mbind, Eff_bind, lift. rewrite Hinit.
    destruct (handle_statusCallback _ _); reflexivity.
  - rewrite !(falsy_is_no_name _ _ Hfalsy) by reflexivity. cbn [orb].
    unfold mbind, Eff_bind, lift. rewrite Hinit, Hfalsy, HCallSid.
    cbn [mbind Result_bind]. rewrite Htruthy.
    destruct (handle_statusCallback _ _); reflexivity.
Qed.

Lemma serve_status_callback_witness :
  serve Sample.env Sample.provider (Sample.form_request [] "CallSid=CA123") []
  = (Ok (xml_response (TwiML.toString [])), []).
Proof.
  apply (serve_status_callback Sample.env Sample.provider
           (Sample.form_request [] "CallSid=CA123") []
           (Sample.obj [("CallSid", VStr "CA123")])
           {| action := VNull; isClientInitiatedCall := VUndef |}
           "AC0123456789" "secret");
    [ discriminate | reflexivity | reflexivity | reflexivity | reflexivity
    | reflexivity | reflexivity | reflexivity
    | right; split; [reflexivity | eexists; split; reflexivity] ].
Defined.

(** ** The status of every answer, by method *)

(** X2.  [serve] answers every request, and the status of the answer
    is 204 exactly when the request is an OPTIONS preflight, and 200
    otherwise; a preflight is answered with no body and the CORS headers
    alone, and leaves the provider log as it was. *)
Theorem serve_status_by_method
  (env : Env) (client : Provider) (req : Request) (log : Log) :
  ∃ response log',
    serve env client req log = (Ok response, log')
    ∧ (status response = 204%Z ↔ method req = "OPTIONS")
    ∧ (status response = 200%Z ↔ method req ≠ "OPTIONS")
    ∧ (method req = "OPTIONS" →
       body response = NoBody ∧ headers response = corsHeaders ∧ log' = log).
Proof.
  unfold serve. destruct (String.eqb_spec (method req) "OPTIONS") as [Heq|Hne].
  - exists preflight_response, log. split; [reflexivity|].
    split; [split; [intros _; exact Heq | reflexivity]|].
    split; [split; [discriminate | contradiction]|]. intros _. repeat split.
  - destruct (try_catch_eff_total status_200
                (requestData ← lift (parse_body req);
                 c ← lift (classify (searchParams req) requestData);
                 dispatch env client (searchParams req) requestData c)
                top_level_catch log) as (response & log' & Hrun & Hstatus).
    + returns_step. returns_step. apply dispatch_status.
    + apply top_level_catch_status.
    + exists response, log'. split; [exact Hrun|]. unfold status_200 in Hstatus.
      rewrite Hstatus. split; [split; [discriminate | contradiction]|].
      split; [split; [intros _; exact Hne | reflexivity]|]. contradiction.
Qed.

(** ** Requests whose parameters are all strings *)

Lemma field_string_valued (o : gmap string JsVal) (key : string) :
  string_valued o → field o key = VUndef ∨ ∃ s, field o key = VStr s.
Proof.
  intros Hs. unfold field. destruct (o !! key) as [v|] eqn:E; [|now left].
  destruct (Hs key v E) as [s ->]. right. eauto.
Qed.

Lemma field_string_valued_converts (o : gmap string JsVal) (key : string) :
  string_valued o → converts (field o key) = true.
Proof. intros Hs. destruct (field_string_valued o key Hs) as [-> | [s ->]]; reflexivity. Qed.

Lemma as_values_string_valued (entries : list (string * string)) :
  string_valued (assign_all (as_values entries) ∅).
Proof.
  intros key v Hlookup.
  destruct (decide (key ∈ map fst (as_values entries))) as [Hin|Hnot].
  - destruct (assign_all_lookup (as_values entries) ∅ key Hin) as (w & Hw & Hmem).
    rewrite Hw in Hlookup. injection Hlookup as <-.
    unfold as_values in Hmem. apply list_elem_of_fmap in Hmem as ([k u] & Heq & _).
    injection Heq as _ ->. eauto.
  - rewrite assign_all_other in Hlookup by exact Hnot.
    rewrite lookup_empty in Hlookup. discriminate Hlookup.
Qed.

Lemma formattedPhoneNumber_string (s : string) :
  ∃ formatted, formattedPhoneNumber (VStr s) = Ok formatted.
Proof.
  unfold formattedPhoneNumber. cbn [call_startsWith mbind Result_bind].
  destruct (Str.startsWith s "+"); cbn [call_includes mbind Result_bind];
    [|destruct (Str.includes s "client:")]; eauto.
Qed.

Lemma succeeds_ret {A} (a : A) : succeeds (mret a).
Proof. intros log. eexists _, _. reflexivity. Qed.

Lemma succeeds_lift {A} (r : Result A) : (∃ a, r = Ok a) → succeeds (lift r).
Proof. intros [a ->] log. eexists _, _. reflexivity. Qed.

Lemma succeeds_try_catch {A} (body : Eff A) (handler : JsError → Eff A) :
  (∀ e, succeeds (handler e)) → succeeds (try_catch_eff body handler).
Proof.
  intros Hh log. unfold try_catch_eff.
  destruct (body log) as [[a|e] log']; [eexists _, _; reflexivity | apply Hh].
Qed.

Lemma succeeds_bind_lift {A B} (a : A) (f : A → Eff B) :
  succeeds (f a) → succeeds (lift (Ok a) ≫= f).
Proof. intros H log. apply H. Qed.

Lemma get_url_converts (url_searchParams : list (string * string)) (key : string) :
  converts (URLSearchParams.get url_searchParams key) = true.
Proof.
  induction url_searchParams as [|[k v] rest IH]; [reflexivity|].
  simpl. destruct (String.eqb k key); [reflexivity | exact IH].
Qed.

Lemma js_or_converts (a b : JsVal) :
  converts a = true → converts b = true → converts (js_or a b) = true.
Proof. intros Ha Hb. unfold js_or. now destruct (truthy a). Qed.

Lemma classify_string_valued url_searchParams (o : gmap string JsVal) :
  string_valued o → ∃ c, classify url_searchParams (VObj o) = Ok c.
Proof.
  intros Hs. unfold classify. rewrite !get_prop_object. cbn [mbind Result_bind]. cbv zeta.
  rewrite detailed_status_logged.
  assert ((if truthy (field o "CallSid") && truthy (field o "CallStatus")
           then log_detailed_status (field o "CallSid") (field o "CallStatus")
           else Ok ()) = Ok ()) as ->.
  { destruct (_ && _); [|reflexivity]. apply log_detailed_status_converts.
    now rewrite !field_string_valued_converts. }
  cbn [mbind Result_bind].
  match goal with
  | |- context [if truthy ?seen then Ok ?seen else ?other] =>
      assert (∃ conference, (if truthy seen then Ok seen else other) = Ok conference)
        as [conference ->]
  end.
  { destruct (truthy _); [eauto|].
    destruct (field_string_valued o "StatusCallbackEvent" Hs) as [-> | [s ->]];
      cbn; eauto. }
  cbn [mbind Result_bind].
  destruct (field_string_valued o "From" Hs) as [-> | [s ->]];
    cbn [truthy call_startsWith mbind Result_bind].
  - eauto.
  - destruct (negb (Str.is_empty s)); cbn [mbind Result_bind]; eauto.
Qed.

(** The action resolved from strings is a string, or [null]. *)
Lemma classify_action_converts url_searchParams (o : gmap string JsVal) c :
  string_valued o → classify url_searchParams (VObj o) = Ok c →
  converts (action c) = true.
Proof.
  intros Hs H. unfold classify in H. rewrite !get_prop_object in H.
  cbn [mbind Result_bind] in H. bind_inv H. cbv zeta in H.
  injection H as <-. cbn [action].
  repeat match goal with
         | |- context [if ?b then _ else _] => destruct b
         end;
    first [reflexivity | apply field_string_valued_converts, Hs | apply get_url_converts].
Qed.

Lemma handle_clientCall_string_valued callerId (o : gmap string JsVal) :
  string_valued o → ∃ response, handle_clientCall callerId (VObj o) = Ok response.
Proof.
  intros Hs. unfold handle_clientCall. rewrite !get_prop_object.
  cbn [mbind Result_bind]. cbv zeta. say_constant. cbn [mbind Result_bind].
  destruct (field_string_valued o "phoneNumber" Hs) as [-> | [s ->]].
  - cbn. eauto.
  - destruct (negb (truthy (VStr s))); [eauto|].
    destruct (formattedPhoneNumber_string s) as [formatted ->].
    cbn [mbind Result_bind].
    match goal with
    | |- ∃ response, try_catch ?body _ = Ok response => destruct body; cbn; eauto
    end.
Qed.

Lemma handle_statusCallback_string_valued url_searchParams (o : gmap string JsVal) :
  string_valued o →
  ∃ response, handle_statusCallback url_searchParams (VObj o) = Ok response.
Proof.
  intros Hs.
  assert (∀ key, converts (reported url_searchParams (VObj o) key) = true) as Hreported.
  { intros key. unfold reported.
    destruct (o !! key) as [v|] eqn:E; simpl.
    - destruct (Hs key v E) as [s ->]. reflexivity.
    - destruct (last_value url_searchParams key); reflexivity. }
  rewrite handle_statusCallback_reported.
  rewrite log_template_converts.
  - cbn [mbind Result_bind]. say_constant. destruct (strict_eq_str _ _); cbn; eauto.
  - cbn [forallb]. rewrite !Hreported. cbn [andb]. rewrite andb_true_r.
    apply js_or_converts; [|reflexivity].
    apply js_or_converts; [apply Hreported | apply get_url_converts].
Qed.

Lemma handle_dialStatus_string_valued (o : gmap string JsVal) :
  string_valued o →
  (∀ shown,
     to_string (js_or (field o "DialCallStatus") (VStr "unknown")) = Ok shown →
     speakable ("Call status is " +:+ shown +:+ ". Goodbye.") = true) →
  ∃ response, handle_dialStatus (VObj o) = Ok response.
Proof.
  intros Hs Hspeak. unfold handle_dialStatus. rewrite !get_prop_object.
  cbn [mbind Result_bind]. cbv zeta.
  rewrite (log_template_converts
             [js_or (field o "callId") (js_or (field o "leadId") (VStr "unknown"))]).
  2:{ cbn [forallb]. rewrite andb_true_r.
      repeat apply js_or_converts;
        first [apply field_string_valued_converts, Hs | reflexivity]. }
  say_constant. cbn [mbind Result_bind].
  repeat (destruct (strict_eq_str _ _); [cbn; eauto|]).
  assert (converts (js_or (field o "DialCallStatus") (VStr "unknown")) = true) as Hconv
    by (apply js_or_converts; [apply field_string_valued_converts, Hs | reflexivity]).
  destruct (converts_to_string _ Hconv) as [shown Hshown]. rewrite Hshown.
  cbn [mbind Result_bind]. rewrite (say_speakable _ _ (Hspeak shown Hshown)).
  cbn. eauto.
Qed.

Lemma handle_otherwise_string_valued callerId url_searchParams action
  (o : gmap string JsVal) c :
  string_valued o →
  classify url_searchParams (VObj o) = Ok c →
  truthy (isClientInitiatedCall c) = false →
  converts action = true →
  ∃ response, handle_otherwise callerId action (VObj o) = Ok response.
Proof.
  intros Hs Hclassify Hflag Hconv.
  assert (∃ response, unknown_action_response action = Ok response) as Hunknown.
  { unfold unknown_action_response.
    rewrite log_template_converts by (cbn [forallb]; now rewrite Hconv).
    destruct (converts_to_string _ Hconv) as [shown ->]. cbn. eauto. }
  destruct (classify_flag_value _ _ _ _ _ Hclassify
              (get_prop_object o "From") (get_prop_object o "phoneNumber"))
    as [_ Hvalue].
  unfold handle_otherwise. rewrite !get_prop_object. cbn [mbind Result_bind].
  destruct (field_string_valued o "From" Hs) as [HFrom | [caller HFrom]].
  - rewrite HFrom. cbn [truthy mbind Result_bind]. exact Hunknown.
  - rewrite HFrom. cbn [truthy call_startsWith].
    destruct (negb (Str.is_empty caller)) eqn:Hcaller; cbn [mbind Result_bind];
      [|exact Hunknown].
    destruct (Str.startsWith caller "client:") eqn:Hprefix; [|exact Hunknown].
    rewrite (Hvalue caller HFrom) in Hflag by (rewrite HFrom; exact Hcaller).
    rewrite Hprefix in Hflag. unfold js_and in Hflag. cbn [truthy] in Hflag.
    cbv zeta. rewrite Hflag. cbn [negb]. say_constant. cbn. eauto.
Qed.

Lemma quiet_log_succeeds {A} (v : JsVal) (a : A) :
  converts v = true → succeeds (_ ← lift (log_template [v]); mret a).
Proof.
  intros H. rewrite log_template_converts by (cbn [forallb]; now rewrite H).
  apply succeeds_bind_lift, succeeds_ret.
Qed.

Lemma dispatch_string_valued env client url_searchParams (o : gmap string JsVal) c :
  string_valued o →
  classify url_searchParams (VObj o) = Ok c →
  (∀ accountSid authToken, twilio_init client accountSid authToken = Ok ()) →
  (∀ shown,
     to_string (js_or (field o "DialCallStatus") (VStr "unknown")) = Ok shown →
     speakable ("Call status is " +:+ shown +:+ ". Goodbye.") = true) →
  succeeds (dispatch env client url_searchParams (VObj o) c).
Proof.
  intros Hs Hclassify Hinit Hspeak. unfold dispatch. cbv zeta. say_constant.
  destruct (negb _); [apply succeeds_bind_lift, succeeds_ret|].
  destruct (strict_eq_str (action c) "conferenceStatus"); [apply succeeds_ret|].
  destruct (strict_eq_str (action c) "clientCall" || truthy (isClientInitiatedCall c))
    eqn:Hclient;
    [apply succeeds_lift, handle_clientCall_string_valued, Hs|].
  apply orb_false_iff in Hclient as [_ Hflag].
  destruct (strict_eq_str (action c) "getConfig"); [apply succeeds_ret|].
  destruct (_ || _); [apply succeeds_bind_lift, succeeds_ret|].
  rewrite Hinit. apply succeeds_bind_lift.
  destruct (strict_eq_str (action c) "makeCall").
  { unfold handle_makeCall. rewrite !get_prop_object.
    repeat apply succeeds_bind_lift.
    destruct (negb _); [apply succeeds_ret|].
    apply succeeds_try_catch. intros e. apply succeeds_ret. }
  assert (∃ isStatus,
            (if strict_eq_str (action c) "statusCallback" then Ok true
             else if truthy (action c) then Ok false
                  else CallSid ← get_prop (VObj o) "CallSid"; Ok (truthy CallSid))
            = Ok isStatus) as [isStatus ->].
  { destruct (strict_eq_str _ _); [eauto|]. destruct (truthy (action c)); eauto. }
  apply succeeds_bind_lift.
  destruct isStatus; [apply succeeds_lift, handle_statusCallback_string_valued, Hs|].
  destruct (strict_eq_str (action c) "dialStatus");
    [apply succeeds_lift, handle_dialStatus_string_valued; assumption|].
  destruct (strict_eq_str (action c) "checkStatus").
  { unfold handle_checkStatus. rewrite get_prop_object. apply succeeds_bind_lift.
    destruct (negb _); [apply succeeds_ret|].
    apply succeeds_try_catch. intros e.
    apply quiet_log_succeeds, field_string_valued_converts, Hs. }
  destruct (strict_eq_str (action c) "endCall").
  { unfold handle_endCall. rewrite get_prop_object. apply succeeds_bind_lift.
    destruct (negb _); [apply succeeds_ret|].
    apply succeeds_try_catch. intros e.
    apply quiet_log_succeeds, field_string_valued_converts, Hs. }
  destruct (strict_eq_str (action c) "hangupAll");
    [apply succeeds_try_catch; intros e; apply succeeds_ret|].
  apply succeeds_lift.
  apply (handle_otherwise_string_valued _ url_searchParams _ o c); try assumption.
  apply (classify_action_converts url_searchParams o c); assumption.
Qed.

(** X5.  Requests whose parameters are all strings reach the top-level
    error handler through one door only.  When the normalised parameters
    form a map of strings (as every URL-encoded body does), initialising
    the provider client does not throw, and the builder accepts the
    message that names the DialCallStatus, classification returns and so
    does the dispatched handler: the answer of [serve] is the handler's
    own, whatever the provider answers.  Every other fault that reaches
    the top-level handler needs a value that is no string. *)
Theorem serve_string_valued
  (env : Env) (client : Provider) (req : Request) (log : Log) (o : gmap string JsVal) :
  method req ≠ "OPTIONS" →
  parse_body req = Ok (VObj o) →
  string_valued o →
  (∀ accountSid authToken, twilio_init client accountSid authToken = Ok ()) →
  (∀ shown,
     to_string (js_or (field o "DialCallStatus") (VStr "unknown")) = Ok shown →
     speakable ("Call status is " +:+ shown +:+ ". Goodbye.") = true) →
  ∃ c response log',
    classification req = Ok (VObj o, c)
    ∧ dispatch env client (searchParams req) (VObj o) c log = (Ok response, log')
    ∧ serve env client req log = (Ok response, log').
Proof.
  intros Hmethod Hparse Hs Hinit Hspeak.
  destruct (classify_string_valued (searchParams req) o Hs) as [c Hclassify].
  destruct (dispatch_string_valued env client (searchParams req) o c
              Hs Hclassify Hinit Hspeak log)
    as (response & log' & Hrun).
  assert (classification req = Ok (VObj o, c)) as Hc
    by (unfold classification; rewrite Hparse; cbn [mbind Result_bind];
        rewrite Hclassify; reflexivity).
  exists c, response, log'. split; [exact Hc|]. split; [exact Hrun|].
  rewrite (serve_classified env client req log _ _ Hmethod Hc).
  unfold try_catch_eff. rewrite Hrun. reflexivity.
Qed.

Lemma serve_string_valued_witness :
  ∃ c response log',
    classification
      (Sample.form_request [("action", "dialStatus")] "DialCallStatus=canceled")
    = Ok (VObj (assign_all (as_values [("DialCallStatus", "canceled")]) ∅), c)
    ∧ dispatch Sample.env Sample.provider [("action", "dialStatus")]
        (VObj (assign_all (as_values [("DialCallStatus", "canceled")]) ∅)) c []
      = (Ok response, log')
    ∧ serve Sample.env Sample.provider
        (Sample.form_request [("action", "dialStatus")] "DialCallStatus=canceled") []
      = (Ok response, log').
Proof.
  apply (serve_string_valued Sample.env Sample.provider
           (Sample.form_request [("action", "dialStatus")] "DialCallStatus=canceled") []
           (assign_all (as_values [("DialCallStatus", "canceled")]) ∅)).
  - discriminate.
  - reflexivity.
  - apply as_values_string_valued.
  - reflexivity.
  - intros shown [= <-]. vm_compute. reflexivity.
Defined.
Lemma assign_all_string_valued (entries : list (string * JsVal)) :
  (∀ key v, (key, v) ∈ entries → ∃ s, v = VStr s) →
  string_valued (assign_all entries ∅).
Proof.
  intros Hentries key v Hlookup.
  destruct (decide (key ∈ map fst entries)) as [Hin|Hnot].
  - destruct (assign_all_lookup entries ∅ key Hin) as (w & Hw & Hmem).
    rewrite Hw in Hlookup. injection Hlookup as <-. eapply Hentries, Hmem.
  - rewrite assign_all_other in Hlookup by exact Hnot.
    rewrite lookup_empty in Hlookup. discriminate Hlookup.
Qed.

Lemma empty_string_valued : string_valued ∅.
Proof. intros key v H. rewrite lookup_empty in H. discriminate H. Qed.

(** X25.  Only a JSON body can bring a value that is no string.  When
    the body does not parse as JSON and the form fields, if the platform
    decodes any, are texts (no uploaded file), the normalised value is a
    key/value map whose values are all strings, whatever the declared
    content type and whichever reader fails. *)
Theorem parse_body_not_json (req : Request) :
  rejects (body_JSON req) →
  (∀ formData key v,
     body_formData req = Ok formData → (key, v) ∈ formData → ∃ s, v = VStr s) →
  ∃ o, parse_body req = Ok (VObj o) ∧ string_valued o.
Proof.
  intros Hjson Hform. unfold parse_body, clone_json.
  destruct (body_JSON req) as [v|e] eqn:EJSON; [destruct Hjson|].
  destruct (Str.includes _ "application/json").
  - destruct (body_text req); cbn; eauto using empty_string_valued.
  - destruct (_ || _).
    + destruct (body_formData req) as [formData|e1] eqn:Edata; cbn.
      * eexists. split; [reflexivity|]. apply assign_all_string_valued.
        intros key v. apply Hform. reflexivity.
      * destruct (body_text_again req); cbn;
          eauto using empty_string_valued, as_values_string_valued.
    + destruct (body_text req) as [text|e1]; cbn; [|eauto using empty_string_valued].
      destruct (Str.trim_is_empty text); cbn;
        eauto using empty_string_valued, as_values_string_valued.
Qed.

Lemma parse_body_not_json_witness :
  ∃ o, parse_body (Sample.form_request [] "From=client%3Aabc&phoneNumber=5551234567")
       = Ok (VObj o)
       ∧ string_valued o.
Proof.
  apply (parse_body_not_json
           (Sample.form_request [] "From=client%3Aabc&phoneNumber=5551234567")).
  - exact I.
  - intros formData key v [= <-] Hin.
    repeat (apply elem_of_cons in Hin as [[= _ ->]|Hin]; [eauto|]).
    inversion Hin.
Defined.

(** ** Routing *)

(** X26.  Routing of the management and dial-result actions.  With the
    configuration present and the client initialised, a request resolved
    to [makeCall], [dialStatus], [checkStatus], [endCall] or [hangupAll]
    is answered by running the handler of that name on the normalised
    parameters, under the top-level handler: what is proved of each
    handler holds of [serve] for these requests. *)
Theorem serve_routes
  (env : Env) (client : Provider) (req : Request) (log : Log)
  (requestData : JsVal) (c : Classified) (callerId accountSid authToken : string) :
  method req ≠ "OPTIONS" →
  classification req = Ok (requestData, c) →
  TWILIO_PHONE_NUMBER env = Some callerId → Str.is_empty callerId = false →
  TWILIO_ACCOUNT_SID env = Some accountSid → Str.is_empty accountSid = false →
  TWILIO_AUTH_TOKEN env = Some authToken → Str.is_empty authToken = false →
  twilio_init client accountSid authToken = Ok () →
  let under_top_level (handler : Eff Response) :=
    try_catch_eff handler (fun error => mret (top_level_catch error)) log in
  (action c = VStr "makeCall" →
   serve env client req log = under_top_level (handle_makeCall client callerId requestData))
  ∧ (action c = VStr "dialStatus" →
     serve env client req log = under_top_level (lift (handle_dialStatus requestData)))
  ∧ (action c = VStr "checkStatus" →
     serve env client req log = under_top_level (handle_checkStatus client requestData))
  ∧ (action c = VStr "endCall" →
     serve env client req log = under_top_level (handle_endCall client requestData))
  ∧ (action c = VStr "hangupAll" →
     serve env client req log = under_top_level (handle_hangupAll client)).
Proof.
  intros Hmethod Hc Hphone Hphone' Hsid Hsid' Htoken Htoken' Hinit under_top_level.
  subst under_top_level. cbv beta.
  rewrite (serve_classified env client req log _ _ Hmethod Hc).
  assert (∀ name, action c = VStr name → name ≠ "clientCall" →
          dispatch env client (searchParams req) requestData c log
          = (if String.eqb name "conferenceStatus" then mret (xml_response (TwiML.toString []))
             else if String.eqb name "getConfig" then mret (handle_getConfig callerId)
             else if String.eqb name "makeCall"
                  then handle_makeCall client callerId requestData
             else if String.eqb name "statusCallback"
                  then lift (handle_statusCallback (searchParams req) requestData)
             else if Str.is_empty name
                  then dispatch env client (searchParams req) requestData c
             else if String.eqb name "dialStatus" then lift (handle_dialStatus requestData)
             else if String.eqb name "checkStatus"
                  then handle_checkStatus client requestData
             else if String.eqb name "endCall" then handle_endCall client requestData
             else if String.eqb name "hangupAll" then handle_hangupAll client
             else lift (handle_otherwise callerId (VStr name) requestData)) log)
    as Hroute.
  { intros name Haction Hname.
    pose proof (client_flag_off req _ _ name Hc Haction Hname) as Hflag.
    destruct (Str.is_empty name) eqn:Eempty.
    { destruct name; [|discriminate Eempty]. reflexivity. }
    unfold dispatch. cbv zeta.
    rewrite Hphone, Hsid, Htoken, Haction, Hflag.
    cbn [negb orb env_value truthy env_text from_option id strict_eq_str].
    rewrite Hphone', Hsid', Htoken', Eempty. cbn [negb orb].
    destruct (String.eqb name "conferenceStatus"); [reflexivity|].
    destruct (String.eqb_spec name "clientCall") as [->|_]; [contradiction|].
    cbn [orb].
    destruct (String.eqb name "getConfig"); [reflexivity|].
    unfold mbind at 1, Eff_bind at 1, lift at 1. rewrite Hinit.
    destruct (String.eqb name "makeCall"); [reflexivity|].
    unfold mbind at 1, Eff_bind at 1, lift at 1.
    destruct (String.eqb name "statusCallback"); reflexivity. }
  unfold try_catch_eff.
  repeat split; intros Haction; rewrite (Hroute _ Haction) by discriminate; reflexivity.
Qed.

Lemma serve_routes_witness :
  serve Sample.env Sample.provider
    (Sample.form_request [("action", "endCall")] "callSid=CA2") []
  = try_catch_eff
      (handle_endCall Sample.provider (Sample.obj [("callSid", VStr "CA2")]))
      (fun error => mret (top_level_catch error)) [].
Proof.
  refine (proj1 (proj2 (proj2 (proj2
            (serve_routes Sample.env Sample.provider
               (Sample.form_request [("action", "endCall")] "callSid=CA2") []
               (Sample.obj [("callSid", VStr "CA2")])
               {| action := VStr "endCall"; isClientInitiatedCall := VUndef |}
               "+15550001111" "AC0123456789" "secret"
               _ eq_refl eq_refl eq_refl eq_refl eq_refl eq_refl eq_refl eq_refl))))
            eq_refl).
  discriminate.
Defined.

(** ** Faults the handler catches, and faults it does not *)

(** X27.  The client-call handler on a string destination never throws.
    When the lead reference converts to text and the builder accepts the
    caller ID, the callback URL and the formatted number, the markup says
    the connecting message and dials the formatted number with the caller
    ID, the 20-second timeout and the dial-result callback of the lead.
    In every other case the failure is caught and the markup is the
    spoken apology. *)
Theorem handle_clientCall_string_destination
  (TWILIO_PHONE_NUMBER : string) (requestData leadId : JsVal) (s formatted : string) :
  get_prop requestData "phoneNumber" = Ok (VStr s) →
  Str.is_empty s = false →
  get_prop requestData "leadId" = Ok leadId →
  formattedPhoneNumber (VStr s) = Ok formatted →
  handle_clientCall TWILIO_PHONE_NUMBER requestData
  = Ok (xml_response
          match to_string (js_or leadId (VStr "unknown")) with
          | Ok lead =>
              if writable TWILIO_PHONE_NUMBER && writable (dialStatus_url lead)
                 && speakable formatted
              then
                TwiML.toString
                  [ TwiML.Say "Connecting your call. Please wait.";
                    TwiML.Dial
                      [ ("callerId", TWILIO_PHONE_NUMBER);
                        ("timeout", "20");
                        ("action", dialStatus_url lead);
                        ("method", "POST") ]
                      [TwiML.Number formatted] ]
              else sorry_markup
          | Throw _ => sorry_markup
          end).
Proof.
  intros Hphone Hs Hlead Hformatted.
  unfold handle_clientCall. rewrite Hphone, Hlead.
  cbn [mbind Result_bind truthy]. cbv zeta. rewrite Hs, Hformatted.
  cbn [negb mbind Result_bind]. say_constant. cbn [try_catch mbind Result_bind app].
  destruct (to_string (js_or leadId (VStr "unknown"))) as [lead|e];
    cbn [try_catch mbind Result_bind]; [|reflexivity].
  unfold TwiML.dial. cbn [TwiML.attributes snd].
  destruct (writable TWILIO_PHONE_NUMBER) eqn:Hcaller.
  2:{ destruct (attValue_unwritable _ Hcaller) as [e ->]. reflexivity. }
  rewrite (attValue_writable _ Hcaller). cbn [mbind Result_bind andb].
  rewrite (attValue_writable (pretty DEFAULT_TIMEOUT)) by (vm_compute; reflexivity).
  cbn [mbind Result_bind].
  destruct (writable (dialStatus_url lead)) eqn:Hurl.
  2:{ destruct (attValue_unwritable _ Hurl) as [e ->]. reflexivity. }
  rewrite (attValue_writable _ Hurl). cbn [mbind Result_bind andb].
  rewrite (attValue_writable "POST") by (vm_compute; reflexivity).
  cbn [mbind Result_bind app length]. unfold TwiML.number.
  destruct (speakable formatted) eqn:Hnumber.
  2:{ destruct (text_unspeakable _ Hnumber) as [e ->]. reflexivity. }
  rewrite (text_speakable _ Hnumber). reflexivity.
Qed.

Lemma handle_clientCall_string_destination_witness :
  handle_clientCall "+15550001111"
    (Sample.obj [ ("From", VStr "client:abc");
                  ("phoneNumber", VStr "5551234567");
                  ("leadId", Sample.obj [("toString", VNum 1)]) ])
  = Ok (xml_response sorry_markup).
Proof.
  apply (handle_clientCall_string_destination "+15550001111"
           (Sample.obj [ ("From", VStr "client:abc");
                         ("phoneNumber", VStr "5551234567");
                         ("leadId", Sample.obj [("toString", VNum 1)]) ])
           (Sample.obj [("toString", VNum 1)]) "5551234567" "+5551234567");
    reflexivity.
Defined.

(** X28.  The status log of the classifier is not guarded.  When a
    parameter map carries a CallSid and a CallStatus and one of the two
    cannot be converted to text, classification throws at the log line,
    before the conference and client-call rules and before the
    configuration is read: the request is answered by the top-level
    handler, and nothing is asked of the provider. *)
Theorem serve_status_log_throws
  (env : Env) (client : Provider) (req : Request) (log : Log) (o : gmap string JsVal) :
  method req ≠ "OPTIONS" →
  parse_body req = Ok (VObj o) →
  truthy (field o "CallSid") = true →
  truthy (field o "CallStatus") = true →
  converts (field o "CallSid") && converts (field o "CallStatus") = false →
  ∃ error,
    classify (searchParams req) (VObj o) = Throw error
    ∧ serve env client req log = (Ok (top_level_catch error), log).
Proof.
  intros Hmethod Hparse HSid HStatus Hconv.
  destruct (log_detailed_status_throws _ _ Hconv) as [error Hthrow].
  assert (classify (searchParams req) (VObj o) = Throw error) as Hclassify.
  { unfold classify. rewrite !get_prop_object. cbn [mbind Result_bind]. cbv zeta.
    rewrite detailed_status_logged, HSid, HStatus. cbn [andb].
    rewrite Hthrow. reflexivity. }
  exists error. split; [exact Hclassify|].
  apply String.eqb_neq in Hmethod.
  unfold serve. rewrite Hmethod. unfold try_catch_eff, mbind, Eff_bind, lift.
  rewrite Hparse, Hclassify. reflexivity.
Qed.

Lemma serve_status_log_throws_witness :
  ∃ error,
    classify []
      (Sample.obj [ ("CallSid", Sample.obj [("toString", VNum 1)]);
                    ("CallStatus", VStr "ringing");
                    ("From", VStr "client:abc");
                    ("phoneNumber", VStr "5551234567") ])
    = Throw error
    ∧ serve Sample.env Sample.provider Sample.client_call_object_sid_request []
      = (Ok (top_level_catch error), []).
Proof.
  apply (serve_status_log_throws Sample.env Sample.provider
           Sample.client_call_object_sid_request []
           (list_to_map [ ("CallSid", Sample.obj [("toString", VNum 1)]);
                          ("CallStatus", VStr "ringing");
                          ("From", VStr "client:abc");
                          ("phoneNumber", VStr "5551234567") ]));
    first [discriminate | reflexivity].
Defined.
